(** * Verification of the authentication and statistics back end (src/server.js)

    A shallow embedding of the Express handlers of [src/server.js]:
    request fields are JavaScript values, the PostgreSQL tables are lists of
    rows, and every handler is a computation in a state-and-exception monad
    over the [World] (tables, serial counters, pending faults of the store and
    of the mail transport, and the log of effects performed so far).

    Scope of the model.
    - Strings are sequences of code units; [String.length] stands for the
      JavaScript [.length].
    - Numbers that the handlers treat as integers (ids, scores, times in
      milliseconds) are mathematical integers; this is exact while magnitudes
      stay below 2^53, and the properties that depend on the value of a
      score or of a total assume such safe integers.  A number of a request
      that is not a safe integer is carried by its notation ([JReal]).
      The fractional computation the properties depend on,
      [generateResetCode], is modelled with binary64 rounding written out
      (module [Double]); the hours played, on whose arithmetic no property
      depends, are kept abstract ([FloatOps]).
    - The store accepts every string as text, executes each statement
      atomically, and either completes a statement or raises (the [catch] of
      every handler); [console.error] is not modelled.
    - [bcrypt] and [jsonwebtoken] are external libraries: they appear as
      interfaces ([BcryptLib], [JwtLib]); the part of their contract that a
      property relies on is a hypothesis of that property
      ([bcrypt_contract], [jwt_contract]), and reference instances show the
      contracts satisfiable. *)

From Stdlib Require Import ZArith List String Ascii Bool Lia QArith Qminmax.
Import ListNotations.

#[local] Open Scope string_scope.
#[local] Open Scope Z_scope.

(* ===================================================================== *)
(** * JavaScript values *)
(* ===================================================================== *)

(** Primitive values, as a field of a parsed JSON body can be ([JUndefined]
    when the field is missing).  [JNum z] is a number whose value is the
    integer [z], below 2^53 in magnitude: a safe integer, which [toString]
    writes digit by digit.  Every other number of a JSON body, one with a
    fraction or a larger one, is a [JReal], given by the notation that
    [toString] has for it, such as ["12.5"] or ["1e+21"].  Arrays and
    objects as field values are outside the model. *)
Inductive prim : Type :=
| JUndefined
| JNull
| JBool (b : bool)
| JNum (z : Z)
| JStr (s : string)
| JReal (notation : string).

(** [Number.isSafeInteger]: the integers on which the arithmetic of
    JavaScript is that of the integers. *)
Definition safe_integer (z : Z) : Prop := - 2 ^ 53 < z < 2 ^ 53.

(** JSON documents sent back with [res.json]. *)
#[local] Set Warnings "-register-all".
Inductive json : Type :=
| JV (v : prim)
| JObject (fields : list (string * json)).
#[local] Set Warnings "register-all".

(** ToBoolean: the test behind [!x], [x && y], [x || y].  A [JReal] is
    neither 0 nor NaN. *)
Definition truthy (v : prim) : bool :=
  match v with
  | JUndefined | JNull => false
  | JBool b => b
  | JNum z => negb (Z.eqb z 0)
  | JStr s => negb (String.eqb s "")
  | JReal _ => true
  end.

(** [x.length] for a truthy primitive [x]: the number of code units of a
    string, [undefined] for numbers and booleans. *)
Definition length_of (v : prim) : prim :=
  match v with
  | JStr s => JNum (Z.of_nat (String.length s))
  | _ => JUndefined
  end.

(** [a < n] for a numeric literal [n] where [a] is what [length_of] returns:
    a length or [undefined] ([undefined] converts to NaN, and every
    comparison with NaN is false). *)
Definition js_lt_num (a : prim) (n : Z) : bool :=
  match a with
  | JNum z => Z.ltb z n
  | _ => false
  end.

(** [a !== b] against a nullable text column. *)
Definition strict_neq (a : prim) (b : option string) : bool :=
  match a, b with
  | JStr s, Some t => negb (String.eqb s t)
  | JNull, None => false
  | _, _ => true
  end.

(* --------------------------------------------------------------------- *)
(** ** Decimal notation *)

Definition digit_char (d : Z) : ascii :=
  ascii_of_nat (48 + Z.to_nat d).

Fixpoint digits_fuel (fuel : nat) (n : Z) : string :=
  match fuel with
  | O => EmptyString
  | S fuel' =>
      if Z.ltb n 10 then String (digit_char n) EmptyString
      else digits_fuel fuel' (n / 10) ++ String (digit_char (n mod 10)) EmptyString
  end.

(** Decimal digits of a non-negative integer, most significant first. *)
Definition digits (n : Z) : string :=
  digits_fuel (S (Z.to_nat (Z.log2 n))) n.

(** Number.prototype.toString() on a safe integer, which it writes digit by
    digit (a larger Number is written with its shortest digits, and from
    10^21 on in exponent notation: such a number is a [JReal] in a
    request). *)
Definition toString (z : Z) : string :=
  if Z.ltb z 0 then String "-"%char (digits (- z)) else digits z.

Definition is_digit (c : ascii) : bool :=
  let n := nat_of_ascii c in (48 <=? n)%nat && (n <=? 57)%nat.

Fixpoint all_digits (s : string) : bool :=
  match s with
  | EmptyString => true
  | String c s' => is_digit c && all_digits s'
  end.

(** Value of a string of decimal digits, given the value of the digits
    already read. *)
Fixpoint digits_value (acc : Z) (s : string) : Z :=
  match s with
  | EmptyString => acc
  | String c s' => digits_value (10 * acc + (Z.of_nat (nat_of_ascii c) - 48)) s'
  end.

(** How node-postgres passes a primitive as a text parameter
    ([prepareValue]): [null] and [undefined] become NULL, everything else its
    [toString()]. *)
Definition pg_text (v : prim) : option string :=
  match v with
  | JUndefined | JNull => None
  | JBool true => Some "true"
  | JBool false => Some "false"
  | JNum z => Some (toString z)
  | JStr s => Some s
  | JReal s => Some s
  end.

(** [ToString] of a primitive, as [parseInt] applies it to its argument. *)
Definition js_to_string (v : prim) : string :=
  match v with
  | JUndefined => "undefined"
  | JNull => "null"
  | JBool true => "true"
  | JBool false => "false"
  | JNum z => toString z
  | JStr s => s
  | JReal s => s
  end.

(** White space that [parseInt] skips, among the code units below 256. *)
Definition is_space (c : ascii) : bool :=
  let n := nat_of_ascii c in
  ((9 <=? n)%nat && (n <=? 13)%nat) || (n =? 32)%nat || (n =? 160)%nat.

Fixpoint skip_spaces (s : string) : string :=
  match s with
  | String c s' => if is_space c then skip_spaces s' else s
  | EmptyString => s
  end.

(** The longest prefix of decimal digits. *)
Fixpoint leading_digits (s : string) : string :=
  match s with
  | String c s' => if is_digit c then String c (leading_digits s') else EmptyString
  | EmptyString => EmptyString
  end.

(** [parseInt(s, 10)] on a string; [None] is NaN.  With the radix given as
    10 no [0x] prefix is recognised.  The result is the integer that the
    digits write: it is the result of JavaScript when it is a safe integer
    (JavaScript rounds a larger one to 53 significant bits). *)
Definition parseInt_string (s : string) : option Z :=
  let s1 := skip_spaces s in
  let '(neg, s2) :=
    match s1 with
    | String c r =>
        if Ascii.eqb c "-" then (true, r)
        else if Ascii.eqb c "+" then (false, r)
        else (false, s1)
    | EmptyString => (false, s1)
    end in
  match leading_digits s2 with
  | EmptyString => None
  | ds => Some (if neg : bool then - digits_value 0 ds else digits_value 0 ds)
  end.

Definition parseInt (v : prim) : option Z := parseInt_string (js_to_string v).

(** [parseInt(v, 10) || 0]: NaN and 0 are falsy. *)
Definition parseInt_or_0 (v : prim) : Z :=
  match parseInt v with
  | Some z => z
  | None => 0
  end.

(** [s.split(sep)] for a one-character separator. *)
Fixpoint split (sep : ascii) (s : string) : list string :=
  match s with
  | EmptyString => [EmptyString]
  | String c s' =>
      if Ascii.eqb c sep then EmptyString :: split sep s'
      else match split sep s' with
           | h :: t => String c h :: t
           | [] => [String c EmptyString]
           end
  end.

(* ===================================================================== *)
(** * binary64 arithmetic of [generateResetCode] *)
(* ===================================================================== *)

Module Double.

(** A finite non-negative double is [mant * 2^expo] with [mant < 2^53] and
    [expo >= -1074]. *)
Record t : Type := mk { mant : Z; expo : Z }.

Definition prec : Z := 53.
Definition emin : Z := -1074.

Definition wf (x : t) : Prop :=
  0 <= mant x < 2 ^ prec /\ emin <= expo x.

(** [x < 1] for a well-formed [x]. *)
Definition below_one (x : t) : Prop :=
  mant x = 0 \/ (expo x < 0 /\ mant x < 2 ^ (- expo x)).

(** Round [n / 2^k] to the nearest integer, ties to even. *)
Definition round_shift (n k : Z) : Z :=
  if k <=? 0 then n
  else
    let q := Z.shiftr n k in
    let r := n - Z.shiftl q k in
    let half := Z.shiftl 1 (k - 1) in
    if r <? half then q
    else if half <? r then q + 1
    else if Z.even q then q else q + 1.

(** The double nearest to the exact value [n * 2^e] ([n >= 0]): keep 53
    significant bits, and no bit below 2^-1074. *)
Definition round (n e : Z) : t :=
  let k := Z.max (Z.log2 n - (prec - 1)) (emin - e) in
  if k <=? 0 then mk n e else mk (round_shift n k) (e + k).

Definition of_int (n : Z) : t := mk n 0.

Definition mul (x y : t) : t :=
  round (mant x * mant y) (expo x + expo y).

Definition add (x y : t) : t :=
  let e := Z.min (expo x) (expo y) in
  round (Z.shiftl (mant x) (expo x - e) + Z.shiftl (mant y) (expo y - e)) e.

(** [Math.floor]. *)
Definition floor (x : t) : Z :=
  if 0 <=? expo x then Z.shiftl (mant x) (expo x)
  else Z.shiftr (mant x) (- expo x).

(** To compare values: [n * 2^e] in units of 2^-1074, an integer as soon as
    [e >= -1074]. *)
Definition scaled (n e : Z) : Z := n * 2 ^ (e - emin).

Definition sval (x : t) : Z := scaled (mant x) (expo x).

(** In units of 2^-33: the double just below 900000 and the double just
    below 1000000. *)
Definition top_product : Z := 900000 * 2 ^ 33 - 1.
Definition top_sum : Z := 1000000 * 2 ^ 33 - 1.

End Double.

(* ===================================================================== *)
(** * The relational store *)
(* ===================================================================== *)

(** Modelled from the spec: the schema of [users] is not part of the source;
    section 6 of the specification gives
    [users(id, name, email unique, password_hash, reset_token nullable,
    reset_expires nullable timestamp)].  A timestamp is the number of
    milliseconds since the epoch of the [Date] it was written from. *)
Module Users.
Record row : Type := mk {
  id : Z;
  name : string;
  email : string;
  password_hash : string;
  reset_token : option string;
  reset_expires : option Z
}.
End Users.

(** External libraries whose results the handlers only pass along. *)
Class FloatOps : Type := {
  (** a JavaScript number that may have a fractional part *)
  float : Type;
  (** [parseFloat(v) || 0] on a request field *)
  parseFloat_or_0 : prim -> float;
  (** [parseFloat(c)] on a value read from a numeric column *)
  parseFloat_column : float -> float;
  (** [a + b] *)
  float_add : float -> float -> float;
  (** the number as it appears in a JSON response *)
  float_json : float -> json
}.

Module GameStats.
(** The columns of [game_stats] named by the statements of the source. *)
Record row `{FloatOps} : Type := mk {
  id : Z;
  user_id : Z;
  game_type : option string;
  total_hours : float;
  high_score : Z;
  total_score : Z
}.
Arguments mk {_} _ _ _ _ _ _.
End GameStats.

(* ===================================================================== *)
(** * External libraries and configuration *)
(* ===================================================================== *)

(** [bcrypt]: [hash(data, rounds)] draws a salt and returns the hash string
    ([bcrypt_hash data rounds salt]), [compare(data, hash)] checks a password
    against a hash.  Both reject data that is not a string (modelled at the
    call sites). *)
Class BcryptLib : Type := {
  bcrypt_hash : string -> Z -> string -> string;
  bcrypt_compare : string -> string -> bool
}.

Module Claims.
(** The payload of a session token. *)
Record t : Type := mk { id : Z; email : string; iat : Z; exp : Z }.
End Claims.

Inductive jwt_error : Type :=
| JsonWebTokenError   (* malformed token or invalid signature *)
| TokenExpiredError.  (* the clock has reached [exp] *)

(** [jsonwebtoken]: [jwt_sign id email secret iat expiresIn] is
    [jwt.sign({id, email}, secret, {expiresIn})] at the time [iat] (in
    seconds); [jwt_verify token secret now] is [jwt.verify] at the time
    [now].  [jwt.sign] raises on a missing secret (modelled at the call
    site); [jwt.verify] receives [process.env.JWT_SECRET] as it is, and
    nothing is assumed of it when the secret is missing. *)
Class JwtLib : Type := {
  jwt_sign : Z -> string -> string -> Z -> Z -> string;
  jwt_verify : string -> option string -> Z -> Claims.t + jwt_error
}.

(** [process.env]: a variable is a string or is not set. *)
Record Config : Type := {
  JWT_SECRET : option string;
  MAIL_FROM : option string
}.

(** What one request reads from its environment: the clock ([Date.now()],
    in milliseconds), [Math.random()], and the salt [bcrypt.hash] draws. *)
Record Env : Type := {
  now : Z;
  random : Double.t;
  salt : string
}.

Record mail : Type := {
  mail_from : option string;
  mail_to : prim;
  mail_subject : string;
  mail_text : string
}.

Record response : Type := { status : Z; body : json }.

Record request : Type := {
  method : string;
  path : string;
  authorization : option string;   (* req.headers['authorization'] *)
  req_body : string -> prim        (* req.body.<field> *)
}.

(** A computation either returns or throws. *)
Inductive outcome (A : Type) : Type :=
| Return (a : A)
| Throw.
Arguments Return {A} a.
Arguments Throw {A}.

Section Server.

Context {F : FloatOps} {B : BcryptLib} {J : JwtLib}.

(* ===================================================================== *)
(** * The world and the monad of handlers *)
(* ===================================================================== *)

(** Statements sent to the store and messages handed to the transport. *)
Inductive effect : Type :=
| SelectUsersByEmail (email : option string)
| InsertUser (name email : option string) (password_hash : string)
| UpdateUserReset (reset_token : string) (reset_expires : Z) (id : Z)
| UpdateUserPassword (password_hash : string) (id : Z)
| SelectGameStats (user_id : Z) (game_type : option string)
| SelectGameStatsOfUser (user_id : Z)
| InsertGameStats (user_id : Z) (game_type : option string)
                  (total_hours : float) (high_score total_score : Z)
| UpdateGameStats (total_hours : float) (total_score high_score : Z) (id : Z)
| SelectRanking (game : string)
| SendMail (m : mail).

(** [db_faults] and [mail_faults] give the outcome of the coming statements
    and messages ([true]: it fails); when a list is exhausted nothing fails
    any more.  [log] lists the effects attempted so far, oldest first, with
    whether each one completed. *)
Record World : Type := {
  users : list Users.row;
  users_seq : Z;
  game_stats : list GameStats.row;
  game_stats_seq : Z;
  db_faults : list bool;
  mail_faults : list bool;
  log : list (effect * bool)
}.

Definition set_users (f : list Users.row -> list Users.row) (w : World) : World :=
  {| users := f (users w); users_seq := users_seq w;
     game_stats := game_stats w; game_stats_seq := game_stats_seq w;
     db_faults := db_faults w; mail_faults := mail_faults w; log := log w |}.

Definition set_users_seq (n : Z) (w : World) : World :=
  {| users := users w; users_seq := n;
     game_stats := game_stats w; game_stats_seq := game_stats_seq w;
     db_faults := db_faults w; mail_faults := mail_faults w; log := log w |}.

Definition set_game_stats
    (f : list GameStats.row -> list GameStats.row) (w : World) : World :=
  {| users := users w; users_seq := users_seq w;
     game_stats := f (game_stats w); game_stats_seq := game_stats_seq w;
     db_faults := db_faults w; mail_faults := mail_faults w; log := log w |}.

Definition set_game_stats_seq (n : Z) (w : World) : World :=
  {| users := users w; users_seq := users_seq w;
     game_stats := game_stats w; game_stats_seq := n;
     db_faults := db_faults w; mail_faults := mail_faults w; log := log w |}.

Definition set_db_faults (l : list bool) (w : World) : World :=
  {| users := users w; users_seq := users_seq w;
     game_stats := game_stats w; game_stats_seq := game_stats_seq w;
     db_faults := l; mail_faults := mail_faults w; log := log w |}.

Definition set_mail_faults (l : list bool) (w : World) : World :=
  {| users := users w; users_seq := users_seq w;
     game_stats := game_stats w; game_stats_seq := game_stats_seq w;
     db_faults := db_faults w; mail_faults := l; log := log w |}.

Definition logged (e : effect) (ok : bool) (w : World) : World :=
  {| users := users w; users_seq := users_seq w;
     game_stats := game_stats w; game_stats_seq := game_stats_seq w;
     db_faults := db_faults w; mail_faults := mail_faults w;
     log := (log w ++ [(e, ok)])%list |}.

(** The monad of handlers: the world a computation leaves behind is kept
    whether it returns or throws (nothing is rolled back). *)
Definition M (A : Type) : Type := World -> outcome A * World.

Definition ret {A} (a : A) : M A := fun w => (Return a, w).

Definition throw {A} : M A := fun w => (Throw, w).

Definition bind {A C} (m : M A) (k : A -> M C) : M C :=
  fun w =>
    match m w with
    | (Return a, w') => k a w'
    | (Throw, w') => (Throw, w')
    end.

(** [try { m } catch (err) { h }] *)
Definition try_catch {A} (m : M A) (h : M A) : M A :=
  fun w =>
    match m w with
    | (Return a, w') => (Return a, w')
    | (Throw, w') => h w'
    end.

Notation "x <- m ;; k" := (bind m (fun x => k))
  (at level 61, m at next level, right associativity).

(** [await pool.query(...)]: the statement fails when the store says so, and
    otherwise runs [exec], which may itself raise (a violated constraint). *)
Definition pool_query {A} (e : effect) (exec : World -> outcome A * World) : M A :=
  fun w =>
    match db_faults w with
    | true :: rest => (Throw, logged e false (set_db_faults rest w))
    | faults =>
        let w1 := set_db_faults (tl faults) w in
        match exec w1 with
        | (Return a, w2) => (Return a, logged e true w2)
        | (Throw, w2) => (Throw, logged e false w2)
        end
    end.

(** [await transporter.sendMail(m)] *)
Definition sendMail (m : mail) : M unit :=
  fun w =>
    match mail_faults w with
    | true :: rest => (Throw, logged (SendMail m) false (set_mail_faults rest w))
    | faults => (Return tt, logged (SendMail m) true (set_mail_faults (tl faults) w))
    end.

(* ===================================================================== *)
(** * The statements of the source *)
(* ===================================================================== *)

Definition email_is (e : string) (r : Users.row) : bool :=
  String.eqb (Users.email r) e.

(** [SELECT ... FROM users WHERE email = $1]; a comparison with NULL
    selects nothing. *)
Definition users_where_email (e : option string) (w : World) : list Users.row :=
  match e with
  | Some s => filter (email_is s) (users w)
  | None => []
  end.

Definition select_users_by_email (e : option string) : M (list Users.row) :=
  pool_query (SelectUsersByEmail e)
             (fun w => (Return (users_where_email e w), w)).

(** [INSERT INTO users (name, email, password_hash) VALUES ($1, $2, $3)
    RETURNING id, name, email]: [id] comes from the serial counter, the reset
    columns take their default NULL; a NULL name or email and a duplicate
    email violate the constraints of the table. *)
Definition insert_user (n e : option string) (h : string) : M Users.row :=
  pool_query (InsertUser n e h)
    (fun w =>
       match n, e with
       | Some n', Some e' =>
           let w1 := set_users_seq (users_seq w + 1) w in
           if existsb (email_is e') (users w) then (Throw, w1)
           else
             let r := Users.mk (users_seq w) n' e' h None None in
             (Return r, set_users (fun us => (us ++ [r])%list) w1)
       | _, _ => (Throw, w)
       end).

Definition set_reset (code : string) (expires : Z) (uid : Z) (r : Users.row)
  : Users.row :=
  if Users.id r =? uid
  then Users.mk (Users.id r) (Users.name r) (Users.email r)
                (Users.password_hash r) (Some code) (Some expires)
  else r.

(** [UPDATE users SET reset_token = $1, reset_expires = $2 WHERE id = $3] *)
Definition update_user_reset (code : string) (expires : Z) (uid : Z) : M unit :=
  pool_query (UpdateUserReset code expires uid)
    (fun w => (Return tt, set_users (map (set_reset code expires uid)) w)).

Definition set_password (h : string) (uid : Z) (r : Users.row) : Users.row :=
  if Users.id r =? uid
  then Users.mk (Users.id r) (Users.name r) (Users.email r) h None None
  else r.

(** [UPDATE users SET password_hash = $1, reset_token = NULL,
    reset_expires = NULL WHERE id = $2] *)
Definition update_user_password (h : string) (uid : Z) : M unit :=
  pool_query (UpdateUserPassword h uid)
    (fun w => (Return tt, set_users (map (set_password h uid)) w)).

(** [a = b] on nullable text in a [WHERE]: never true on NULL. *)
Definition sql_text_eq (a b : option string) : bool :=
  match a, b with
  | Some x, Some y => String.eqb x y
  | _, _ => false
  end.

Definition stats_of (uid : Z) (gt : option string) (r : GameStats.row) : bool :=
  (GameStats.user_id r =? uid) && sql_text_eq (GameStats.game_type r) gt.

(** [SELECT * FROM game_stats WHERE user_id = $1 AND game_type = $2] *)
Definition select_game_stats (uid : Z) (gt : option string)
  : M (list GameStats.row) :=
  pool_query (SelectGameStats uid gt)
    (fun w => (Return (filter (stats_of uid gt) (game_stats w)), w)).

(** [INSERT INTO game_stats (user_id, game_type, total_hours, high_score,
    total_score) VALUES ($1, $2, $3, $4, $5)] *)
Definition insert_game_stats (uid : Z) (gt : option string)
    (hours : float) (high total : Z) : M unit :=
  pool_query (InsertGameStats uid gt hours high total)
    (fun w =>
       let r := GameStats.mk (game_stats_seq w) uid gt hours high total in
       (Return tt,
        set_game_stats (fun gs => (gs ++ [r])%list)
                       (set_game_stats_seq (game_stats_seq w + 1) w))).

Definition set_stats (hours : float) (total high : Z) (sid : Z)
    (r : GameStats.row) : GameStats.row :=
  if GameStats.id r =? sid
  then GameStats.mk (GameStats.id r) (GameStats.user_id r)
                    (GameStats.game_type r) hours high total
  else r.

(** [UPDATE game_stats SET total_hours = $1, total_score = $2,
    high_score = $3 WHERE id = $4] *)
Definition update_game_stats (hours : float) (total high : Z) (sid : Z)
  : M unit :=
  pool_query (UpdateGameStats hours total high sid)
    (fun w => (Return tt, set_game_stats (map (set_stats hours total high sid)) w)).

(** A row of the ranking query: [u.name, gs.high_score]. *)
Record ranking_row : Type := { rk_name : string; rk_high_score : Z }.

(** [FROM game_stats gs JOIN users u ON gs.user_id = u.id
    WHERE gs.game_type = $1] *)
Definition ranking_join (game : string) (w : World) : list ranking_row :=
  flat_map
    (fun gs =>
       map (fun u => {| rk_name := Users.name u;
                        rk_high_score := GameStats.high_score gs |})
           (filter (fun u => GameStats.user_id gs =? Users.id u) (users w)))
    (filter (fun gs => sql_text_eq (GameStats.game_type gs) (Some game))
            (game_stats w)).

(** [ORDER BY gs.high_score DESC]: insertion into a list sorted by
    decreasing score (rows with equal scores keep their order, one of the
    orders the store may choose). *)
Fixpoint insert_desc (r : ranking_row) (l : list ranking_row) : list ranking_row :=
  match l with
  | [] => [r]
  | x :: l' =>
      if rk_high_score x <=? rk_high_score r then r :: l
      else x :: insert_desc r l'
  end.

Definition order_by_high_score_desc (l : list ranking_row) : list ranking_row :=
  fold_right insert_desc [] l.

(** The ranking query, with its [LIMIT 1]. *)
Definition select_ranking (game : string) : M (list ranking_row) :=
  pool_query (SelectRanking game)
    (fun w => (Return (firstn 1 (order_by_high_score_desc (ranking_join game w))), w)).

(* ===================================================================== *)
(** * Helper functions of the source *)
(* ===================================================================== *)

Definition json_response (st : Z) (b : json) : response :=
  {| status := st; body := b |}.

(** [{ msg: m }] *)
Definition msg (m : string) : json := JObject [("msg", JV (JStr m))].

(** [{ id: user.id, name: user.name, email: user.email }] *)
Definition public_user (u : Users.row) : json :=
  JObject [("id", JV (JNum (Users.id u)));
           ("name", JV (JStr (Users.name u)));
           ("email", JV (JStr (Users.email u)))].

Definition configured (v : option string) : option string :=
  match v with
  | Some s => if String.eqb s "" then None else Some s
  | None => None
  end.

(** Seconds since the epoch, as [jsonwebtoken] reads the clock. *)
Definition seconds (ms : Z) : Z := ms / 1000.

Definition one_day : Z := 86400.

(** [generateToken(user)]: [jwt.sign] raises when the secret is missing. *)
Definition generateToken (cfg : Config) (env : Env) (user : Users.row) : M string :=
  match configured (JWT_SECRET cfg) with
  | Some secret =>
      ret (jwt_sign (Users.id user) (Users.email user) secret
                    (seconds (now env)) one_day)
  | None => throw
  end.

(** [generateResetCode()], given the value of [Math.random()]. *)
Definition generateResetCode (r : Double.t) : string :=
  toString
    (Double.floor
       (Double.add (Double.of_int 100000)
                   (Double.mul r (Double.of_int 900000)))).

(** [await bcrypt.hash(data, rounds)]: rejects data that is not a string. *)
Definition bcrypt_hash_js (data : prim) (rounds : Z) (s : string) : M string :=
  match data with
  | JStr d => ret (bcrypt_hash d rounds s)
  | _ => throw
  end.

(** [await bcrypt.compare(data, hash)]: rejects data that is not a string. *)
Definition bcrypt_compare_js (data : prim) (h : string) : M bool :=
  match data with
  | JStr d => ret (bcrypt_compare d h)
  | _ => throw
  end.

(** [new Date(c)] for a timestamp column [c], as milliseconds since the
    epoch: [new Date(null)] is the epoch itself. *)
Definition date_of (c : option Z) : Z :=
  match c with
  | Some t => t
  | None => 0
  end.

(** [authHeader && authHeader.split(' ')[1]] *)
Definition bearer_token (authHeader : option string) : option string :=
  match authHeader with
  | None => None
  | Some h => if String.eqb h "" then Some "" else nth_error (split " " h) 1
  end.

(** The authentication middleware: answers itself, or calls [next] with
    [req.user] set to the decoded claims. *)
Definition authenticateToken (cfg : Config) (env : Env) (req : request)
    (next : Claims.t -> M response) : M response :=
  match bearer_token (authorization req) with
  | None => ret (json_response 401 (msg "Acesso negado."))
  | Some token =>
      if String.eqb token "" then ret (json_response 401 (msg "Acesso negado."))
      else
        match jwt_verify token (JWT_SECRET cfg) (seconds (now env)) with
        | inr _ => ret (json_response 403 (msg "Token inválido."))
        | inl user => next user
        end
  end.

(* ===================================================================== *)
(** * The routes *)
(* ===================================================================== *)

Definition nl : string := String (ascii_of_nat 10) EmptyString.

(** [POST /auth/register] *)
Definition register (env : Env) (req : request) : M response :=
  let name := req_body req "name" in
  let email := req_body req "email" in
  let password := req_body req "password" in
  if negb (truthy name) || negb (truthy email) || negb (truthy password) then
    ret (json_response 400 (msg "Preencha todos os campos."))
  else
    try_catch
      (existing <- select_users_by_email (pg_text email) ;;
       if 0 <? Z.of_nat (List.length existing) then
         ret (json_response 400 (msg "Email já cadastrado."))
       else
         hash <- bcrypt_hash_js password 10 (salt env) ;;
         row <- insert_user (pg_text name) (pg_text email) hash ;;
         ret (json_response 201
                (JObject [("msg", JV (JStr "Conta criada com sucesso."));
                          ("user", public_user row)])))
      (ret (json_response 500 (msg "Erro no servidor."))).

(** [POST /auth/login] *)
Definition login (cfg : Config) (env : Env) (req : request) : M response :=
  let email := req_body req "email" in
  let password := req_body req "password" in
  if negb (truthy email) || negb (truthy password) then
    ret (json_response 400 (msg "Preencha todos os campos."))
  else
    try_catch
      (result <- select_users_by_email (pg_text email) ;;
       match result with
       | [] => ret (json_response 400 (msg "Credenciais incorretas."))
       | user :: _ =>
           ok <- bcrypt_compare_js password (Users.password_hash user) ;;
           if negb ok then ret (json_response 400 (msg "Credenciais incorretas."))
           else
             token <- generateToken cfg env user ;;
             ret (json_response 200
                    (JObject [("token", JV (JStr token));
                              ("user", public_user user)]))
       end)
      (ret (json_response 500 (msg "Erro no servidor."))).

(** [POST /auth/forgot-password] *)
Definition forgot_password (cfg : Config) (env : Env) (req : request)
  : M response :=
  let email := req_body req "email" in
  if negb (truthy email) then
    ret (json_response 400 (msg "Informe o email."))
  else
    try_catch
      (result <- select_users_by_email (pg_text email) ;;
       match result with
       | [] => ret (json_response 400 (msg "Email não encontrado."))
       | user :: _ =>
           let code := generateResetCode (random env) in
           let expires := now env + 15 * 60 * 1000 in
           u1 <- update_user_reset code expires (Users.id user) ;;
           u2 <- sendMail
                   {| mail_from := MAIL_FROM cfg;
                      mail_to := email;
                      mail_subject := "Redefinição de senha - Prof Smart";
                      mail_text :=
                        "Olá, " ++ Users.name user ++ "!" ++ nl ++ nl
                        ++ "Seu código: " ++ code ++ nl ++ nl
                        ++ "Válido por 15 minutos." |} ;;
           ret (json_response 200 (msg "Código enviado para o email."))
       end)
      (ret (json_response 500 (msg "Erro ao enviar email."))).

(** [POST /auth/reset-password] *)
Definition reset_password (env : Env) (req : request) : M response :=
  let email := req_body req "email" in
  let token := req_body req "token" in
  let newPassword := req_body req "newPassword" in
  if negb (truthy email) || negb (truthy token) || negb (truthy newPassword) then
    ret (json_response 400 (msg "Dados incompletos."))
  else if js_lt_num (length_of newPassword) 6 then
    ret (json_response 400 (msg "Senha curta demais."))
  else
    try_catch
      (result <- select_users_by_email (pg_text email) ;;
       match result with
       | [] => ret (json_response 400 (msg "Usuário não encontrado."))
       | user :: _ =>
           if strict_neq token (Users.reset_token user) then
             ret (json_response 400 (msg "Código inválido."))
           else if date_of (Users.reset_expires user) <? now env then
             ret (json_response 400 (msg "Código expirado."))
           else
             newHash <- bcrypt_hash_js newPassword 10 (salt env) ;;
             u <- update_user_password newHash (Users.id user) ;;
             ret (json_response 200 (msg "Senha alterada com sucesso."))
       end)
      (ret (json_response 500 (msg "Erro no servidor."))).

(** [POST /stats/update], behind [authenticateToken].  The sum and the
    comparison of scores are those of the integers, which are those of
    JavaScript while the numbers are safe integers. *)
Definition stats_update (req : request) (user : Claims.t) : M response :=
  let gameType := req_body req "gameType" in
  let score := req_body req "score" in
  let duration := req_body req "duration" in
  let userId := Claims.id user in
  let numScore := parseInt_or_0 score in
  let numDuration := parseFloat_or_0 duration in
  try_catch
    (check <- select_game_stats userId (pg_text gameType) ;;
     u <- match check with
          | [] =>
              insert_game_stats userId (pg_text gameType)
                                numDuration numScore numScore
          | current :: _ =>
              let newTotalHours :=
                float_add (parseFloat_column (GameStats.total_hours current))
                          numDuration in
              let newTotalScore := GameStats.total_score current + numScore in
              let newHighScore :=
                if GameStats.high_score current <? numScore then numScore
                else GameStats.high_score current in
              update_game_stats newTotalHours newTotalScore newHighScore
                                (GameStats.id current)
          end ;;
     ret (json_response 200 (msg "Stats updated")))
    (ret (json_response 500 (msg "Erro ao salvar stats."))).

Definition games : list string :=
  ["matematica"; "computacao"; "portugues"; "historia"].

(** The property names every object inherits from [Object.prototype]. *)
Definition object_prototype_names : list string :=
  ["constructor"; "__defineGetter__"; "__defineSetter__"; "hasOwnProperty";
   "__lookupGetter__"; "__lookupSetter__"; "isPrototypeOf";
   "propertyIsEnumerable"; "toString"; "valueOf"; "__proto__";
   "toLocaleString"].

Definition has_own (obj : list (string * json)) (key : string) : bool :=
  existsb (fun kv => String.eqb (fst kv) key) obj.

(** [obj[key] !== undefined], for an object whose own properties hold
    numbers. *)
Definition is_defined (obj : list (string * json)) (key : string) : bool :=
  has_own obj key || existsb (String.eqb key) object_prototype_names.

(** [obj[key] = v] for a number [v]: an own property is overwritten, the
    setter of [__proto__] ignores a number, any other key becomes a new own
    property. *)
Definition assign (obj : list (string * json)) (key : string) (v : json)
  : list (string * json) :=
  if has_own obj key then
    map (fun kv => if String.eqb (fst kv) key then (fst kv, v) else kv) obj
  else if String.eqb key "__proto__" then obj
  else (obj ++ [(key, v)])%list.

Record stats : Type := {
  scores : list (string * json);
  highScores : list (string * json);
  hours : list (string * json)
}.

Definition zeros : list (string * json) :=
  map (fun g => (g, JV (JNum 0))) games.

(** The body of the [forEach] of [/stats/me]. *)
Definition stats_row (st : stats) (row : GameStats.row) : stats :=
  let type :=
    match GameStats.game_type row with
    | Some s => s
    | None => "null"
    end in
  if is_defined (scores st) type then
    {| scores := assign (scores st) type (JV (JNum (GameStats.total_score row)));
       highScores :=
         assign (highScores st) type (JV (JNum (GameStats.high_score row)));
       hours :=
         assign (hours st) type
                (float_json (parseFloat_column (GameStats.total_hours row))) |}
  else st.

(** [SELECT game_type, total_hours, high_score, total_score FROM game_stats
    WHERE user_id = $1] *)
Definition select_game_stats_of_user (uid : Z) : M (list GameStats.row) :=
  pool_query (SelectGameStatsOfUser uid)
    (fun w => (Return (filter (fun r => GameStats.user_id r =? uid)
                              (game_stats w)), w)).

(** [GET /stats/me], behind [authenticateToken] *)
Definition stats_me (req : request) (user : Claims.t) : M response :=
  let userId := Claims.id user in
  try_catch
    (result <- select_game_stats_of_user userId ;;
     let st :=
       fold_left stats_row result
                 {| scores := zeros; highScores := zeros; hours := zeros |} in
     ret (json_response 200
            (JObject [("scores", JObject (scores st));
                      ("highScores", JObject (highScores st));
                      ("hours", JObject (hours st))])))
    (ret (json_response 500 (msg "Erro ao buscar perfil."))).

Definition ranking_entry (rows : list ranking_row) : json :=
  match rows with
  | r :: _ => JObject [("name", JV (JStr (rk_name r)));
                       ("high_score", JV (JNum (rk_high_score r)))]
  | [] => JObject [("name", JV (JStr "---")); ("high_score", JV (JNum 0))]
  end.

(** The [for (const game of games)] loop of [/stats/ranking]. *)
Fixpoint ranking_loop (gs : list string) (ranking : list (string * json))
  : M (list (string * json)) :=
  match gs with
  | [] => ret ranking
  | game :: rest =>
      result <- select_ranking game ;;
      ranking_loop rest (ranking ++ [(game, ranking_entry result)])%list
  end.

(** [GET /stats/ranking] *)
Definition stats_ranking (req : request) : M response :=
  try_catch
    (ranking <- ranking_loop games [] ;;
     ret (json_response 200 (JObject ranking)))
    (ret (json_response 500 (msg "Erro no ranking."))).

(** The application: the routes registered on [app], in order.  Every
    request carries the object that [express.json()] parsed as its body.
    Method and path are compared exactly (Express also serves the other
    spellings of a route, by letter case or with a trailing slash, and the
    preflight requests that [cors()] answers: these are not modelled).  A
    request that matches no route gets the 404 of Express, whose body is not
    modelled. *)
Definition app (cfg : Config) (env : Env) (req : request) : M response :=
  let route m p := String.eqb (method req) m && String.eqb (path req) p in
  if route "GET" "/" then
    ret (json_response 200 (JV (JStr "API online 🚀")))
  else if route "POST" "/auth/register" then register env req
  else if route "POST" "/auth/login" then login cfg env req
  else if route "POST" "/auth/forgot-password" then forgot_password cfg env req
  else if route "POST" "/auth/reset-password" then reset_password env req
  else if route "POST" "/stats/update" then
    authenticateToken cfg env req (stats_update req)
  else if route "GET" "/stats/me" then
    authenticateToken cfg env req (stats_me req)
  else if route "GET" "/stats/ranking" then stats_ranking req
  else ret (json_response 404 (JV JUndefined)).

End Server.

(* ===================================================================== *)
(** * The vocabulary of the properties *)
(* ===================================================================== *)

(** The contracts of the libraries that the properties below rely on:
    [bcrypt.compare] accepts the data a hash was made from, and [jwt.verify]
    with the signing secret returns, until the expiry, the payload that was
    signed, with its times. *)
Definition bcrypt_contract (B : BcryptLib) : Prop :=
  forall data rounds salt,
    bcrypt_compare data (bcrypt_hash data rounds salt) = true.

Definition jwt_contract (J : JwtLib) : Prop :=
  forall id email secret iat expiresIn t,
    secret <> "" ->
    t < iat + expiresIn ->
    jwt_verify (jwt_sign id email secret iat expiresIn) (Some secret) t
    = inl (Claims.mk id email iat (iat + expiresIn)).

(** The responses of the source that the properties name. *)
Definition denied : response := json_response 401 (msg "Acesso negado.").

Definition invalid : response := json_response 403 (msg "Token inválido.").

Definition bad_credentials : response :=
  json_response 400 (msg "Credenciais incorretas.").

Definition server_error : response :=
  json_response 500 (msg "Erro no servidor.").

Definition mail_error : response :=
  json_response 500 (msg "Erro ao enviar email.").

Definition code_sent : response :=
  json_response 200 (msg "Código enviado para o email.").


(** A token as it stands in a header: without a space. *)
Fixpoint no_space (s : string) : bool :=
  match s with
  | EmptyString => true
  | String c s' => negb (Ascii.eqb c " ") && no_space s'
  end.


Definition opt_string_eq (a b : option string) : bool :=
  match a, b with
  | Some x, Some y => String.eqb x y
  | None, None => true
  | _, _ => false
  end.


(** The invariant of section 3 of the specification, on one row. *)
Definition reset_pair_ok (r : Users.row) : Prop :=
  Users.reset_token r = None <-> Users.reset_expires r = None.

(** The message [forgot_password] hands to the transport. *)
Definition reset_mail (cfg : Config) (to : prim) (user : Users.row)
    (code : string) : mail :=
  {| mail_from := MAIL_FROM cfg;
     mail_to := to;
     mail_subject := "Redefinição de senha - Prof Smart";
     mail_text :=
       "Olá, " ++ Users.name user ++ "!" ++ nl ++ nl
       ++ "Seu código: " ++ code ++ nl ++ nl
       ++ "Válido por 15 minutos." |}.

(** The first row is a best one. *)
Definition head_is_best (l : list ranking_row) : Prop :=
  match l with
  | [] => True
  | x :: _ => forall y, In y l -> rk_high_score y <= rk_high_score x
  end.



Section Vocabulary.

Context {F : FloatOps} {B : BcryptLib} {J : JwtLib}.

(** The invariant on the table of users. *)
Definition reset_invariant (w : World) : Prop :=
  Forall reset_pair_ok (users w).

(** A computation keeps a property of the table of users, whether it
    returns or throws. *)
Definition preserves {A} (P : list Users.row -> Prop) (m : M A) : Prop :=
  forall w, P (users w) -> P (users (snd (m w))).

(** The world after a series of requests, each with its environment. *)
Definition serve (cfg : Config) (steps : list (Env * request)) (w : World)
  : World :=
  fold_left (fun w' step => snd (app cfg (fst step) (snd step) w')) steps w.

(** The world after a series of reset attempts with the same request, one
    per environment. *)
Definition reset_attempts (req : request) (envs : list Env) (w : World)
  : World :=
  fold_left (fun w' env => snd (reset_password env req w')) envs w.

(** What the ranking shows for one game: the placeholder when nobody has
    played it, otherwise the name and the score of a row with the highest
    score among the rows of the game. *)
Definition top_of (game : string) (w : World) (entry : json) : Prop :=
  (ranking_join game w = []
   /\ entry = JObject [("name", JV (JStr "---")); ("high_score", JV (JNum 0))])
  \/
  (exists r,
      In r (ranking_join game w)
      /\ (forall r', In r' (ranking_join game w) ->
                     rk_high_score r' <= rk_high_score r)
      /\ entry = JObject [("name", JV (JStr (rk_name r)));
                          ("high_score", JV (JNum (rk_high_score r)))]).

(** The entry of one game, as the handler computes it. *)
Definition ranking_of (game : string) (w : World) : json :=
  ranking_entry (firstn 1 (order_by_high_score_desc (ranking_join game w))).

End Vocabulary.

(* ===================================================================== *)
(** * The vocabulary of the further properties *)
(* ===================================================================== *)

(** A row without its reset columns, and who a row is. *)
Definition without_reset (r : Users.row) : Users.row :=
  Users.mk (Users.id r) (Users.name r) (Users.email r)
           (Users.password_hash r) None None.

Definition identity (r : Users.row) : Z * string * string :=
  (Users.id r, Users.name r, Users.email r).

Section Frames.

Context {F : FloatOps} {B : BcryptLib} {J : JwtLib}.

(** Two worlds with the same tables and counters (they may differ by
    their pending faults and their log). *)
Definition same_tables (w w' : World) : Prop :=
  users w = users w' /\ users_seq w = users_seq w'
  /\ game_stats w = game_stats w' /\ game_stats_seq w = game_stats_seq w'.

(** A property of the tables and counters alone. *)
Definition on_tables (P : World -> Prop) : Prop :=
  forall w w', same_tables w w' -> P w -> P w'.

(** A computation keeps a property of the world, whether it returns or
    throws. *)
Definition keeps {A} (P : World -> Prop) (m : M A) : Prop :=
  forall w, P w -> P (snd (m w)).

(** A property is closed under one of the five writes of the source. *)
Definition closed_insert_user (P : World -> Prop) : Prop :=
  (forall w, P w -> P (set_users_seq (users_seq w + 1) w))
  /\ (forall w n e h,
         P w -> existsb (email_is e) (users w) = false ->
         P (set_users
              (fun us => (us ++ [Users.mk (users_seq w) n e h None None])%list)
              (set_users_seq (users_seq w + 1) w))).

Definition closed_set_reset (P : World -> Prop) : Prop :=
  forall w code expires uid,
    P w -> P (set_users (map (set_reset code expires uid)) w).

Definition closed_set_password (P : World -> Prop) : Prop :=
  forall w h uid, P w -> P (set_users (map (set_password h uid)) w).

Definition closed_insert_stats (P : World -> Prop) : Prop :=
  forall w uid gt hours high total,
    P w ->
    P (set_game_stats
         (fun gs =>
            (gs ++ [GameStats.mk (game_stats_seq w) uid gt hours high total])%list)
         (set_game_stats_seq (game_stats_seq w + 1) w)).

Definition closed_update_stats (P : World -> Prop) : Prop :=
  forall w hours total high sid,
    P w -> P (set_game_stats (map (set_stats hours total high sid)) w).

(** No two users share an email. *)
Definition emails_unique (w : World) : Prop :=
  NoDup (map Users.email (users w)).

(** The ids of both tables are distinct and below the serial counters. *)
Definition ids_fresh (w : World) : Prop :=
  NoDup (map Users.id (users w))
  /\ Forall (fun r => Users.id r < users_seq w) (users w)
  /\ NoDup (map GameStats.id (game_stats w))
  /\ Forall (fun r => GameStats.id r < game_stats_seq w) (game_stats w).

End Frames.

Section StatsVocabulary.

Context {F : FloatOps} {B : BcryptLib} {J : JwtLib}.

(** [parseInt(score, 10) || 0] and [parseFloat(duration) || 0] of a
    request. *)
Definition numScore (req : request) : Z :=
  parseInt_or_0 (req_body req "score").

Definition numDuration (req : request) : float :=
  parseFloat_or_0 (req_body req "duration").

(** The world after a series of statistics updates of one user. *)
Definition stats_updates (user : Claims.t) (reqs : list request) (w : World)
  : World :=
  fold_left (fun w' req => snd (stats_update req user w')) reqs w.

(** The hours of a row after a series of updates. *)
Definition hours_after (reqs : list request) (h : float) : float :=
  fold_left (fun h' req => float_add (parseFloat_column h') (numDuration req))
            reqs h.

End StatsVocabulary.

(** [obj[key]] for an own property of an object. *)
Definition own_property (obj : list (string * json)) (key : string)
  : option json :=
  option_map snd (find (fun kv => String.eqb (fst kv) key) obj).

(** The last element of a list, if any. *)
Definition latest {A} (l : list A) : option A := last (map Some l) None.

(** [row.game_type] as a property name: NULL reads as ["null"]. *)
Definition type_of {F : FloatOps} (row : GameStats.row) : string :=
  match GameStats.game_type row with
  | Some s => s
  | None => "null"
  end.

Section ProfileVocabulary.

Context {F : FloatOps}.

(** The three numbers of a row as the profile shows them. *)
Definition shown (r : GameStats.row) : json * json * json :=
  (JV (JNum (GameStats.total_score r)),
   JV (JNum (GameStats.high_score r)),
   float_json (parseFloat_column (GameStats.total_hours r))).

Definition entry_of (st : stats) (g : string)
  : option json * option json * option json :=
  (own_property (scores st) g, own_property (highScores st) g,
   own_property (hours st) g).

End ProfileVocabulary.

(** The statuses that the handlers of the source set. *)
Definition statuses : list Z := [200; 201; 400; 401; 403; 500].

Section Answers.

Context {F : FloatOps} {B : BcryptLib} {J : JwtLib}.

(** Whatever a computation returns satisfies [Q]. *)
Definition returns {A} (Q : A -> Prop) (m : M A) : Prop :=
  forall w a, fst (m w) = Return a -> Q a.

(** A handler answers, with one of the statuses. *)
Definition answers (m : M response) : Prop :=
  forall w, exists resp,
    fst (m w) = Return resp /\ In (status resp) statuses.

End Answers.

(* ===================================================================== *)
(** * Reference instances of the library interfaces *)
(* ===================================================================== *)

(** The interfaces above are inhabited, and so are their contracts: a
    small self-delimiting encoding gives a hash and a token format that
    satisfy them.  They serve to run the handlers on concrete requests. *)
Module Reference.

Fixpoint enc_pos (p : positive) : string :=
  match p with
  | xH => "."
  | xO q => String "0" (enc_pos q)
  | xI q => String "1" (enc_pos q)
  end.

Definition enc_Z (z : Z) : string :=
  match z with
  | Z0 => "z"
  | Zpos p => String "+" (enc_pos p)
  | Zneg p => String "-" (enc_pos p)
  end.

Fixpoint dec_pos (s : string) : option (positive * string) :=
  match s with
  | String c r =>
      if Ascii.eqb c "." then Some (xH, r)
      else if Ascii.eqb c "0" then
        match dec_pos r with
        | Some (p, r') => Some (xO p, r')
        | None => None
        end
      else if Ascii.eqb c "1" then
        match dec_pos r with
        | Some (p, r') => Some (xI p, r')
        | None => None
        end
      else None
  | EmptyString => None
  end.

Definition dec_Z (s : string) : option (Z * string) :=
  match s with
  | String c r =>
      if Ascii.eqb c "z" then Some (0, r)
      else if Ascii.eqb c "+" then
        match dec_pos r with
        | Some (p, r') => Some (Zpos p, r')
        | None => None
        end
      else if Ascii.eqb c "-" then
        match dec_pos r with
        | Some (p, r') => Some (Zneg p, r')
        | None => None
        end
      else None
  | EmptyString => None
  end.

(** The first [n] characters and the rest. *)
Fixpoint split_at (n : nat) (s : string) : option (string * string) :=
  match n, s with
  | O, _ => Some (EmptyString, s)
  | S n', String c r =>
      match split_at n' r with
      | Some (a, b) => Some (String c a, b)
      | None => None
      end
  | S _, EmptyString => None
  end.

(** A string preceded by its length. *)
Definition enc_string (s : string) : string :=
  enc_Z (Z.of_nat (String.length s)) ++ s.

Definition dec_string (s : string) : option (string * string) :=
  match dec_Z s with
  | Some (n, r) => split_at (Z.to_nat n) r
  | None => None
  end.

Definition hash (data : string) (rounds : Z) (salt : string) : string :=
  enc_string salt ++ data.

Definition compare (data h : string) : bool :=
  match dec_string h with
  | Some (_, d) => String.eqb d data
  | None => false
  end.

Definition sign (id : Z) (email secret : string) (iat expiresIn : Z) : string :=
  enc_Z id ++ enc_Z iat ++ enc_Z (iat + expiresIn) ++ enc_string email ++ secret.

Definition verify (token : string) (secret : option string) (t : Z)
  : Claims.t + jwt_error :=
  match secret with
  | None => inr JsonWebTokenError
  | Some key =>
      match dec_Z token with
      | Some (id, r1) =>
          match dec_Z r1 with
          | Some (iat, r2) =>
              match dec_Z r2 with
              | Some (exp, r3) =>
                  match dec_string r3 with
                  | Some (email, sig) =>
                      if negb (String.eqb sig key) then inr JsonWebTokenError
                      else if exp <=? t then inr TokenExpiredError
                      else inl (Claims.mk id email iat exp)
                  | None => inr JsonWebTokenError
                  end
              | None => inr JsonWebTokenError
              end
          | None => inr JsonWebTokenError
          end
      | None => inr JsonWebTokenError
      end
  end.

End Reference.

(** Numbers with a fractional part, for the reference runs: integers. *)
Definition reference_float : FloatOps := {|
  float := Z;
  parseFloat_or_0 := parseInt_or_0;
  parseFloat_column := fun z => z;
  float_add := Z.add;
  float_json := fun z => JV (JNum z)
|}.

Definition reference_bcrypt : BcryptLib := {|
  bcrypt_hash := Reference.hash;
  bcrypt_compare := Reference.compare
|}.

Definition reference_jwt : JwtLib := {|
  jwt_sign := Reference.sign;
  jwt_verify := Reference.verify
|}.

(* ===================================================================== *)
(** * Concrete requests and worlds *)
(* ===================================================================== *)

(** The runs below use the reference instances. *)
Module Run.

Definition F := reference_float.
Definition B := reference_bcrypt.
Definition J := reference_jwt.

(** [req.body] of a parsed JSON object. *)
Fixpoint fields (l : list (string * prim)) (key : string) : prim :=
  match l with
  | [] => JUndefined
  | (k, v) :: l' => if String.eqb k key then v else fields l' key
  end.

Definition post (p : string) (auth : option string) (l : list (string * prim))
  : request :=
  {| method := "POST"; path := p; authorization := auth; req_body := fields l |}.

Definition get (p : string) (auth : option string) : request :=
  {| method := "GET"; path := p; authorization := auth; req_body := fields [] |}.

Definition cfg : Config :=
  {| JWT_SECRET := Some "s3cr3t"; MAIL_FROM := Some "no-reply@profsmart" |}.

(** One second after the epoch, [Math.random()] = 0.5. *)
Definition env : Env :=
  {| now := 1000; random := Double.mk (2 ^ 52) (-53); salt := "NaCl" |}.

(** Sixteen minutes later. *)
Definition env_late : Env :=
  {| now := 1000 + 16 * 60 * 1000; random := Double.mk 1 (-2); salt := "KCl" |}.

Definition empty : @World F :=
  {| users := []; users_seq := 1; game_stats := []; game_stats_seq := 1;
     db_faults := []; mail_faults := []; log := [] |}.

Definition ana : Users.row :=
  Users.mk 1 "Ana" "ana@x.com" (Reference.hash "secret1" 10 "NaCl") None None.

(** Ana is registered and has asked for a reset code at time 1000. *)
Definition ana_pending : Users.row :=
  Users.mk 1 "Ana" "ana@x.com" (Reference.hash "secret1" 10 "NaCl")
           (Some "550000") (Some 901000).

Definition with_users (us : list Users.row) : @World F :=
  {| users := us; users_seq := 2; game_stats := []; game_stats_seq := 1;
     db_faults := []; mail_faults := []; log := [] |}.

Definition with_stats (us : list Users.row) (gs : list (@GameStats.row F))
  : @World F :=
  {| users := us; users_seq := 3; game_stats := gs; game_stats_seq := 10;
     db_faults := []; mail_faults := []; log := [] |}.

End Run.

(* ===================================================================== *)
(** * Facts about strings and JavaScript values *)
(* ===================================================================== *)

Lemma split_no_space (s : string) :
  no_space s = true -> split " " s = [s].
Proof.
  induction s as [ | c s IH]; simpl; intros Hs; [reflexivity | ].
  apply andb_prop in Hs. destruct Hs as [Hc Hs].
  apply negb_true_iff in Hc. rewrite Hc, (IH Hs). reflexivity.
Qed.

Lemma split_app_sep (a b : string) :
  no_space a = true ->
  split " " (a ++ String " " b) = a :: split " " b.
Proof.
  induction a as [ | c a IH]; simpl; intros Ha; [reflexivity | ].
  apply andb_prop in Ha. destruct Ha as [Hc Ha].
  apply negb_true_iff in Hc. rewrite Hc, (IH Ha). reflexivity.
Qed.

Lemma bearer_token_scheme (token : string) :
  no_space token = true ->
  bearer_token (Some ("Bearer " ++ token)) = Some token.
Proof.
  intros Ht. unfold bearer_token.
  change ("Bearer " ++ token) with ("Bearer" ++ String " " token).
  replace (String.eqb ("Bearer" ++ String " " token) "") with false
    by reflexivity.
  rewrite split_app_sep by reflexivity.
  rewrite (split_no_space _ Ht). reflexivity.
Qed.

Lemma truthy_JStr (s : string) : truthy (JStr s) = true <-> s <> "".
Proof.
  simpl. rewrite negb_true_iff. split.
  - intros H E. apply String.eqb_eq in E. congruence.
  - intros H. apply String.eqb_neq. exact H.
Qed.

(* ===================================================================== *)
(** * The reference instances satisfy the contracts *)
(* ===================================================================== *)

Module ReferenceFacts.
Import Reference.

Lemma dec_enc_pos (p : positive) (r : string) :
  dec_pos (enc_pos p ++ r) = Some (p, r).
Proof.
  induction p as [q IH | q IH | ]; simpl.
  - rewrite IH. reflexivity.
  - rewrite IH. reflexivity.
  - reflexivity.
Qed.

Lemma dec_enc_Z (z : Z) (r : string) :
  dec_Z (enc_Z z ++ r) = Some (z, r).
Proof.
  destruct z as [ | p | p]; simpl; try reflexivity;
    rewrite dec_enc_pos; reflexivity.
Qed.

Lemma split_at_length (s r : string) :
  split_at (String.length s) (s ++ r) = Some (s, r).
Proof.
  induction s as [ | c s IH]; simpl.
  - destruct r; reflexivity.
  - rewrite IH. reflexivity.
Qed.

Lemma append_assoc (a b c : string) : (a ++ b) ++ c = a ++ (b ++ c).
Proof.
  induction a as [ | x a IH]; simpl; [reflexivity | now rewrite IH].
Qed.

Lemma dec_enc_string (s r : string) :
  dec_string (enc_string s ++ r) = Some (s, r).
Proof.
  unfold dec_string, enc_string.
  rewrite append_assoc, dec_enc_Z, Nat2Z.id.
  apply split_at_length.
Qed.

Lemma compare_hash (data : string) (rounds : Z) (salt : string) :
  compare data (hash data rounds salt) = true.
Proof.
  unfold compare, hash. rewrite dec_enc_string. apply String.eqb_refl.
Qed.

Lemma verify_sign_parse (id : Z) (email secret : string) (iat life t : Z) :
  verify (sign id email secret iat life) (Some secret) t
  = if iat + life <=? t then inr TokenExpiredError
    else inl (Claims.mk id email iat (iat + life)).
Proof.
  unfold verify, sign.
  rewrite !dec_enc_Z, dec_enc_string, String.eqb_refl. reflexivity.
Qed.

Lemma verify_sign (id : Z) (email secret : string) (iat life t : Z) :
  secret <> "" ->
  t < iat + life ->
  verify (sign id email secret iat life) (Some secret) t
  = inl (Claims.mk id email iat (iat + life)).
Proof.
  intros _ Hlt. rewrite verify_sign_parse.
  destruct (Z.leb_spec (iat + life) t); [lia | reflexivity].
Qed.

End ReferenceFacts.

Lemma reference_bcrypt_contract : bcrypt_contract reference_bcrypt.
Proof. intros data rounds salt. apply ReferenceFacts.compare_hash. Qed.

Lemma reference_jwt_contract : jwt_contract reference_jwt.
Proof.
  intros id email secret iat expiresIn t Hs Ht.
  apply ReferenceFacts.verify_sign; assumption.
Qed.

(* ===================================================================== *)
(** * The token gate *)
(* ===================================================================== *)

Section Gate.

Context {F : FloatOps} {B : BcryptLib} {J : JwtLib}.

(** C8.  The middleware answers 401 when the request carries no bearer
    token (no [Authorization] header, or an empty token after the scheme),
    answers 403 when [jwt.verify] rejects the token (bad format or signature,
    or expired), and calls the protected handler only with the claims of a
    token that [jwt.verify] accepted; in the first two cases the handler is
    not run at all (the result does not depend on it and the world is left
    as it was). *)
Theorem authenticateToken_gate (cfg : Config) (env : Env) (req : request)
    (w : World) :
  (authorization req = None ->
   forall next, authenticateToken cfg env req next w = (Return denied, w))
  /\
  (forall token,
      authorization req = Some ("Bearer " ++ token) ->
      no_space token = true ->
      (token = "" ->
       forall next, authenticateToken cfg env req next w = (Return denied, w))
      /\
      (token <> "" ->
       forall e,
         jwt_verify token (JWT_SECRET cfg) (seconds (now env)) = inr e ->
         forall next, authenticateToken cfg env req next w = (Return invalid, w))
      /\
      (token <> "" ->
       forall user,
         jwt_verify token (JWT_SECRET cfg) (seconds (now env)) = inl user ->
         forall next, authenticateToken cfg env req next w = next user w))
  /\
  ((forall next, authenticateToken cfg env req next w = (Return denied, w))
   \/ (forall next, authenticateToken cfg env req next w = (Return invalid, w))
   \/ (exists token user,
          bearer_token (authorization req) = Some token
          /\ token <> ""
          /\ jwt_verify token (JWT_SECRET cfg) (seconds (now env)) = inl user
          /\ forall next, authenticateToken cfg env req next w = next user w)).
Proof.
  unfold authenticateToken. split; [ | split].
  - intros Hnone next. rewrite Hnone. reflexivity.
  - intros token Hauth Hsp. rewrite Hauth, (bearer_token_scheme _ Hsp).
    split; [ | split].
    + intros -> next. reflexivity.
    + intros Hne e Hv next.
      apply String.eqb_neq in Hne. rewrite Hne, Hv. reflexivity.
    + intros Hne user Hv next.
      apply String.eqb_neq in Hne. rewrite Hne, Hv. reflexivity.
  - destruct (bearer_token (authorization req)) as [token | ] eqn:Htok.
    + destruct (String.eqb token "") eqn:Hempty.
      * left. intros next. reflexivity.
      * destruct (jwt_verify token (JWT_SECRET cfg) (seconds (now env)))
          as [user | e] eqn:Hv.
        -- right. right. exists token, user.
           apply String.eqb_neq in Hempty.
           repeat split; try assumption. 
        -- right. left. intros next. reflexivity.
    + left. intros next. reflexivity.
Qed.

End Gate.

Lemma authenticateToken_gate_witness :
  let token := Reference.sign 1 "ana@x.com" "s3cr3t" 1 86400 in
  let req := Run.get "/stats/me" (Some ("Bearer " ++ token)) in
  authenticateToken (J := Run.J) Run.cfg Run.env req (stats_me req) Run.empty
  = stats_me (F := Run.F) req (Claims.mk 1 "ana@x.com" 1 86401) Run.empty.
Proof.
  intros token req.
  destruct (authenticateToken_gate (J := Run.J) Run.cfg Run.env req Run.empty)
    as [_ [Hbearer _]].
  destruct (Hbearer token eq_refl eq_refl) as [_ [_ Hvalid]].
  apply Hvalid; [discriminate | reflexivity].
Defined.

(* ===================================================================== *)
(** * Password reset: the chain of preconditions *)
(* ===================================================================== *)

Section Reset.

Context {F : FloatOps} {B : BcryptLib} {J : JwtLib}.

Lemma set_db_faults_same (w : World) (l : list bool) :
  db_faults w = l -> set_db_faults l w = w.
Proof. destruct w; simpl; intros <-; reflexivity. Qed.

Lemma strict_neq_field (c : string) (o : option string) :
  strict_neq (JStr c) o = negb (opt_string_eq o (Some c)).
Proof.
  destruct o as [t | ]; simpl; [ | reflexivity].
  rewrite String.eqb_sym. reflexivity.
Qed.

Lemma length_lt_6 (p : string) :
  js_lt_num (length_of (JStr p)) 6 = (String.length p <? 6)%nat.
Proof.
  simpl. destruct (Nat.ltb_spec (String.length p) 6);
    destruct (Z.ltb_spec (Z.of_nat (String.length p)) 6); try reflexivity; lia.
Qed.

Lemma bind_Return {A C} (m : M A) (k : A -> M C) (w w' : World) (a : A) :
  m w = (Return a, w') -> bind m k w = k a w'.
Proof. unfold bind. intros ->. reflexivity. Qed.

Lemma bind_Throw {A C} (m : M A) (k : A -> M C) (w w' : World) :
  m w = (Throw, w') -> bind m k w = (Throw, w').
Proof. unfold bind. intros ->. reflexivity. Qed.

Lemma try_catch_Return {A} (m h : M A) (w w' : World) (a : A) :
  m w = (Return a, w') -> try_catch m h w = (Return a, w').
Proof. unfold try_catch. intros ->. reflexivity. Qed.

Lemma try_catch_Throw {A} (m h : M A) (w w' : World) :
  m w = (Throw, w') -> try_catch m h w = h w'.
Proof. unfold try_catch. intros ->. reflexivity. Qed.

(** A statement that meets no fault runs [exec]. *)
Lemma pool_query_up {A} (e : effect) (exec : World -> outcome A * World)
    (w : World) :
  db_faults w = [] ->
  pool_query e exec w
  = match exec w with
    | (Return a, w2) => (Return a, logged e true w2)
    | (Throw, w2) => (Throw, logged e false w2)
    end.
Proof.
  intros Hdb. unfold pool_query. rewrite Hdb. simpl.
  rewrite (set_db_faults_same w []) by exact Hdb. reflexivity.
Qed.

Lemma select_users_up (e : option string) (w : World) :
  db_faults w = [] ->
  select_users_by_email e w
  = (Return (users_where_email e w), logged (SelectUsersByEmail e) true w).
Proof.
  intros Hdb. unfold select_users_by_email. rewrite pool_query_up by exact Hdb.
  reflexivity.
Qed.

Lemma update_user_password_up (h : string) (uid : Z) (w : World) :
  db_faults w = [] ->
  update_user_password h uid w
  = (Return tt,
     logged (UpdateUserPassword h uid) true
            (set_users (map (set_password h uid)) w)).
Proof.
  intros Hdb. unfold update_user_password. rewrite pool_query_up by exact Hdb.
  reflexivity.
Qed.

Lemma update_user_reset_up (code : string) (expires uid : Z) (w : World) :
  db_faults w = [] ->
  update_user_reset code expires uid w
  = (Return tt,
     logged (UpdateUserReset code expires uid) true
            (set_users (map (set_reset code expires uid)) w)).
Proof.
  intros Hdb. unfold update_user_reset. rewrite pool_query_up by exact Hdb.
  reflexivity.
Qed.

(** What [reset_password] does once the fields passed validation and the
    store answers. *)
Lemma reset_password_valid (env : Env) (req : request) (w : World)
    (e c p : string) :
  req_body req "email" = JStr e ->
  req_body req "token" = JStr c ->
  req_body req "newPassword" = JStr p ->
  e <> "" -> c <> "" -> p <> "" ->
  (6 <= String.length p)%nat ->
  db_faults w = [] ->
  reset_password env req w
  = let w1 := logged (SelectUsersByEmail (Some e)) true w in
    match users_where_email (Some e) w with
    | [] => (Return (json_response 400 (msg "Usuário não encontrado.")), w1)
    | u :: _ =>
        if negb (opt_string_eq (Users.reset_token u) (Some c)) then
          (Return (json_response 400 (msg "Código inválido.")), w1)
        else if date_of (Users.reset_expires u) <? now env then
          (Return (json_response 400 (msg "Código expirado.")), w1)
        else
          let h := bcrypt_hash p 10 (salt env) in
          (Return (json_response 200 (msg "Senha alterada com sucesso.")),
           logged (UpdateUserPassword h (Users.id u)) true
                  (set_users (map (set_password h (Users.id u))) w1))
    end.
Proof.
  intros He Hc Hp Hne Hnc Hnp Hlen Hdb.
  unfold reset_password. rewrite He, Hc, Hp.
  rewrite (proj2 (truthy_JStr e) Hne), (proj2 (truthy_JStr c) Hnc),
    (proj2 (truthy_JStr p) Hnp).
  cbn [negb orb]. rewrite length_lt_6.
  destruct (Nat.ltb_spec (String.length p) 6) as [Hlt | _]; [lia | ].
  cbv zeta.
  destruct (users_where_email (Some e) w) as [ | u rest] eqn:Hsel.
  - apply try_catch_Return.
    erewrite bind_Return by (apply select_users_up; exact Hdb).
    cbn [pg_text]. rewrite Hsel. reflexivity.
  - rewrite <- strict_neq_field.
    destruct (strict_neq (JStr c) (Users.reset_token u)) eqn:Hneq.
    + apply try_catch_Return.
      erewrite bind_Return by (apply select_users_up; exact Hdb).
      cbn [pg_text]. rewrite Hsel, Hneq. reflexivity.
    + destruct (date_of (Users.reset_expires u) <? now env) eqn:Hexp.
      * apply try_catch_Return.
        erewrite bind_Return by (apply select_users_up; exact Hdb).
        cbn [pg_text]. rewrite Hsel, Hneq, Hexp. reflexivity.
      * apply try_catch_Return.
        erewrite bind_Return by (apply select_users_up; exact Hdb).
        cbn [pg_text]. rewrite Hsel, Hneq, Hexp.
        erewrite bind_Return by reflexivity.
        erewrite bind_Return by (apply update_user_password_up; exact Hdb).
        reflexivity.
Qed.

(** [reset_password] always answers, and an answer other than 200 leaves
    the table of users as it was, whatever the request and whatever the
    store does. *)
Lemma reset_password_failure_keeps_users (env : Env) (req : request)
    (w : World) :
  exists resp,
    fst (reset_password env req w) = Return resp
    /\ (status resp <> 200 -> users (snd (reset_password env req w)) = users w).
Proof.
  unfold reset_password.
  destruct (negb (truthy (req_body req "email"))
            || negb (truthy (req_body req "token"))
            || negb (truthy (req_body req "newPassword"))).
  { eexists. split; [reflexivity | reflexivity]. }
  destruct (js_lt_num (length_of (req_body req "newPassword")) 6).
  { eexists. split; [reflexivity | reflexivity]. }
  destruct w as [us useq gs gseq dbf mf lg].
  unfold try_catch, bind, select_users_by_email, update_user_password,
    pool_query, bcrypt_hash_js, ret, throw.
  destruct dbf as [ | [ | ] dbf]; cbn;
    try (eexists; split; [reflexivity | reflexivity]).
  all: destruct (users_where_email (pg_text (req_body req "email")) _)
         as [ | u rest]; cbn;
       try (eexists; split; [reflexivity | reflexivity]).
  all: destruct (strict_neq (req_body req "token") (Users.reset_token u)); cbn;
       try (eexists; split; [reflexivity | reflexivity]).
  all: destruct (date_of (Users.reset_expires u) <? now env); cbn;
       try (eexists; split; [reflexivity | reflexivity]).
  all: destruct (req_body req "newPassword"); cbn;
       try (eexists; split; [reflexivity | reflexivity]).
  all: try (destruct dbf as [ | [ | ] dbf]; cbn).
  all: eexists; split; [reflexivity | cbn; intros Hst; try reflexivity; congruence].
Qed.

Lemma opt_string_eq_true (a b : option string) :
  opt_string_eq a b = true <-> a = b.
Proof.
  destruct a as [x | ], b as [y | ]; simpl; split; intros H;
    try discriminate; try reflexivity.
  - apply String.eqb_eq in H. congruence.
  - inversion H. apply String.eqb_refl.
Qed.

Lemma opt_string_eq_false (a b : option string) :
  opt_string_eq a b = false <-> a <> b.
Proof.
  rewrite <- opt_string_eq_true. destruct (opt_string_eq a b); split;
    congruence.
Qed.




Lemma reset_password_mismatch (env : Env) (req : request) (w : World)
    (e c p : string) (u : Users.row) (rest : list Users.row) :
  req_body req "email" = JStr e ->
  req_body req "token" = JStr c ->
  req_body req "newPassword" = JStr p ->
  e <> "" -> c <> "" -> p <> "" ->
  (6 <= String.length p)%nat ->
  db_faults w = [] ->
  users_where_email (Some e) w = u :: rest ->
  Users.reset_token u <> Some c ->
  reset_password env req w
  = (Return (json_response 400 (msg "Código inválido.")),
     logged (SelectUsersByEmail (Some e)) true w).
Proof.
  intros He Hc Hp Hne Hnc Hnp Hlen Hdb Hsel Hneq.
  rewrite (reset_password_valid env req w e c p) by assumption.
  cbv zeta. rewrite Hsel.
  apply opt_string_eq_false in Hneq. rewrite Hneq. reflexivity.
Qed.

(** C4.  A ResetPassword that fails leaves every user row as it was: this
    holds for every request and whatever the store does.  In particular the
    right code presented after its expiry is answered with the expired-code
    error and the password hash is not touched, and a wrong code is answered
    with the code-mismatch error without clearing or expiring the pending
    code, so that any number of wrong attempts leaves the stored state
    unchanged and the next one is answered the same way. *)
Theorem reset_password_failure_atomic (env : Env) (req : request) (w : World) :
  (exists resp,
      fst (reset_password env req w) = Return resp
      /\ (status resp <> 200 ->
          users (snd (reset_password env req w)) = users w))
  /\
  (forall e c p u rest,
      req_body req "email" = JStr e ->
      req_body req "token" = JStr c ->
      req_body req "newPassword" = JStr p ->
      e <> "" -> c <> "" -> p <> "" ->
      (6 <= String.length p)%nat ->
      db_faults w = [] ->
      users_where_email (Some e) w = u :: rest ->
      (Users.reset_token u = Some c ->
       date_of (Users.reset_expires u) < now env ->
       fst (reset_password env req w)
       = Return (json_response 400 (msg "Código expirado."))
       /\ users (snd (reset_password env req w)) = users w)
      /\
      (Users.reset_token u <> Some c ->
       forall envs,
         users (reset_attempts req envs w) = users w
         /\ fst (reset_password env req (reset_attempts req envs w))
            = Return (json_response 400 (msg "Código inválido.")))).
Proof.
  split; [apply reset_password_failure_keeps_users | ].
  intros e c p u rest He Hc Hp Hne Hnc Hnp Hlen Hdb Hsel. split.
  - intros Hcode Hexp.
    rewrite (reset_password_valid env req w e c p) by assumption.
    cbv zeta. rewrite Hsel, Hcode.
    replace (opt_string_eq (Some c) (Some c)) with true
      by (symmetry; apply opt_string_eq_true; reflexivity).
    cbn [negb].
    destruct (Z.ltb_spec (date_of (Users.reset_expires u)) (now env));
      [split; reflexivity | lia].
  - intros Hneq envs.
    assert (Hinv : forall w',
               db_faults w' = [] -> users w' = users w ->
               db_faults (reset_attempts req envs w') = []
               /\ users (reset_attempts req envs w') = users w).
    { induction envs as [ | env' envs IH]; intros w' Hdb' Hus'.
      - split; assumption.
      - unfold reset_attempts. cbn [fold_left].
        rewrite (reset_password_mismatch env' req w' e c p u rest);
          try assumption.
        + apply IH; [exact Hdb' | exact Hus'].
        + unfold users_where_email in *. rewrite Hus'. exact Hsel. }
    destruct (Hinv w Hdb eq_refl) as [Hdb' Hus'].
    split; [exact Hus' | ].
    rewrite (reset_password_mismatch env req _ e c p u rest); try assumption.
    + reflexivity.
    + unfold users_where_email in *. rewrite Hus'. exact Hsel.
Qed.

End Reset.


Lemma reset_password_failure_atomic_witness :
  let req :=
    Run.post "/auth/reset-password" None
             [("email", JStr "ana@x.com"); ("token", JStr "550000");
              ("newPassword", JStr "newpass")] in
  let w := Run.with_users [Run.ana_pending] in
  date_of (Users.reset_expires Run.ana_pending) < now Run.env_late
  /\ fst (reset_password (B := Run.B) Run.env_late req w)
     = Return (json_response 400 (msg "Código expirado."))
  /\ users (snd (reset_password (B := Run.B) Run.env_late req w)) = users w.
Proof.
  intros req w. split; [reflexivity | ].
  refine (proj1 (proj2 (reset_password_failure_atomic
                          (B := Run.B) Run.env_late req w)
                       "ana@x.com" "550000" "newpass" Run.ana_pending []
                       eq_refl eq_refl eq_refl _ _ _ _ eq_refl eq_refl)
                eq_refl eq_refl);
    try discriminate.
  simpl. lia.
Defined.

(* ===================================================================== *)
(** * Registration and login *)
(* ===================================================================== *)

Section Accounts.

Context {F : FloatOps} {B : BcryptLib} {J : JwtLib}.

(** The answer of [login] to a request whose email and password are
    non-empty strings: only the first statement can meet a fault. *)
Lemma login_response (cfg : Config) (env : Env) (req : request) (w : World)
    (e p : string) :
  req_body req "email" = JStr e ->
  req_body req "password" = JStr p ->
  e <> "" -> p <> "" ->
  fst (login cfg env req w)
  = if hd false (db_faults w) then Return server_error
    else
      match users_where_email (Some e) w with
      | [] => Return bad_credentials
      | u :: _ =>
          if bcrypt_compare p (Users.password_hash u) then
            match configured (JWT_SECRET cfg) with
            | Some secret =>
                Return (json_response 200
                          (JObject
                             [("token",
                               JV (JStr (jwt_sign (Users.id u) (Users.email u)
                                                  secret (seconds (now env))
                                                  one_day)));
                              ("user", public_user u)]))
            | None => Return server_error
            end
          else Return bad_credentials
      end.
Proof.
  intros He Hp Hne Hnp. unfold login. rewrite He, Hp.
  rewrite (proj2 (truthy_JStr e) Hne), (proj2 (truthy_JStr p) Hnp).
  cbn [negb orb pg_text].
  destruct w as [us useq gs gseq dbf mf lg].
  unfold try_catch, bind, select_users_by_email, pool_query,
    bcrypt_compare_js, generateToken, ret, throw.
  destruct dbf as [ | [ | ] dbf]; cbn; try reflexivity.
  all: destruct (filter (email_is e) us) as [ | u rest]; cbn;
       try reflexivity.
  all: destruct (bcrypt_compare p (Users.password_hash u)); cbn;
       try reflexivity.
  all: destruct (configured (JWT_SECRET cfg)); reflexivity.
Qed.

(** A login whose email or password is missing or empty is answered by the
    presence check, whatever the store holds. *)
Lemma login_missing_field (cfg : Config) (env : Env) (req : request)
    (w : World) :
  truthy (req_body req "email") = false
  \/ truthy (req_body req "password") = false ->
  login cfg env req w
  = (Return (json_response 400 (msg "Preencha todos os campos.")), w).
Proof.
  intros H. unfold login. cbv zeta.
  destruct H as [-> | ->]; [reflexivity | ].
  rewrite orb_true_r. reflexivity.
Qed.

(** X28.  When the passwords are strings, a login with an email that is
    not registered and a login with a registered email and a password that
    the stored hash rejects get the same response, status and body alike,
    whenever the store is equally available to both: this holds when both
    calls carry an email and a password (and then, the store answering, the
    response is 400 with the one message for bad credentials), and it holds
    for one and the same pair of credentials, empty or not, presented to a
    store that does not know the email and to a store that rejects the
    password. *)
Theorem login_anti_enumeration (cfg : Config) (env1 env2 : Env)
    (req1 req2 : request) (w1 w2 : World) (e1 p1 e2 p2 : string)
    (u : Users.row) (rest : list Users.row) :
  req_body req1 "email" = JStr e1 ->
  req_body req1 "password" = JStr p1 ->
  req_body req2 "email" = JStr e2 ->
  req_body req2 "password" = JStr p2 ->
  hd false (db_faults w1) = hd false (db_faults w2) ->
  users_where_email (Some e1) w1 = [] ->
  users_where_email (Some e2) w2 = u :: rest ->
  bcrypt_compare p2 (Users.password_hash u) = false ->
  (e1 <> "" -> p1 <> "" -> e2 <> "" -> p2 <> "" ->
   fst (login cfg env1 req1 w1) = fst (login cfg env2 req2 w2)
   /\ (hd false (db_faults w1) = false ->
       fst (login cfg env1 req1 w1) = Return bad_credentials
       /\ fst (login cfg env2 req2 w2) = Return bad_credentials))
  /\ (e1 = e2 -> p1 = p2 ->
      fst (login cfg env1 req1 w1) = fst (login cfg env2 req2 w2)).
Proof.
  intros He1 Hp1 He2 Hp2 Hdb Habsent Hpresent Hwrong.
  assert (Hfull :
    e1 <> "" -> p1 <> "" -> e2 <> "" -> p2 <> "" ->
    fst (login cfg env1 req1 w1) = fst (login cfg env2 req2 w2)
    /\ (hd false (db_faults w1) = false ->
        fst (login cfg env1 req1 w1) = Return bad_credentials
        /\ fst (login cfg env2 req2 w2) = Return bad_credentials)).
  { intros Hne1 Hnp1 Hne2 Hnp2.
    rewrite (login_response cfg env1 req1 w1 e1 p1) by assumption.
    rewrite (login_response cfg env2 req2 w2 e2 p2) by assumption.
    rewrite <- Hdb, Habsent, Hpresent, Hwrong.
    split.
    - destruct (hd false (db_faults w1)); reflexivity.
    - intros ->. split; reflexivity. }
  split; [exact Hfull | ].
  intros <- <-.
  destruct (String.eqb_spec e1 "") as [-> | Hne].
  { rewrite !login_missing_field; try reflexivity.
    - left. rewrite He2. reflexivity.
    - left. rewrite He1. reflexivity. }
  destruct (String.eqb_spec p1 "") as [-> | Hnp].
  { rewrite !login_missing_field; try reflexivity.
    - right. rewrite Hp2. reflexivity.
    - right. rewrite Hp1. reflexivity. }
  apply Hfull; assumption.
Qed.

(** X1.  A login whose password is present but is not a string (a JSON
    number or [true]) never reaches the comparison of passwords:
    [bcrypt.compare] rejects it.  With the store answering, the response is
    then 400 with the message for bad credentials when the email is not
    registered, and 500 with the server-error message when it is. *)
Theorem login_non_string_password (cfg : Config) (env : Env) (req : request)
    (w : World) (e : string) :
  req_body req "email" = JStr e ->
  e <> "" ->
  truthy (req_body req "password") = true ->
  (forall p, req_body req "password" <> JStr p) ->
  db_faults w = [] ->
  fst (login cfg env req w)
  = match users_where_email (Some e) w with
    | [] => Return bad_credentials
    | _ :: _ => Return server_error
    end.
Proof.
  intros He Hne Hp Hnot Hdb. unfold login. rewrite He, Hp.
  rewrite (proj2 (truthy_JStr e) Hne). cbn [negb orb pg_text].
  destruct w as [us useq gs gseq dbf mf lg]. simpl in Hdb. subst dbf.
  unfold try_catch, bind, select_users_by_email, pool_query,
    bcrypt_compare_js, ret, throw.
  cbn. destruct (filter (email_is e) us) as [ | u rest]; cbn;
    [reflexivity | ].
  destruct (req_body req "password") as [ | | b | z | p | x]; cbn;
    try reflexivity.
  exfalso. apply (Hnot p). reflexivity.
Qed.

Lemma filter_nil_existsb {A} (f : A -> bool) (l : list A) :
  filter f l = [] -> existsb f l = false.
Proof.
  induction l as [ | x l IH]; simpl; [reflexivity | ].
  destruct (f x); [discriminate | exact IH].
Qed.

(** Registration of a new email with the store answering: one row is
    appended, with the next serial id and no reset pending. *)
Lemma register_new (env : Env) (req : request) (w : World) (n e p : string) :
  req_body req "name" = JStr n ->
  req_body req "email" = JStr e ->
  req_body req "password" = JStr p ->
  n <> "" -> e <> "" -> p <> "" ->
  db_faults w = [] ->
  users_where_email (Some e) w = [] ->
  let row :=
    Users.mk (users_seq w) n e (bcrypt_hash p 10 (salt env)) None None in
  fst (register env req w)
  = Return (json_response 201
              (JObject [("msg", JV (JStr "Conta criada com sucesso."));
                        ("user", public_user row)]))
  /\ users (snd (register env req w)) = (users w ++ [row])%list
  /\ db_faults (snd (register env req w)) = [].
Proof.
  intros Hn He Hp Hnn Hne Hnp Hdb Hnew row.
  unfold register. rewrite Hn, He, Hp.
  rewrite (proj2 (truthy_JStr n) Hnn), (proj2 (truthy_JStr e) Hne),
    (proj2 (truthy_JStr p) Hnp).
  cbn [negb orb pg_text].
  pose proof (filter_nil_existsb _ _ Hnew) as Hex.
  destruct w as [us useq gs gseq dbf mf lg].
  simpl in Hdb, Hnew, Hex. subst dbf.
  unfold try_catch, bind, select_users_by_email, insert_user, pool_query,
    bcrypt_hash_js, ret, throw.
  cbn. rewrite Hnew. cbn. rewrite Hex. cbn.
  repeat split.
Qed.

(** C1.  Registering a name, an email that is not yet registered and a
    password, all non-empty, succeeds with status 201 and a body that holds,
    besides the message, only the id, the name and the email of the new
    user; a login with the same email and password then succeeds with status
    200 and a token that [jwt.verify] accepts until it expires, with the id
    assigned at registration as its user id.  (The store answers, the
    signing secret is configured, and the two libraries keep their
    contracts.) *)
Theorem register_then_login (cfg : Config) (env1 env2 : Env)
    (req1 req2 : request) (w : World) (n e p secret : string) :
  req_body req1 "name" = JStr n ->
  req_body req1 "email" = JStr e ->
  req_body req1 "password" = JStr p ->
  req_body req2 "email" = JStr e ->
  req_body req2 "password" = JStr p ->
  n <> "" -> e <> "" -> p <> "" ->
  users_where_email (Some e) w = [] ->
  db_faults w = [] ->
  JWT_SECRET cfg = Some secret -> secret <> "" ->
  bcrypt_contract B ->
  jwt_contract J ->
  exists uid token,
    fst (register env1 req1 w)
    = Return (json_response 201
                (JObject [("msg", JV (JStr "Conta criada com sucesso."));
                          ("user",
                           JObject [("id", JV (JNum uid));
                                    ("name", JV (JStr n));
                                    ("email", JV (JStr e))])]))
    /\ fst (login cfg env2 req2 (snd (register env1 req1 w)))
       = Return (json_response 200
                   (JObject [("token", JV (JStr token));
                             ("user",
                              JObject [("id", JV (JNum uid));
                                       ("name", JV (JStr n));
                                       ("email", JV (JStr e))])]))
    /\ forall t,
         t < seconds (now env2) + one_day ->
         exists claims,
           jwt_verify token (JWT_SECRET cfg) t = inl claims
           /\ Claims.id claims = uid.
Proof.
  intros Hn He Hp He2 Hp2 Hnn Hne Hnp Hnew Hdb Hsecret Hns Hbcrypt Hjwt.
  destruct (register_new env1 req1 w n e p Hn He Hp Hnn Hne Hnp Hdb Hnew)
    as (Hresp & Husers & Hdb1).
  set (row := Users.mk (users_seq w) n e (bcrypt_hash p 10 (salt env1))
                       None None) in *.
  exists (users_seq w),
    (jwt_sign (users_seq w) e secret (seconds (now env2)) one_day).
  split; [exact Hresp | ].
  assert (Hsel : users_where_email (Some e) (snd (register env1 req1 w))
                 = [row]).
  { unfold users_where_email in *. rewrite Husers, filter_app, Hnew.
    simpl. unfold email_is at 1. simpl. rewrite String.eqb_refl.
    reflexivity. }
  assert (Hcfg : configured (JWT_SECRET cfg) = Some secret).
  { rewrite Hsecret. simpl. apply String.eqb_neq in Hns. rewrite Hns.
    reflexivity. }
  split.
  - rewrite (login_response cfg env2 req2 _ e p) by assumption.
    rewrite Hdb1, Hsel. cbn [hd]. unfold row at 1.
    cbn [Users.password_hash]. rewrite Hbcrypt, Hcfg.
    reflexivity.
  - intros t Ht. eexists. split.
    + rewrite Hsecret. apply Hjwt; assumption.
    + reflexivity.
Qed.

End Accounts.

Lemma login_anti_enumeration_witness :
  let w := Run.with_users [Run.ana] in
  let req1 :=
    Run.post "/auth/login" None
             [("email", JStr "bob@x.com"); ("password", JStr "secret1")] in
  let req2 :=
    Run.post "/auth/login" None
             [("email", JStr "ana@x.com"); ("password", JStr "wrong")] in
  users_where_email (Some "bob@x.com") w = []
  /\ fst (login (B := Run.B) (J := Run.J) Run.cfg Run.env req1 w)
     = fst (login (B := Run.B) (J := Run.J) Run.cfg Run.env_late req2 w).
Proof.
  intros w req1 req2. split; [reflexivity | ].
  refine (proj1 (proj1 (login_anti_enumeration
                          (B := Run.B) (J := Run.J) Run.cfg Run.env
                          Run.env_late req1 req2 w w
                          "bob@x.com" "secret1" "ana@x.com" "wrong"
                          Run.ana [] eq_refl eq_refl eq_refl eq_refl
                          eq_refl eq_refl eq_refl eq_refl)
                       _ _ _ _));
    discriminate.
Defined.

(** C3.  The claim fails on a password that is not a string.  Two logins
    carry the JSON number 123 as password, on a store where ana@x.com is
    registered and bob@x.com is not: the unknown email is answered 400
    "Credenciais incorretas."; for the registered one [bcrypt.compare]
    rejects the number and the [catch] answers 500 "Erro no servidor.".
    Status and message differ, and tell that the email is registered. *)
Lemma login_enumeration_failing_input :
  let w := Run.with_users [Run.ana] in
  let unknown :=
    Run.post "/auth/login" None
             [("email", JStr "bob@x.com"); ("password", JNum 123)] in
  let registered :=
    Run.post "/auth/login" None
             [("email", JStr "ana@x.com"); ("password", JNum 123)] in
  fst (login (B := Run.B) (J := Run.J) Run.cfg Run.env unknown w)
  = Return (json_response 400 (msg "Credenciais incorretas."))
  /\ fst (login (B := Run.B) (J := Run.J) Run.cfg Run.env registered w)
     = Return (json_response 500 (msg "Erro no servidor."))
  /\ fst (login (B := Run.B) (J := Run.J) Run.cfg Run.env unknown w)
     <> fst (login (B := Run.B) (J := Run.J) Run.cfg Run.env registered w).
Proof.
  intros w unknown registered.
  split; [reflexivity | ]. split; [reflexivity | discriminate].
Qed.

Lemma register_then_login_witness :
  let req1 :=
    Run.post "/auth/register" None
             [("name", JStr "Ana"); ("email", JStr "ana@x.com");
              ("password", JStr "secret1")] in
  let req2 :=
    Run.post "/auth/login" None
             [("email", JStr "ana@x.com"); ("password", JStr "secret1")] in
  users_where_email (Some "ana@x.com") Run.empty = []
  /\ exists uid token,
       fst (register (B := Run.B) Run.env req1 Run.empty)
       = Return (json_response 201
                   (JObject [("msg", JV (JStr "Conta criada com sucesso."));
                             ("user",
                              JObject [("id", JV (JNum uid));
                                       ("name", JV (JStr "Ana"));
                                       ("email", JV (JStr "ana@x.com"))])]))
       /\ fst (login (B := Run.B) (J := Run.J) Run.cfg Run.env_late req2
                     (snd (register (B := Run.B) Run.env req1 Run.empty)))
          = Return (json_response 200
                      (JObject [("token", JV (JStr token));
                                ("user",
                                 JObject [("id", JV (JNum uid));
                                          ("name", JV (JStr "Ana"));
                                          ("email", JV (JStr "ana@x.com"))])]))
       /\ forall t,
            t < seconds (now Run.env_late) + one_day ->
            exists claims,
              Reference.verify token (JWT_SECRET Run.cfg) t = inl claims
              /\ Claims.id claims = uid.
Proof.
  intros req1 req2. split; [reflexivity | ].
  refine (register_then_login
            (B := Run.B) (J := Run.J) Run.cfg Run.env Run.env_late req1 req2
            Run.empty "Ana" "ana@x.com" "secret1" "s3cr3t"
            eq_refl eq_refl eq_refl eq_refl eq_refl _ _ _ eq_refl eq_refl
            eq_refl _ reference_bcrypt_contract reference_jwt_contract);
    discriminate.
Defined.

(* ===================================================================== *)
(** * The reset code and its expiry go together *)
(* ===================================================================== *)

Section Invariant.

Context {F : FloatOps} {B : BcryptLib} {J : JwtLib}.

Lemma preserves_ret {A} P (a : A) : preserves P (ret a).
Proof. intros w H. exact H. Qed.

Lemma preserves_throw {A} P : preserves P (@throw F A).
Proof. intros w H. exact H. Qed.

Lemma preserves_bind {A C} P (m : M A) (k : A -> M C) :
  preserves P m -> (forall a, preserves P (k a)) -> preserves P (bind m k).
Proof.
  intros Hm Hk w H. unfold bind.
  specialize (Hm w H). destruct (m w) as [[a | ] w']; simpl in *.
  - apply Hk. exact Hm.
  - exact Hm.
Qed.

Lemma preserves_try_catch {A} P (m h : M A) :
  preserves P m -> preserves P h -> preserves P (try_catch m h).
Proof.
  intros Hm Hh w H. unfold try_catch.
  specialize (Hm w H). destruct (m w) as [[a | ] w']; simpl in *.
  - exact Hm.
  - apply Hh. exact Hm.
Qed.

Lemma preserves_pool_query {A} P (e : effect)
    (exec : World -> outcome A * World) :
  (forall w, P (users w) -> P (users (snd (exec w)))) ->
  preserves P (pool_query e exec).
Proof.
  intros Hexec w H. unfold pool_query.
  destruct (db_faults w) as [ | [ | ] rest]; simpl.
  - specialize (Hexec (set_db_faults [] w) H).
    destruct (exec (set_db_faults [] w)) as [[a | ] w']; exact Hexec.
  - exact H.
  - specialize (Hexec (set_db_faults rest w) H).
    destruct (exec (set_db_faults rest w)) as [[a | ] w']; exact Hexec.
Qed.

Lemma preserves_sendMail P (m : mail) : preserves P (sendMail m).
Proof.
  intros w H. unfold sendMail.
  destruct (mail_faults w) as [ | [ | ] rest]; exact H.
Qed.

Lemma preserves_select_users P (e : option string) :
  preserves P (select_users_by_email e).
Proof. apply preserves_pool_query. intros w H. exact H. Qed.

Lemma set_reset_ok (code : string) (expires uid : Z) (r : Users.row) :
  reset_pair_ok r -> reset_pair_ok (set_reset code expires uid r).
Proof.
  unfold set_reset, reset_pair_ok. destruct (Users.id r =? uid); simpl.
  - intros _. split; discriminate.
  - intros H. exact H.
Qed.

Lemma set_password_ok (h : string) (uid : Z) (r : Users.row) :
  reset_pair_ok r -> reset_pair_ok (set_password h uid r).
Proof.
  unfold set_password, reset_pair_ok. destruct (Users.id r =? uid); simpl.
  - intros _. split; reflexivity.
  - intros H. exact H.
Qed.

Lemma Forall_map_same {A} (P : A -> Prop) (f : A -> A) (l : list A) :
  (forall x, P x -> P (f x)) -> Forall P l -> Forall P (map f l).
Proof.
  intros Hf Hl. induction Hl as [ | x l Hx Hl IH]; simpl; constructor.
  - apply Hf. exact Hx.
  - exact IH.
Qed.

Lemma preserves_insert_user (n e : option string) (h : string) :
  preserves (Forall reset_pair_ok) (insert_user n e h).
Proof.
  apply preserves_pool_query. intros w H.
  destruct n as [n' | ], e as [e' | ]; simpl; try exact H.
  destruct (existsb (email_is e') (users w)); simpl; [exact H | ].
  apply Forall_app. split; [exact H | ].
  constructor; [ | constructor]. split; reflexivity.
Qed.

Lemma preserves_update_user_reset (code : string) (expires uid : Z) :
  preserves (Forall reset_pair_ok) (update_user_reset code expires uid).
Proof.
  apply preserves_pool_query. intros w H. simpl.
  apply Forall_map_same; [apply set_reset_ok | exact H].
Qed.

Lemma preserves_update_user_password (h : string) (uid : Z) :
  preserves (Forall reset_pair_ok) (update_user_password h uid).
Proof.
  apply preserves_pool_query. intros w H. simpl.
  apply Forall_map_same; [apply set_password_ok | exact H].
Qed.

Lemma preserves_bcrypt_hash_js P (d : prim) (rounds : Z) (s : string) :
  preserves P (bcrypt_hash_js d rounds s).
Proof. destruct d; intros w H; exact H. Qed.

Lemma preserves_bcrypt_compare_js P (d : prim) (h : string) :
  preserves P (bcrypt_compare_js d h).
Proof. destruct d; intros w H; exact H. Qed.

Lemma preserves_generateToken P (cfg : Config) (env : Env) (u : Users.row) :
  preserves P (generateToken cfg env u).
Proof.
  unfold generateToken. destruct (configured (JWT_SECRET cfg));
    intros w H; exact H.
Qed.

Ltac preserve_step :=
  match goal with
  | |- preserves _ (ret _) => apply preserves_ret
  | |- preserves _ throw => apply preserves_throw
  | |- preserves _ (try_catch _ _) => apply preserves_try_catch
  | |- preserves _ (bind _ _) => apply preserves_bind; [ | intros ? ]
  | |- preserves _ (select_users_by_email _) => apply preserves_select_users
  | |- preserves _ (insert_user _ _ _) => apply preserves_insert_user
  | |- preserves _ (update_user_reset _ _ _) =>
      apply preserves_update_user_reset
  | |- preserves _ (update_user_password _ _) =>
      apply preserves_update_user_password
  | |- preserves _ (bcrypt_hash_js _ _ _) => apply preserves_bcrypt_hash_js
  | |- preserves _ (bcrypt_compare_js _ _) => apply preserves_bcrypt_compare_js
  | |- preserves _ (generateToken _ _ _) => apply preserves_generateToken
  | |- preserves _ (sendMail _) => apply preserves_sendMail
  | |- preserves _ (if ?c then _ else _) => destruct c
  | |- preserves _ (match ?l with [] => _ | _ :: _ => _ end) => destruct l
  end.

Lemma register_preserves (env : Env) (req : request) :
  preserves (Forall reset_pair_ok) (register env req).
Proof. unfold register. cbv zeta. repeat preserve_step. Qed.

Lemma login_preserves (cfg : Config) (env : Env) (req : request) :
  preserves (Forall reset_pair_ok) (login cfg env req).
Proof. unfold login. cbv zeta. repeat preserve_step. Qed.

Lemma forgot_password_preserves (cfg : Config) (env : Env) (req : request) :
  preserves (Forall reset_pair_ok) (forgot_password cfg env req).
Proof. unfold forgot_password. cbv zeta. repeat preserve_step. Qed.

Lemma reset_password_preserves (env : Env) (req : request) :
  preserves (Forall reset_pair_ok) (reset_password env req).
Proof. unfold reset_password. cbv zeta. repeat preserve_step. Qed.

Lemma ranking_loop_preserves P (gs : list string)
    (ranking : list (string * json)) :
  preserves P (ranking_loop gs ranking).
Proof.
  revert ranking. induction gs as [ | game gs IH]; intros ranking; simpl.
  - apply preserves_ret.
  - apply preserves_bind; [ | intros result; apply IH].
    apply preserves_pool_query. intros w H. exact H.
Qed.

Lemma stats_ranking_preserves P (req : request) :
  preserves P (stats_ranking req).
Proof.
  unfold stats_ranking. apply preserves_try_catch; [ | apply preserves_ret].
  apply preserves_bind; [apply ranking_loop_preserves | ].
  intros ranking. apply preserves_ret.
Qed.

Lemma stats_me_preserves P (req : request) (user : Claims.t) :
  preserves P (stats_me req user).
Proof.
  unfold stats_me. cbv zeta.
  apply preserves_try_catch; [ | apply preserves_ret].
  apply preserves_bind; [ | intros result; apply preserves_ret].
  apply preserves_pool_query. intros w H. exact H.
Qed.

Lemma stats_update_preserves P (req : request) (user : Claims.t) :
  preserves P (stats_update req user).
Proof.
  unfold stats_update. cbv zeta.
  apply preserves_try_catch; [ | apply preserves_ret].
  apply preserves_bind.
  - apply preserves_pool_query. intros w H. exact H.
  - intros check. apply preserves_bind; [ | intros u; apply preserves_ret].
    destruct check as [ | current rest];
      apply preserves_pool_query; intros w H; exact H.
Qed.

Lemma authenticateToken_preserves P (cfg : Config) (env : Env)
    (req : request) (next : Claims.t -> M response) :
  (forall user, preserves P (next user)) ->
  preserves P (authenticateToken cfg env req next).
Proof.
  intros Hnext. unfold authenticateToken.
  destruct (bearer_token (authorization req)) as [token | ];
    [ | apply preserves_ret].
  destruct (String.eqb token ""); [apply preserves_ret | ].
  destruct (jwt_verify token (JWT_SECRET cfg) (seconds (now env)));
    [apply Hnext | apply preserves_ret].
Qed.

Lemma app_preserves (cfg : Config) (env : Env) (req : request) :
  preserves (Forall reset_pair_ok) (app cfg env req).
Proof.
  unfold app. cbv zeta.
  repeat match goal with
         | |- preserves _ (if ?c then _ else _) => destruct c
         end.
  - apply preserves_ret.
  - apply register_preserves.
  - apply login_preserves.
  - apply forgot_password_preserves.
  - apply reset_password_preserves.
  - apply authenticateToken_preserves. intros user.
    apply stats_update_preserves.
  - apply authenticateToken_preserves. intros user.
    apply stats_me_preserves.
  - apply stats_ranking_preserves.
  - apply preserves_ret.
Qed.

(** C7.  Register, ForgotPassword and ResetPassword, and with them every
    route of the application, keep the invariant that on every user row the
    reset code and its expiry are both set or both NULL, whatever the request
    and whether the store and the mail transport fail or not; so the
    invariant holds after any series of requests. *)
Theorem reset_pair_invariant (cfg : Config) (env : Env) (req : request)
    (w : World) :
  reset_invariant w ->
  reset_invariant (snd (register env req w))
  /\ reset_invariant (snd (forgot_password cfg env req w))
  /\ reset_invariant (snd (reset_password env req w))
  /\ reset_invariant (snd (app cfg env req w))
  /\ forall steps, reset_invariant (serve cfg steps w).
Proof.
  intros Hinv. unfold reset_invariant in *.
  split; [apply register_preserves; exact Hinv | ].
  split; [apply forgot_password_preserves; exact Hinv | ].
  split; [apply reset_password_preserves; exact Hinv | ].
  split; [apply app_preserves; exact Hinv | ].
  intros steps. revert w Hinv.
  induction steps as [ | step steps IH]; intros w Hinv; simpl.
  - exact Hinv.
  - apply IH. apply app_preserves. exact Hinv.
Qed.

End Invariant.

Lemma reset_pair_invariant_witness :
  let req :=
    Run.post "/auth/forgot-password" None [("email", JStr "ana@x.com")] in
  let w := Run.with_users [Run.ana] in
  reset_invariant w
  /\ reset_invariant
       (snd (forgot_password (F := Run.F) Run.cfg Run.env req w)).
Proof.
  intros req w.
  assert (Hw : reset_invariant w).
  { constructor; [split; reflexivity | constructor]. }
  split; [exact Hw | ].
  exact (proj1 (proj2 (reset_pair_invariant
                         (B := Run.B) (J := Run.J) Run.cfg Run.env req w Hw))).
Defined.

(* ===================================================================== *)
(** * Forgotten password: persistence, then dispatch *)
(* ===================================================================== *)

Section Forgot.

Context {F : FloatOps} {B : BcryptLib} {J : JwtLib}.

(** What one run of [forgot_password] adds to the log, in every case. *)
Lemma forgot_password_log (cfg : Config) (env : Env) (req : request)
    (w : World) :
  exists l,
    log (snd (forgot_password cfg env req w)) = (log w ++ l)%list
    /\ forall m ok,
        In (SendMail m, ok) l ->
        exists sel code expires uid,
          l = [(sel, true);
               (UpdateUserReset code expires uid, true);
               (SendMail m, ok)].
Proof.
  unfold forgot_password. cbv zeta.
  destruct (negb (truthy (req_body req "email"))).
  { exists []. split; [symmetry; apply app_nil_r | intros m ok []]. }
  destruct w as [us useq gs gseq dbf mf lg].
  unfold try_catch, bind, select_users_by_email, update_user_reset,
    pool_query, sendMail, ret, throw.
  destruct dbf as [ | [ | ] dbf]; cbn.
  2: { eexists; split; [reflexivity | ].
       intros m ok [Hin | []]; discriminate. }
  all: destruct (users_where_email _ _) as [ | u rest]; cbn.
  1, 3: eexists; split; [reflexivity | ];
        intros m ok [Hin | []]; discriminate.
  all: try destruct dbf as [ | [ | ] dbf]; cbn.
  all: try destruct mf as [ | [ | ] mf]; cbn.
  all: eexists; (split; [rewrite <- !app_assoc; reflexivity | ]).
  all: intros m ok Hin; simpl in Hin;
       repeat (destruct Hin as [Hin | Hin]; try discriminate);
       try contradiction.
  all: injection Hin as <- <-; do 4 eexists; reflexivity.
Qed.

(** The run in which the store answers and the transport fails. *)
Lemma forgot_password_mail_fault (cfg : Config) (env : Env) (req : request)
    (w : World) (e : string) (u : Users.row) (rest : list Users.row)
    (mf : list bool) :
  req_body req "email" = JStr e ->
  e <> "" ->
  users_where_email (Some e) w = u :: rest ->
  db_faults w = [] ->
  mail_faults w = true :: mf ->
  let code := generateResetCode (random env) in
  let expires := now env + 15 * 60 * 1000 in
  fst (forgot_password cfg env req w) = Return mail_error
  /\ users (snd (forgot_password cfg env req w))
     = map (set_reset code expires (Users.id u)) (users w)
  /\ log (snd (forgot_password cfg env req w))
     = (log w
        ++ [(SelectUsersByEmail (Some e), true);
            (UpdateUserReset code expires (Users.id u), true);
            (SendMail (reset_mail cfg (JStr e) u code), false)])%list.
Proof.
  intros He Hne Hsel Hdb Hmf code expires.
  unfold forgot_password. rewrite He.
  rewrite (proj2 (truthy_JStr e) Hne). cbn [negb pg_text].
  destruct w as [us useq gs gseq dbf mfs lg].
  simpl in Hdb, Hmf, Hsel. subst dbf mfs.
  unfold try_catch, bind, select_users_by_email, update_user_reset,
    pool_query, sendMail, ret, throw.
  cbn. rewrite Hsel. cbn.
  repeat split. rewrite <- !app_assoc. reflexivity.
Qed.

Lemma set_reset_email (code : string) (expires uid : Z) (r : Users.row) :
  Users.email (set_reset code expires uid r) = Users.email r.
Proof. unfold set_reset. destruct (Users.id r =? uid); reflexivity. Qed.

Lemma filter_map_set_reset (code : string) (expires uid : Z) (e : string)
    (l : list Users.row) :
  filter (email_is e) (map (set_reset code expires uid) l)
  = map (set_reset code expires uid) (filter (email_is e) l).
Proof.
  induction l as [ | r l IH]; simpl; [reflexivity | ].
  replace (email_is e (set_reset code expires uid r)) with (email_is e r)
    by (unfold email_is; rewrite set_reset_email; reflexivity).
  destruct (email_is e r); simpl; rewrite IH; reflexivity.
Qed.

(** C5.  ForgotPassword attempts the dispatch of the mail only after the
    statement that persists the code has completed: in the log of every run
    a dispatch, failed or not, comes right after a completed update.  When
    the store answers and the dispatch fails, the answer is 500 with the
    mail-error message, and the code and its expiry stay on the row of the
    user. *)
Theorem forgot_password_persists_before_mail (cfg : Config) (env : Env)
    (req : request) (w : World) :
  (exists l,
      log (snd (forgot_password cfg env req w)) = (log w ++ l)%list
      /\ forall m ok,
          In (SendMail m, ok) l ->
          exists sel code expires uid,
            l = [(sel, true);
                 (UpdateUserReset code expires uid, true);
                 (SendMail m, ok)])
  /\
  (forall e u rest mf,
      req_body req "email" = JStr e ->
      e <> "" ->
      users_where_email (Some e) w = u :: rest ->
      db_faults w = [] ->
      mail_faults w = true :: mf ->
      fst (forgot_password cfg env req w) = Return mail_error
      /\ exists u' rest',
          users_where_email (Some e) (snd (forgot_password cfg env req w))
          = u' :: rest'
          /\ Users.id u' = Users.id u
          /\ Users.password_hash u' = Users.password_hash u
          /\ Users.reset_token u' = Some (generateResetCode (random env))
          /\ Users.reset_expires u' = Some (now env + 15 * 60 * 1000)).
Proof.
  split; [apply forgot_password_log | ].
  intros e u rest mf He Hne Hsel Hdb Hmf.
  destruct (forgot_password_mail_fault cfg env req w e u rest mf
              He Hne Hsel Hdb Hmf) as (Hresp & Husers & _).
  split; [exact Hresp | ].
  unfold users_where_email in *. rewrite Husers, filter_map_set_reset, Hsel.
  simpl. eexists. eexists. split; [reflexivity | ].
  unfold set_reset. rewrite Z.eqb_refl. simpl. repeat split.
Qed.

End Forgot.

Lemma forgot_password_persists_before_mail_witness :
  let req :=
    Run.post "/auth/forgot-password" None [("email", JStr "ana@x.com")] in
  let w : @World Run.F :=
    {| users := [Run.ana]; users_seq := 2; game_stats := [];
       game_stats_seq := 1; db_faults := []; mail_faults := [true];
       log := [] |} in
  users_where_email (Some "ana@x.com") w = [Run.ana]
  /\ fst (forgot_password Run.cfg Run.env req w) = Return mail_error
  /\ users (snd (forgot_password Run.cfg Run.env req w)) = [Run.ana_pending].
Proof.
  intros req w. split; [reflexivity | ].
  split; [ | reflexivity].
  refine (proj1 (proj2 (forgot_password_persists_before_mail
                          Run.cfg Run.env req w)
                       "ana@x.com" Run.ana [] [] eq_refl _ eq_refl eq_refl
                       eq_refl)).
  discriminate.
Defined.

(* ===================================================================== *)
(** * Decimal notation: printing and reading back *)
(* ===================================================================== *)

Lemma digit_char_code (d : Z) :
  0 <= d < 10 -> nat_of_ascii (digit_char d) = (48 + Z.to_nat d)%nat.
Proof.
  intros Hd. unfold digit_char. apply nat_ascii_embedding. lia.
Qed.

Lemma digit_char_is_digit (d : Z) :
  0 <= d < 10 -> is_digit (digit_char d) = true.
Proof.
  intros Hd. unfold is_digit. rewrite (digit_char_code d Hd).
  apply andb_true_intro. split; apply Nat.leb_le; lia.
Qed.

Lemma digit_char_value (d : Z) :
  0 <= d < 10 -> Z.of_nat (nat_of_ascii (digit_char d)) - 48 = d.
Proof.
  intros Hd. rewrite (digit_char_code d Hd). lia.
Qed.

Lemma all_digits_app (a b : string) :
  all_digits (a ++ b) = all_digits a && all_digits b.
Proof.
  induction a as [ | c a IH]; simpl; [reflexivity | ].
  rewrite IH. apply andb_assoc.
Qed.

Lemma digits_value_app (a b : string) (acc : Z) :
  digits_value acc (a ++ b) = digits_value (digits_value acc a) b.
Proof.
  revert acc. induction a as [ | c a IH]; intros acc; simpl;
    [reflexivity | apply IH].
Qed.

Lemma string_length_app (a b : string) :
  String.length (a ++ b) = (String.length a + String.length b)%nat.
Proof.
  induction a as [ | c a IH]; simpl; [reflexivity | now rewrite IH].
Qed.

Lemma digits_fuel_all_digits (fuel : nat) (n : Z) :
  0 <= n -> all_digits (digits_fuel fuel n) = true.
Proof.
  revert n. induction fuel as [ | fuel IH]; intros n Hn;
    cbn [digits_fuel]; [reflexivity | ].
  destruct (Z.ltb_spec n 10) as [Hlt | Hge].
  - cbn [all_digits]. rewrite digit_char_is_digit by lia. reflexivity.
  - rewrite all_digits_app, IH by (apply Z.div_pos; lia).
    cbn [all_digits andb].
    rewrite digit_char_is_digit by (apply Z.mod_pos_bound; lia).
    reflexivity.
Qed.

Lemma digits_fuel_value (fuel : nat) (n : Z) :
  0 <= n < 2 ^ Z.of_nat fuel -> digits_value 0 (digits_fuel fuel n) = n.
Proof.
  revert n. induction fuel as [ | fuel IH]; intros n Hn.
  - change (2 ^ Z.of_nat 0) with 1 in Hn. cbn [digits_fuel digits_value]. lia.
  - cbn [digits_fuel].
    destruct (Z.ltb_spec n 10) as [Hlt | Hge].
    + cbn [digits_value]. rewrite digit_char_value by lia. lia.
    + rewrite digits_value_app. cbn [digits_value].
      rewrite digit_char_value by (apply Z.mod_pos_bound; lia).
      rewrite IH.
      * pose proof (Z.div_mod n 10). lia.
      * rewrite Nat2Z.inj_succ, Z.pow_succ_r in Hn by lia.
        split; [apply Z.div_pos; lia | ].
        apply Z.div_lt_upper_bound; lia.
Qed.

Lemma log2_fuel (n : Z) :
  0 <= n -> n < 2 ^ Z.of_nat (S (Z.to_nat (Z.log2 n))).
Proof.
  intros Hn. rewrite Nat2Z.inj_succ, Z2Nat.id by apply Z.log2_nonneg.
  destruct (Z.eq_dec n 0) as [-> | Hnz]; [reflexivity | ].
  apply Z.log2_spec. lia.
Qed.

Lemma digits_all_digits (n : Z) : 0 <= n -> all_digits (digits n) = true.
Proof. intros Hn. apply digits_fuel_all_digits. exact Hn. Qed.

Lemma digits_value_digits (n : Z) : 0 <= n -> digits_value 0 (digits n) = n.
Proof.
  intros Hn. apply digits_fuel_value. split; [exact Hn | ].
  apply log2_fuel. exact Hn.
Qed.

Lemma digits_nonempty (n : Z) : digits n <> "".
Proof.
  unfold digits. cbn [digits_fuel].
  destruct (n <? 10); [discriminate | ].
  destruct (digits_fuel _ _); discriminate.
Qed.

(** The number of digits of a number between two powers of ten. *)
Lemma digits_fuel_length (k fuel : nat) (n : Z) :
  10 ^ Z.of_nat k <= n < 10 ^ Z.of_nat (S k) ->
  (k < fuel)%nat ->
  String.length (digits_fuel fuel n) = S k.
Proof.
  revert fuel n. induction k as [ | k IH]; intros fuel n Hn Hfuel.
  - destruct fuel as [ | fuel]; [lia | ]. cbn [digits_fuel].
    change (10 ^ Z.of_nat 1) with 10 in Hn.
    destruct (Z.ltb_spec n 10); [reflexivity | lia].
  - destruct fuel as [ | fuel]; [lia | ]. cbn [digits_fuel].
    rewrite !Nat2Z.inj_succ in Hn.
    rewrite !Z.pow_succ_r in Hn by lia.
    assert (0 < 10 ^ Z.of_nat k) by (apply Z.pow_pos_nonneg; lia).
    destruct (Z.ltb_spec n 10); [lia | ].
    rewrite string_length_app. cbn [String.length].
    rewrite (IH fuel (n / 10)).
    + lia.
    + rewrite Nat2Z.inj_succ, Z.pow_succ_r by lia. split.
      * apply Z.div_le_lower_bound; lia.
      * apply Z.div_lt_upper_bound; lia.
    + lia.
Qed.










(* ===================================================================== *)
(** * Statistics: the best score and the ranking *)
(* ===================================================================== *)

Section Statistics.

Context {F : FloatOps} {B : BcryptLib} {J : JwtLib}.

Lemma set_stats_keys (hours : float) (total high sid uid : Z)
    (gt : option string) (r : GameStats.row) :
  stats_of uid gt (set_stats hours total high sid r) = stats_of uid gt r.
Proof.
  unfold set_stats. destruct (GameStats.id r =? sid); reflexivity.
Qed.

Lemma filter_map_set_stats (hours : float) (total high sid uid : Z)
    (gt : option string) (l : list GameStats.row) :
  filter (stats_of uid gt) (map (set_stats hours total high sid) l)
  = map (set_stats hours total high sid) (filter (stats_of uid gt) l).
Proof.
  induction l as [ | r l IH]; simpl; [reflexivity | ].
  rewrite set_stats_keys.
  destruct (stats_of uid gt r); simpl; rewrite IH; reflexivity.
Qed.

(** [numScore > current.high_score ? numScore : current.high_score] *)
Lemma newHighScore_max (high numScore : Z) :
  (if high <? numScore then numScore else high) = Z.max high numScore.
Proof. destruct (Z.ltb_spec high numScore); lia. Qed.



(** Membership and head of the ordered rows. *)
Lemma insert_desc_in (r x : ranking_row) (l : list ranking_row) :
  In x (insert_desc r l) <-> x = r \/ In x l.
Proof.
  induction l as [ | y l IH]; simpl.
  - intuition congruence.
  - destruct (rk_high_score y <=? rk_high_score r); simpl.
    + intuition congruence.
    + rewrite IH. intuition congruence.
Qed.

Lemma order_by_in (x : ranking_row) (l : list ranking_row) :
  In x (order_by_high_score_desc l) <-> In x l.
Proof.
  induction l as [ | y l IH]; simpl; [reflexivity | ].
  rewrite insert_desc_in, IH. intuition congruence.
Qed.

Lemma insert_desc_best (r : ranking_row) (l : list ranking_row) :
  head_is_best l -> head_is_best (insert_desc r l).
Proof.
  destruct l as [ | x l]; simpl.
  - intros _ y [<- | []]. lia.
  - intros Hbest.
    destruct (Z.leb_spec (rk_high_score x) (rk_high_score r)) as [Hlt | Hge].
    + intros y [<- | Hy]; [lia | ].
      specialize (Hbest y Hy). lia.
    + intros y [<- | Hy]; [lia | ].
      apply insert_desc_in in Hy. destruct Hy as [-> | Hy]; [lia | ].
      apply Hbest. right. exact Hy.
Qed.

Lemma order_by_best (l : list ranking_row) :
  head_is_best (order_by_high_score_desc l).
Proof.
  induction l as [ | x l IH]; simpl; [exact I | ].
  apply insert_desc_best. exact IH.
Qed.

Lemma ranking_of_top (game : string) (w : World) :
  top_of game w (ranking_of game w).
Proof.
  unfold top_of, ranking_of.
  pose proof (order_by_best (ranking_join game w)) as Hbest.
  pose proof (fun x => order_by_in x (ranking_join game w)) as Hin.
  destruct (order_by_high_score_desc (ranking_join game w)) as [ | r l].
  - left. split; [ | reflexivity].
    destruct (ranking_join game w) as [ | x j]; [reflexivity | ].
    exfalso. apply (proj2 (Hin x)). left. reflexivity.
  - right. exists r. split; [apply Hin; left; reflexivity | ].
    split; [ | reflexivity].
    intros r' Hr'. apply Hbest. apply Hin. exact Hr'.
Qed.

Lemma ranking_loop_up (gs : list string) (ranking : list (string * json))
    (w : World) :
  db_faults w = [] ->
  exists w',
    ranking_loop gs ranking w
    = (Return (ranking ++ map (fun g => (g, ranking_of g w)) gs)%list, w')
    /\ users w' = users w /\ game_stats w' = game_stats w.
Proof.
  revert ranking w. induction gs as [ | game gs IH]; intros ranking w Hdb.
  - exists w. simpl. rewrite app_nil_r. repeat split.
  - cbn [ranking_loop]. unfold bind, select_ranking.
    rewrite pool_query_up by exact Hdb.
    destruct (IH (ranking ++ [(game, ranking_of game w)])%list
                 (logged (SelectRanking game) true w) Hdb)
      as (w' & Hrun & Hus & Hgs).
    exists w'. unfold ranking_of in Hrun |- *. rewrite Hrun.
    rewrite <- app_assoc. repeat split; assumption.
Qed.

(** C9.  [GET /stats/ranking] is served without authentication: whatever
    the [Authorization] header, also with none, and with the store
    answering, the response is 200 with one entry per game, in the order of
    the games, that gives the name and the high score of a best player of
    the game (or the placeholder when the game has no row).  The same
    request without a header to [POST /stats/update] or [GET /stats/me]
    stops at the token gate with 401. *)
Theorem stats_ranking_public (cfg : Config) (env : Env) (req : request)
    (w : World) :
  method req = "GET" ->
  path req = "/stats/ranking" ->
  db_faults w = [] ->
  (exists entries,
      fst (app cfg env req w) = Return (json_response 200 (JObject entries))
      /\ map fst entries = games
      /\ (forall game entry, In (game, entry) entries -> top_of game w entry)
      /\ users (snd (app cfg env req w)) = users w
      /\ game_stats (snd (app cfg env req w)) = game_stats w)
  /\
  (forall req',
      authorization req' = None ->
      (method req' = "POST" /\ path req' = "/stats/update")
      \/ (method req' = "GET" /\ path req' = "/stats/me") ->
      app cfg env req' w = (Return denied, w)).
Proof.
  intros Hm Hp Hdb. split.
  - unfold app. rewrite Hm, Hp. cbn -[stats_ranking].
    unfold stats_ranking, try_catch, bind.
    destruct (ranking_loop_up games [] w Hdb) as (w' & Hrun & Hus & Hgs).
    rewrite Hrun. cbn [fst snd ret app].
    eexists. split; [reflexivity | ].
    split; [reflexivity | ].
    split; [ | split; assumption].
    intros game entry Hin. apply in_map_iff in Hin.
    destruct Hin as (g & [= <- <-] & _). apply ranking_of_top.
  - intros req' Hauth [[Hm' Hp'] | [Hm' Hp']]; unfold app;
      rewrite Hm', Hp'; cbn -[stats_update stats_me];
      unfold authenticateToken; rewrite Hauth; reflexivity.
Qed.

End Statistics.



Lemma stats_ranking_public_witness :
  let row1 : @GameStats.row Run.F :=
    GameStats.mk (H := Run.F) 7 1 (Some "matematica") 3 40 90 in
  let row2 : @GameStats.row Run.F :=
    GameStats.mk (H := Run.F) 8 2 (Some "matematica") 1 70 70 in
  let bia := Users.mk 2 "Bia" "bia@x.com" "" None None in
  let w := Run.with_stats [Run.ana; bia] [row1; row2] in
  let req := Run.get "/stats/ranking" None in
  db_faults w = []
  /\ fst (app (B := Run.B) (J := Run.J) Run.cfg Run.env req w)
     = Return
         (json_response 200
            (JObject
               [("matematica",
                 JObject [("name", JV (JStr "Bia"));
                          ("high_score", JV (JNum 70))]);
                ("computacao",
                 JObject [("name", JV (JStr "---"));
                          ("high_score", JV (JNum 0))]);
                ("portugues",
                 JObject [("name", JV (JStr "---"));
                          ("high_score", JV (JNum 0))]);
                ("historia",
                 JObject [("name", JV (JStr "---"));
                          ("high_score", JV (JNum 0))])]))
  /\ app (B := Run.B) (J := Run.J) Run.cfg Run.env
         (Run.get "/stats/me" None) w
     = (Return denied, w).
Proof.
  intros row1 row2 bia w req. split; [reflexivity | ].
  split; [reflexivity | ].
  apply (proj2 (stats_ranking_public (B := Run.B) (J := Run.J)
                  Run.cfg Run.env req w eq_refl eq_refl eq_refl)
               (Run.get "/stats/me" None) eq_refl).
  right. split; reflexivity.
Defined.

(* ===================================================================== *)
(** * binary64 rounding and the range of the reset code *)
(* ===================================================================== *)

Module DoubleFacts.
Import Double.

Lemma round_shift_spec (n k : Z) :
  0 < k -> 0 <= n ->
  exists r,
    0 <= r < 2 ^ k
    /\ n = (n / 2 ^ k) * 2 ^ k + r
    /\ (round_shift n k = n / 2 ^ k
        \/ (round_shift n k = n / 2 ^ k + 1 /\ 2 ^ (k - 1) <= r))
    /\ (r < 2 ^ (k - 1) -> round_shift n k = n / 2 ^ k).
Proof.
  intros Hk Hn. exists (n mod 2 ^ k).
  assert (Hpow : 0 < 2 ^ k) by (apply Z.pow_pos_nonneg; lia).
  assert (Hhalf : 0 < 2 ^ (k - 1)) by (apply Z.pow_pos_nonneg; lia).
  pose proof (Z.mod_pos_bound n (2 ^ k) Hpow) as Hr.
  pose proof (Z.div_mod n (2 ^ k) ltac:(lia)) as Hdm.
  split; [exact Hr | ]. split; [lia | ].
  unfold round_shift.
  destruct (Z.leb_spec k 0) as [Hle | _]; [lia | ].
  rewrite Z.shiftr_div_pow2, !Z.shiftl_mul_pow2 by lia.
  rewrite Z.mul_1_l.
  replace (n - n / 2 ^ k * 2 ^ k) with (n mod 2 ^ k) by lia.
  destruct (Z.ltb_spec (n mod 2 ^ k) (2 ^ (k - 1))) as [Hlt | Hge].
  - split; [left; reflexivity | intros _; reflexivity].
  - destruct (Z.ltb_spec (2 ^ (k - 1)) (n mod 2 ^ k)) as [Hgt | Heq].
    + split; [right; split; [reflexivity | lia] | lia].
    + destruct (Z.even (n / 2 ^ k)).
      * split; [left; reflexivity | intros _; reflexivity].
      * split; [right; split; [reflexivity | lia] | lia].
Qed.

Lemma round_shift_le (n k C : Z) :
  0 < k -> 0 <= n -> n <= C * 2 ^ k -> round_shift n k <= C.
Proof.
  intros Hk Hn HC.
  destruct (round_shift_spec n k Hk Hn) as (r & Hr & Hdm & Hcase & _).
  assert (Hpow : 0 < 2 ^ k) by (apply Z.pow_pos_nonneg; lia).
  assert (Hhalf : 0 < 2 ^ (k - 1)) by (apply Z.pow_pos_nonneg; lia).
  destruct Hcase as [-> | [-> Hge]].
  - apply Z.div_le_upper_bound; lia.
  - assert (n / 2 ^ k < C); [ | lia].
    apply (Z.mul_lt_mono_pos_r (2 ^ k)); lia.
Qed.

Lemma round_shift_ge (n k C : Z) :
  0 < k -> 0 <= n -> C * 2 ^ k <= n -> C <= round_shift n k.
Proof.
  intros Hk Hn HC.
  destruct (round_shift_spec n k Hk Hn) as (r & Hr & Hdm & Hcase & _).
  assert (Hpow : 0 < 2 ^ k) by (apply Z.pow_pos_nonneg; lia).
  assert (C <= n / 2 ^ k) by (apply Z.div_le_lower_bound; lia).
  destruct Hcase as [-> | [-> Hge]]; lia.
Qed.

Lemma pow2_pos (a : Z) : 0 <= a -> 0 < 2 ^ a.
Proof. intros Ha. apply Z.pow_pos_nonneg; lia. Qed.

Lemma round_cases (n e : Z) :
  0 <= n -> emin <= e ->
  round n e = mk n e
  \/ exists k,
      0 < k
      /\ round n e = mk (round_shift n k) (e + k)
      /\ (k = emin - e \/ (k = Z.log2 n - (prec - 1) /\ 2 ^ (prec - 1 + k) <= n)).
Proof.
  intros Hn He. unfold round.
  set (k := Z.max (Z.log2 n - (prec - 1)) (emin - e)).
  destruct (Z.leb_spec k 0) as [Hle | Hgt]; [left; reflexivity | ].
  right. exists k. split; [exact Hgt | ]. split; [reflexivity | ].
  destruct (Z.max_spec (Z.log2 n - (prec - 1)) (emin - e)) as [[_ Hk] | [_ Hk]];
    fold k in Hk.
  - left. exact Hk.
  - right. split; [exact Hk | ].
    assert (Hpos : 0 < n).
    { destruct (Z.eq_dec n 0) as [-> | Hnz]; [ | lia].
      change (Z.log2 0) with 0 in Hk. unfold prec in Hk. lia. }
    replace (prec - 1 + k) with (Z.log2 n) by lia.
    apply Z.log2_spec. exact Hpos.
Qed.

Lemma round_wf (n e : Z) :
  0 <= n -> emin <= e ->
  0 <= mant (round n e) /\ emin <= expo (round n e).
Proof.
  intros Hn He.
  destruct (round_cases n e Hn He) as [-> | (k & Hk & -> & _)]; simpl.
  - split; assumption.
  - split; [ | lia]. apply round_shift_ge; lia.
Qed.

Lemma round_le (n e b g : Z) :
  0 <= n -> emin <= e ->
  0 <= b < 2 ^ prec -> emin <= g ->
  scaled n e <= scaled b g ->
  sval (round n e) <= scaled b g.
Proof.
  intros Hn He Hb Hg Hle. unfold sval.
  destruct (round_cases n e Hn He) as [-> | (k & Hk & -> & Hwhich)];
    [exact Hle | ].
  cbn [mant expo]. unfold scaled in *.
  pose proof (pow2_pos (e - emin) ltac:(lia)) as Hpe.
  pose proof (pow2_pos k ltac:(lia)) as Hpk.
  destruct (Z_le_gt_dec (e + k) g) as [Hge | Hlt].
  - pose proof (pow2_pos (g - (e + k)) ltac:(lia)) as Hpd.
    replace (g - emin) with ((g - (e + k)) + k + (e - emin)) in Hle by lia.
    rewrite !Z.pow_add_r in Hle by lia.
    assert (Hn' : n <= b * 2 ^ (g - (e + k)) * 2 ^ k).
    { apply (Z.mul_le_mono_pos_r _ _ (2 ^ (e - emin))); [exact Hpe | ].
      rewrite <- !Z.mul_assoc in *. exact Hle. }
    pose proof (round_shift_le n k _ Hk Hn Hn') as Hrs.
    replace (g - emin) with ((g - (e + k)) + (e + k - emin)) by lia.
    rewrite Z.pow_add_r by lia. rewrite Z.mul_assoc.
    apply Z.mul_le_mono_nonneg_r; [ | exact Hrs].
    apply Z.lt_le_incl, pow2_pos. lia.
  - exfalso. destruct Hwhich as [Hk' | [Hk' Hbig]]; [lia | ].
    assert (H1 : 2 ^ (prec - 1 + k) * 2 ^ (e - emin) <= n * 2 ^ (e - emin)).
    { apply Z.mul_le_mono_nonneg_r; lia. }
    assert (H2 : b * 2 ^ (g - emin) < 2 ^ prec * 2 ^ (g - emin)).
    { apply Z.mul_lt_mono_pos_r; [apply pow2_pos; lia | lia]. }
    rewrite <- Z.pow_add_r in H1, H2 by (unfold prec; lia).
    assert (H3 : 2 ^ (prec + (g - emin)) <= 2 ^ (prec - 1 + k + (e - emin))).
    { apply Z.pow_le_mono_r; lia. }
    lia.
Qed.

Lemma round_ge (n e a g : Z) :
  0 <= n -> emin <= e ->
  0 <= a < 2 ^ prec -> emin <= g ->
  scaled a g <= scaled n e ->
  scaled a g <= sval (round n e).
Proof.
  intros Hn He Ha Hg Hle. unfold sval.
  destruct (round_cases n e Hn He) as [-> | (k & Hk & -> & Hwhich)];
    [exact Hle | ].
  cbn [mant expo]. unfold scaled in *.
  pose proof (pow2_pos (e - emin) ltac:(lia)) as Hpe.
  pose proof (pow2_pos k ltac:(lia)) as Hpk.
  destruct (Z_le_gt_dec (e + k) g) as [Hge | Hlt].
  - pose proof (pow2_pos (g - (e + k)) ltac:(lia)) as Hpd.
    replace (g - emin) with ((g - (e + k)) + k + (e - emin)) in Hle by lia.
    rewrite !Z.pow_add_r in Hle by lia.
    assert (Hn' : a * 2 ^ (g - (e + k)) * 2 ^ k <= n).
    { apply (Z.mul_le_mono_pos_r _ _ (2 ^ (e - emin))); [exact Hpe | ].
      rewrite <- !Z.mul_assoc in *. exact Hle. }
    pose proof (round_shift_ge n k _ Hk Hn Hn') as Hrs.
    replace (g - emin) with ((g - (e + k)) + (e + k - emin)) by lia.
    rewrite Z.pow_add_r by lia. rewrite Z.mul_assoc.
    apply Z.mul_le_mono_nonneg_r; [ | exact Hrs].
    apply Z.lt_le_incl, pow2_pos. lia.
  - destruct Hwhich as [Hk' | [Hk' Hbig]]; [lia | ].
    assert (Hq : 2 ^ (prec - 1) <= round_shift n k).
    { apply round_shift_ge; try lia.
      rewrite <- Z.pow_add_r by (unfold prec; lia). exact Hbig. }
    assert (H1 : 2 ^ (prec - 1) * 2 ^ (e + k - emin)
                 <= round_shift n k * 2 ^ (e + k - emin)).
    { apply Z.mul_le_mono_nonneg_r; [ | exact Hq].
      apply Z.lt_le_incl, pow2_pos. lia. }
    assert (H2 : a * 2 ^ (g - emin) <= 2 ^ prec * 2 ^ (g - emin)).
    { apply Z.mul_le_mono_nonneg_r; [ | lia].
      apply Z.lt_le_incl, pow2_pos. lia. }
    rewrite <- Z.pow_add_r in H1, H2 by (unfold prec; lia).
    assert (H3 : 2 ^ (prec + (g - emin)) <= 2 ^ (prec - 1 + (e + k - emin))).
    { apply Z.pow_le_mono_r; lia. }
    lia.
Qed.

Lemma scaled_split (n e : Z) (d : Z) :
  0 <= d -> emin <= e - d -> scaled n e = n * 2 ^ d * 2 ^ (e - d - emin).
Proof.
  intros Hd He. unfold scaled.
  replace (e - emin) with (d + (e - d - emin)) by lia.
  rewrite Z.pow_add_r by lia. apply Z.mul_assoc.
Qed.

(** The floor of a double between 100000 and 1000000 - 2^-33. *)
Lemma floor_bounds (y : t) :
  0 <= mant y -> emin <= expo y ->
  scaled 100000 0 <= sval y <= scaled top_sum (-33) ->
  100000 <= floor y <= 999999.
Proof.
  destruct y as [m e]. unfold sval. cbn [mant expo]. intros Hm He [Hlo Hhi].
  assert (Hhi' : scaled m e < scaled 1000000 0).
  { eapply Z.le_lt_trans; [exact Hhi | ].
    rewrite (scaled_split 1000000 0 33) by (unfold emin; lia).
    unfold scaled. change (0 - 33 - emin) with (-33 - emin).
    apply Z.mul_lt_mono_pos_r; [apply pow2_pos; unfold emin; lia | ].
    unfold top_sum. lia. }
  clear Hhi. unfold floor. cbn [mant expo].
  destruct (Z.leb_spec 0 e) as [Hpos | Hneg].
  - rewrite Z.shiftl_mul_pow2 by (unfold emin in *; lia).
    rewrite (scaled_split m e e) in Hlo, Hhi' by (unfold emin in *; lia).
    replace (e - e - emin) with (0 - emin) in Hlo, Hhi' by (unfold emin in *; lia).
    unfold scaled in Hlo, Hhi'.
    pose proof (pow2_pos (0 - emin) ltac:(unfold emin; lia)) as Hp.
    apply Z.mul_le_mono_pos_r in Hlo; [ | exact Hp].
    apply Z.mul_lt_mono_pos_r in Hhi'; [ | exact Hp].
    lia.
  - rewrite Z.shiftr_div_pow2 by (unfold emin in *; lia).
    pose proof (pow2_pos (- e) ltac:(unfold emin in *; lia)) as Hpd.
    rewrite (scaled_split 100000 0 (- e)) in Hlo by (unfold emin in *; lia).
    rewrite (scaled_split 1000000 0 (- e)) in Hhi' by (unfold emin in *; lia).
    unfold scaled in Hlo, Hhi'.
    replace (0 - - e - emin) with (e - emin) in Hlo, Hhi' by (unfold emin in *; lia).
    pose proof (pow2_pos (e - emin) ltac:(unfold emin in *; lia)) as Hp.
    apply Z.mul_le_mono_pos_r in Hlo; [ | exact Hp].
    apply Z.mul_lt_mono_pos_r in Hhi'; [ | exact Hp].
    split.
    + apply Z.div_le_lower_bound; lia.
    + assert (m / 2 ^ (- e) < 1000000); [ | lia].
      apply Z.div_lt_upper_bound; lia.
Qed.

(** Adding 100000 to a double of at most 900000 - 2^-33. *)
Lemma add_bounds (x : t) :
  0 <= mant x -> emin <= expo x ->
  sval x <= scaled top_product (-33) ->
  let y := add (of_int 100000) x in
  0 <= mant y /\ emin <= expo y
  /\ scaled 100000 0 <= sval y <= scaled top_sum (-33).
Proof.
  destruct x as [m e]. unfold sval. cbv zeta. cbn [mant expo]. intros Hm He Hx.
  unfold add, of_int. cbn [mant expo].
  set (e0 := Z.min 0 e).
  assert (He0 : emin <= e0 <= 0) by (unfold emin in *; lia).
  assert (He0' : e0 <= e) by (unfold emin in *; lia).
  rewrite !Z.shiftl_mul_pow2 by (unfold emin in *; lia).
  set (n := 100000 * 2 ^ (0 - e0) + m * 2 ^ (e - e0)).
  assert (Hn : 0 <= n).
  { unfold n. pose proof (pow2_pos (0 - e0) ltac:(unfold emin in *; lia)).
    pose proof (pow2_pos (e - e0) ltac:(unfold emin in *; lia)). nia. }
  assert (Hsn : scaled n e0 = scaled 100000 0 + scaled m e).
  { unfold n. unfold scaled at 1. rewrite Z.mul_add_distr_r.
    rewrite (scaled_split 100000 0 (0 - e0)) by (unfold emin in *; lia).
    rewrite (scaled_split m e (e - e0)) by (unfold emin in *; lia).
    replace (0 - (0 - e0) - emin) with (e0 - emin) by (unfold emin in *; lia).
    replace (e - (e - e0) - emin) with (e0 - emin) by (unfold emin in *; lia).
    reflexivity. }
  destruct (round_wf n e0 Hn ltac:(unfold emin in *; lia)) as [Hwm Hwe].
  split; [exact Hwm | ]. split; [exact Hwe | ].
  assert (Hm' : 0 <= scaled m e).
  { unfold scaled. pose proof (pow2_pos (e - emin) ltac:(unfold emin in *; lia)). nia. }
  split.
  - apply round_ge; try (unfold emin in *; lia).
    unfold prec. simpl. lia.
  - apply round_le; try (unfold emin in *; lia).
    + unfold prec, top_sum. simpl. lia.
    + rewrite Hsn.
      replace (scaled top_sum (-33))
        with (scaled 100000 0 + scaled top_product (-33)); [lia | ].
      rewrite (scaled_split 100000 0 33) by (unfold emin; lia).
      unfold scaled, top_sum, top_product.
      change (0 - 33 - emin) with (-33 - emin). lia.
Qed.

(** [Math.random() * 900000] is at most 900000 - 2^-33: the largest double
    below 1 is 1 - 2^-53, and the product with it rounds down. *)
Lemma mul_bounds (r : t) :
  wf r -> below_one r ->
  let x := mul r (of_int 900000) in
  0 <= mant x /\ emin <= expo x /\ sval x <= scaled top_product (-33).
Proof.
  destruct r as [m e]. unfold wf, below_one. cbv zeta. cbn [mant expo].
  intros [[Hm0 Hm53] He] Hb.
  unfold mul, of_int. cbn [mant expo]. rewrite Z.add_0_r.
  set (P := m * 900000).
  assert (HP : 0 <= P) by (unfold P; lia).
  destruct (round_wf P e HP He) as [Hwm Hwe].
  split; [exact Hwm | ]. split; [exact Hwe | ].
  assert (Htop : top_product = 7730941132799999) by reflexivity.
  assert (Hprec : 2 ^ prec = 9007199254740992) by reflexivity.
  destruct (Z_le_gt_dec (scaled P e) (scaled top_product (-33)))
    as [Hle | Hgt].
  { apply round_le; try assumption; unfold emin; lia. }
  (* the exact product lies above 900000 - 2^-33 *)
  assert (Hm : m <> 0).
  { intros ->. unfold P, scaled in Hgt. rewrite Z.mul_0_l, Htop in Hgt.
    pose proof (pow2_pos (-33 - emin) ltac:(unfold emin; lia)). lia. }
  destruct Hb as [Hb | [Hneg Hb]]; [contradiction | ].
  assert (Hd1 : 33 < - e).
  { destruct (Z_le_gt_dec (- e) 33) as [Hsmall | Hbig]; [exfalso | lia].
    rewrite (scaled_split P e (e + 33)) in Hgt by (unfold emin in *; lia).
    replace (e - (e + 33) - emin) with (-33 - emin) in Hgt by lia.
    unfold scaled in Hgt.
    pose proof (pow2_pos (-33 - emin) ltac:(unfold emin; lia)) as Hp.
    apply Z.gt_lt, Z.mul_lt_mono_pos_r in Hgt; [ | exact Hp].
    pose proof (pow2_pos (e + 33) ltac:(lia)) as HY.
    assert (H33 : 2 ^ (- e) * 2 ^ (e + 33) = 8589934592).
    { rewrite <- Z.pow_add_r by lia.
      replace (- e + (e + 33)) with 33 by lia. reflexivity. }
    assert (Hmul : (m + 1) * 2 ^ (e + 33) <= 2 ^ (- e) * 2 ^ (e + 33)).
    { apply Z.mul_le_mono_nonneg_r; lia. }
    unfold P in Hgt. nia. }
  assert (Hd2 : - e <= 53).
  { destruct (Z_le_gt_dec (- e) 53) as [Hsmall | Hbig]; [lia | exfalso].
    rewrite (scaled_split top_product (-33) (-33 - e)) in Hgt
      by (unfold emin in *; lia).
    replace (-33 - (-33 - e) - emin) with (e - emin) in Hgt by lia.
    unfold scaled in Hgt.
    pose proof (pow2_pos (e - emin) ltac:(lia)) as Hp.
    apply Z.gt_lt, Z.mul_lt_mono_pos_r in Hgt; [ | exact Hp].
    assert (H21 : 2 ^ 21 <= 2 ^ (-33 - e))
      by (apply Z.pow_le_mono_r; lia).
    change (2 ^ 21) with 2097152 in H21.
    unfold P in Hgt. nia. }
  set (k := - e - 33).
  assert (Hk : 0 < k <= 20) by (unfold k; lia).
  pose proof (pow2_pos k ltac:(lia)) as Hpk.
  assert (Hlow : top_product * 2 ^ k < P).
  { rewrite (scaled_split top_product (-33) k) in Hgt
      by (unfold emin, k in *; lia).
    replace (-33 - k - emin) with (e - emin) in Hgt by (unfold k; lia).
    unfold scaled in Hgt.
    pose proof (pow2_pos (e - emin) ltac:(lia)) as Hp.
    apply Z.gt_lt, Z.mul_lt_mono_pos_r in Hgt; [ | exact Hp].
    exact Hgt. }
  assert (Hpd : 2 ^ (- e) = 8589934592 * 2 ^ k).
  { replace (- e) with (33 + k) by (unfold k; lia).
    rewrite Z.pow_add_r by lia. reflexivity. }
  assert (Hup : P <= (top_product + 1) * 2 ^ k - 900000).
  { unfold P. rewrite Htop. nia. }
  assert (Hlog : Z.log2 P = 19 - e).
  { apply Z.log2_unique; [lia | ].
    replace (19 - e) with (52 + k) by (unfold k; lia).
    rewrite Z.pow_succ_r, Z.pow_add_r by lia.
    change (2 ^ 52) with 4503599627370496.
    rewrite Htop in *. lia. }
  assert (Hround : round P e = mk (round_shift P k) (e + k)).
  { unfold round. rewrite Hlog.
    replace (Z.max (19 - e - (prec - 1)) (emin - e)) with k
      by (unfold k, prec, emin in *; lia).
    destruct (Z.leb_spec k 0); [lia | reflexivity]. }
  assert (Hdiv : P / 2 ^ k = top_product).
  { apply Z.le_antisymm.
    - assert (P / 2 ^ k < top_product + 1); [ | lia].
      apply Z.div_lt_upper_bound; lia.
    - apply Z.div_le_lower_bound; lia. }
  assert (Hhalf : 2 ^ (k - 1) <= 524288).
  { change 524288 with (2 ^ 19). apply Z.pow_le_mono_r; lia. }
  assert (Hk2 : 2 ^ k = 2 * 2 ^ (k - 1)).
  { replace k with (1 + (k - 1)) at 1 by lia.
    rewrite Z.pow_add_r by lia. reflexivity. }
  destruct (round_shift_spec P k ltac:(lia) HP) as (r0 & Hr0 & Hdm & _ & Hdown).
  rewrite Hdiv in Hdm, Hdown.
  rewrite Hround. unfold sval. cbn [mant expo].
  rewrite Hdown by lia.
  replace (e + k) with (-33) by (unfold k; lia). lia.
Qed.

(** The number behind a reset code. *)
Lemma reset_code_range (r : t) :
  wf r -> below_one r ->
  100000 <= floor (add (of_int 100000) (mul r (of_int 900000))) <= 999999.
Proof.
  intros Hwf Hlt.
  destruct (mul_bounds r Hwf Hlt) as (Hm & He & Hx).
  destruct (add_bounds _ Hm He Hx) as (Hm' & He' & Hy).
  apply floor_bounds; assumption.
Qed.

End DoubleFacts.

(* ===================================================================== *)
(** * Forgotten password: the code and its expiry *)
(* ===================================================================== *)

Lemma toString_six_digits (k : Z) :
  100000 <= k <= 999999 ->
  String.length (toString k) = 6%nat
  /\ all_digits (toString k) = true
  /\ digits_value 0 (toString k) = k.
Proof.
  intros Hk. unfold toString.
  destruct (Z.ltb_spec k 0) as [Hneg | _]; [lia | ].
  split; [ | split].
  - unfold digits. apply (digits_fuel_length 5).
    + change (10 ^ Z.of_nat 5) with 100000.
      change (10 ^ Z.of_nat 6) with 1000000. lia.
    + assert (16 <= Z.log2 k).
      { change 16 with (Z.log2 65536). apply Z.log2_le_mono. lia. }
      lia.
  - apply digits_all_digits. lia.
  - apply digits_value_digits. lia.
Qed.

(** Every reset code is a string of six decimal digits that reads as a
    number from 100000 to 999999. *)
Lemma generateResetCode_six_digits (r : Double.t) :
  Double.wf r -> Double.below_one r ->
  String.length (generateResetCode r) = 6%nat
  /\ all_digits (generateResetCode r) = true
  /\ 100000 <= digits_value 0 (generateResetCode r) <= 999999.
Proof.
  intros Hwf Hlt. unfold generateResetCode.
  pose proof (DoubleFacts.reset_code_range r Hwf Hlt) as Hrange.
  destruct (toString_six_digits _ Hrange) as (Hlen & Hall & Hval).
  rewrite Hval. repeat split; try assumption; lia.
Qed.

Section ResetCode.

Context {F : FloatOps} {B : BcryptLib} {J : JwtLib}.

(** Once the user is found, ForgotPassword either completes, with the code
    and the expiry written on the rows of that id, or answers with the mail
    error. *)
Lemma forgot_password_outcomes (cfg : Config) (env : Env) (req : request)
    (w : World) (e : string) (u : Users.row) (rest : list Users.row) :
  req_body req "email" = JStr e ->
  e <> "" ->
  users_where_email (Some e) w = u :: rest ->
  (fst (forgot_password cfg env req w) = Return code_sent
   /\ users (snd (forgot_password cfg env req w))
      = map (set_reset (generateResetCode (random env))
                       (now env + 15 * 60 * 1000) (Users.id u))
            (users w))
  \/ (fst (forgot_password cfg env req w) = Return mail_error
      /\ (db_faults w <> [] \/ mail_faults w <> [])).
Proof.
  intros He Hne Hsel.
  unfold forgot_password. rewrite He.
  rewrite (proj2 (truthy_JStr e) Hne). cbn [negb pg_text].
  destruct w as [us useq gs gseq dbf mf lg]. simpl in Hsel.
  unfold try_catch, bind, select_users_by_email, update_user_reset,
    pool_query, sendMail, ret, throw.
  destruct dbf as [ | [ | ] dbf]; cbn; rewrite ?Hsel; cbn.
  2: { right. split; [reflexivity | left; discriminate]. }
  all: try destruct dbf as [ | [ | ] dbf]; cbn.
  all: try (right; split; [reflexivity | left; discriminate]).
  all: destruct mf as [ | [ | ] mf]; cbn.
  all: try (right; split; [reflexivity | right; discriminate]).
  all: left; split; reflexivity.
Qed.

(** C6.  For an existing user and any value of [Math.random()] (a double
    below 1), the reset code is a string of six decimal digits whose value
    lies between 100000 and 999999; when the store and the transport answer,
    ForgotPassword succeeds; and whenever it succeeds, the row of the user
    holds that code and an expiry of exactly 15 minutes (900000 ms) after the
    time of the request. *)
Theorem forgot_password_code_and_expiry (cfg : Config) (env : Env)
    (req : request) (w : World) (e : string) (u : Users.row)
    (rest : list Users.row) :
  req_body req "email" = JStr e ->
  e <> "" ->
  users_where_email (Some e) w = u :: rest ->
  Double.wf (random env) ->
  Double.below_one (random env) ->
  let code := generateResetCode (random env) in
  (String.length code = 6%nat
   /\ all_digits code = true
   /\ 100000 <= digits_value 0 code <= 999999)
  /\ (db_faults w = [] -> mail_faults w = [] ->
      fst (forgot_password cfg env req w) = Return code_sent)
  /\ (forall resp,
         fst (forgot_password cfg env req w) = Return resp ->
         status resp = 200 ->
         exists u' rest',
           users_where_email (Some e) (snd (forgot_password cfg env req w))
           = u' :: rest'
           /\ Users.id u' = Users.id u
           /\ Users.reset_token u' = Some code
           /\ Users.reset_expires u' = Some (now env + 900000)).
Proof.
  intros He Hne Hsel Hwf Hlt code.
  split; [apply generateResetCode_six_digits; assumption | ].
  destruct (forgot_password_outcomes cfg env req w e u rest He Hne Hsel)
    as [[Hresp Husers] | [Hresp Hfault]].
  - split; [intros _ _; exact Hresp | ].
    intros resp _ _.
    unfold users_where_email in *.
    rewrite Husers, filter_map_set_reset, Hsel. cbn [map].
    eexists. eexists. split; [reflexivity | ].
    unfold set_reset. rewrite Z.eqb_refl. cbn. repeat split.
  - split.
    + intros Hdb Hmf. destruct Hfault as [Hf | Hf]; contradiction.
    + intros resp Hr Hst. rewrite Hresp in Hr. injection Hr as <-.
      discriminate Hst.
Qed.

End ResetCode.

Lemma forgot_password_code_and_expiry_witness :
  let req :=
    Run.post "/auth/forgot-password" None [("email", JStr "ana@x.com")] in
  let w := Run.with_users [Run.ana] in
  Double.wf (random Run.env)
  /\ Double.below_one (random Run.env)
  /\ generateResetCode (random Run.env) = "550000"
  /\ fst (forgot_password (F := Run.F) Run.cfg Run.env req w)
     = Return code_sent
  /\ users (snd (forgot_password (F := Run.F) Run.cfg Run.env req w))
     = [Run.ana_pending].
Proof.
  intros req w.
  assert (Hwf : Double.wf (random Run.env)).
  { vm_compute. repeat split; discriminate. }
  assert (Hlt : Double.below_one (random Run.env)).
  { right. vm_compute. repeat split; discriminate. }
  split; [exact Hwf | ]. split; [exact Hlt | ].
  split; [reflexivity | ]. split; [ | reflexivity].
  refine (proj1 (proj2 (forgot_password_code_and_expiry
                          (F := Run.F) Run.cfg Run.env req w
                          "ana@x.com" Run.ana [] eq_refl _ eq_refl Hwf Hlt))
                eq_refl eq_refl).
  discriminate.
Defined.

Lemma login_non_string_password_witness :
  let w := Run.with_users [Run.ana] in
  let req1 :=
    Run.post "/auth/login" None
             [("email", JStr "ana@x.com"); ("password", JNum 123)] in
  let req2 :=
    Run.post "/auth/login" None
             [("email", JStr "bob@x.com"); ("password", JNum 123)] in
  fst (login (B := Run.B) (J := Run.J) Run.cfg Run.env req1 w)
  = Return server_error
  /\ fst (login (B := Run.B) (J := Run.J) Run.cfg Run.env req2 w)
     = Return bad_credentials.
Proof.
  intros w req1 req2. split.
  - refine (login_non_string_password
              (B := Run.B) (J := Run.J) Run.cfg Run.env req1 w "ana@x.com"
              eq_refl _ eq_refl _ eq_refl); discriminate.
  - refine (login_non_string_password
              (B := Run.B) (J := Run.J) Run.cfg Run.env req2 w "bob@x.com"
              eq_refl _ eq_refl _ eq_refl); discriminate.
Defined.

(* ===================================================================== *)
(** * What the routes keep *)
(* ===================================================================== *)

Section FrameFacts.

Context {F : FloatOps} {B : BcryptLib} {J : JwtLib}.

Lemma same_tables_refl (w : World) : same_tables w w.
Proof. repeat split. Qed.

Lemma keeps_ret {A} P (a : A) : keeps P (ret a).
Proof. intros w H. exact H. Qed.

Lemma keeps_throw {A} P : keeps P (@throw F A).
Proof. intros w H. exact H. Qed.

Lemma keeps_bind {A C} P (m : M A) (k : A -> M C) :
  keeps P m -> (forall a, keeps P (k a)) -> keeps P (bind m k).
Proof.
  intros Hm Hk w H. unfold bind.
  specialize (Hm w H). destruct (m w) as [[a | ] w']; simpl in *.
  - apply Hk. exact Hm.
  - exact Hm.
Qed.

Lemma keeps_try_catch {A} P (m h : M A) :
  keeps P m -> keeps P h -> keeps P (try_catch m h).
Proof.
  intros Hm Hh w H. unfold try_catch.
  specialize (Hm w H). destruct (m w) as [[a | ] w']; simpl in *.
  - exact Hm.
  - apply Hh. exact Hm.
Qed.

Lemma keeps_pool_query {A} P (e : effect)
    (exec : World -> outcome A * World) :
  on_tables P ->
  (forall w, P w -> P (snd (exec w))) ->
  keeps P (pool_query e exec).
Proof.
  intros Htab Hexec w H. unfold pool_query.
  destruct (db_faults w) as [ | [ | ] rest]; simpl.
  - assert (H1 : P (set_db_faults [] w))
      by (apply (Htab w); [repeat split | exact H]).
    specialize (Hexec _ H1).
    destruct (exec (set_db_faults [] w)) as [[a | ] w']; simpl in *;
      apply (Htab w'); try exact Hexec; repeat split.
  - apply (Htab w); [repeat split | exact H].
  - assert (H1 : P (set_db_faults rest w))
      by (apply (Htab w); [repeat split | exact H]).
    specialize (Hexec _ H1).
    destruct (exec (set_db_faults rest w)) as [[a | ] w']; simpl in *;
      apply (Htab w'); try exact Hexec; repeat split.
Qed.

Lemma keeps_read {A} P (e : effect) (f : World -> A) :
  on_tables P -> keeps P (pool_query e (fun w => (Return (f w), w))).
Proof. intros Htab. apply keeps_pool_query; [exact Htab | ]. intros w H. exact H. Qed.

Lemma keeps_sendMail P (m : mail) : on_tables P -> keeps P (sendMail m).
Proof.
  intros Htab w H. unfold sendMail.
  destruct (mail_faults w) as [ | [ | ] rest]; simpl;
    apply (Htab w); try exact H; repeat split.
Qed.

Lemma keeps_insert_user P (n e : option string) (h : string) :
  on_tables P -> closed_insert_user P -> keeps P (insert_user n e h).
Proof.
  intros Htab [Hseq Hins]. apply keeps_pool_query; [exact Htab | ].
  intros w H. destruct n as [n' | ], e as [e' | ]; simpl; try exact H.
  destruct (existsb (email_is e') (users w)) eqn:Hex; simpl.
  - apply Hseq. exact H.
  - apply Hins; assumption.
Qed.

Lemma keeps_bcrypt_hash_js P (d : prim) (rounds : Z) (s : string) :
  keeps P (bcrypt_hash_js d rounds s).
Proof. destruct d; intros w H; exact H. Qed.

Lemma keeps_bcrypt_compare_js P (d : prim) (h : string) :
  keeps P (bcrypt_compare_js d h).
Proof. destruct d; intros w H; exact H. Qed.

Lemma keeps_generateToken P (cfg : Config) (env : Env) (u : Users.row) :
  keeps P (generateToken cfg env u).
Proof.
  unfold generateToken. destruct (configured (JWT_SECRET cfg));
    intros w H; exact H.
Qed.

Ltac keep_step :=
  match goal with
  | |- keeps _ (ret _) => apply keeps_ret
  | |- keeps _ throw => apply keeps_throw
  | |- keeps _ (try_catch _ _) => apply keeps_try_catch
  | |- keeps _ (bind _ _) => apply keeps_bind; [ | intros ? ]
  | |- keeps _ (select_users_by_email _) => apply keeps_read; assumption
  | |- keeps _ (insert_user _ _ _) => apply keeps_insert_user; assumption
  | |- keeps _ (bcrypt_hash_js _ _ _) => apply keeps_bcrypt_hash_js
  | |- keeps _ (bcrypt_compare_js _ _) => apply keeps_bcrypt_compare_js
  | |- keeps _ (generateToken _ _ _) => apply keeps_generateToken
  | |- keeps _ (sendMail _) => apply keeps_sendMail; assumption
  | |- keeps _ (pool_query _ _) => apply keeps_pool_query; [assumption | ]
  | |- keeps _ (if ?c then _ else _) => destruct c
  | |- keeps _ (match ?l with [] => _ | _ :: _ => _ end) => destruct l
  end.

Lemma register_keeps P (env : Env) (req : request) :
  on_tables P -> closed_insert_user P -> keeps P (register env req).
Proof. intros Htab Hins. unfold register. cbv zeta. repeat keep_step. Qed.

Lemma login_keeps P (cfg : Config) (env : Env) (req : request) :
  on_tables P -> keeps P (login cfg env req).
Proof. intros Htab. unfold login. cbv zeta. repeat keep_step. Qed.

Lemma forgot_password_keeps P (cfg : Config) (env : Env) (req : request) :
  on_tables P -> closed_set_reset P -> keeps P (forgot_password cfg env req).
Proof.
  intros Htab Hreset. unfold forgot_password, update_user_reset. cbv zeta.
  repeat keep_step. intros w H. apply Hreset. exact H.
Qed.

Lemma reset_password_keeps P (env : Env) (req : request) :
  on_tables P -> closed_set_password P -> keeps P (reset_password env req).
Proof.
  intros Htab Hpass. unfold reset_password, update_user_password. cbv zeta.
  repeat keep_step. intros w H. apply Hpass. exact H.
Qed.

Lemma stats_update_keeps P (req : request) (user : Claims.t) :
  on_tables P -> closed_insert_stats P -> closed_update_stats P ->
  keeps P (stats_update req user).
Proof.
  intros Htab Hins Hupd.
  unfold stats_update, select_game_stats, insert_game_stats,
    update_game_stats. cbv zeta.
  repeat keep_step.
  - intros w H. exact H.
  - intros w H. apply Hins. exact H.
  - intros w H. apply Hupd. exact H.
Qed.

Lemma stats_me_keeps P (req : request) (user : Claims.t) :
  on_tables P -> keeps P (stats_me req user).
Proof.
  intros Htab. unfold stats_me, select_game_stats_of_user. cbv zeta.
  repeat keep_step. intros w H. exact H.
Qed.

Lemma ranking_loop_keeps P (gs : list string)
    (ranking : list (string * json)) :
  on_tables P -> keeps P (ranking_loop gs ranking).
Proof.
  intros Htab. revert ranking.
  induction gs as [ | game gs IH]; intros ranking; simpl.
  - apply keeps_ret.
  - apply keeps_bind; [ | intros result; apply IH].
    apply keeps_read. exact Htab.
Qed.

Lemma stats_ranking_keeps P (req : request) :
  on_tables P -> keeps P (stats_ranking req).
Proof.
  intros Htab. unfold stats_ranking.
  apply keeps_try_catch; [ | apply keeps_ret].
  apply keeps_bind; [apply ranking_loop_keeps; exact Htab | ].
  intros ranking. apply keeps_ret.
Qed.

Lemma authenticateToken_keeps P (cfg : Config) (env : Env)
    (req : request) (next : Claims.t -> M response) :
  (forall user, keeps P (next user)) ->
  keeps P (authenticateToken cfg env req next).
Proof.
  intros Hnext. unfold authenticateToken.
  destruct (bearer_token (authorization req)) as [token | ];
    [ | apply keeps_ret].
  destruct (String.eqb token ""); [apply keeps_ret | ].
  destruct (jwt_verify token (JWT_SECRET cfg) (seconds (now env)));
    [apply Hnext | apply keeps_ret].
Qed.

(** The rule of invariants: a property of the tables that is closed under
    the five writes of the source is kept by every route. *)
Lemma app_keeps P (cfg : Config) (env : Env) (req : request) :
  on_tables P ->
  closed_insert_user P -> closed_set_reset P -> closed_set_password P ->
  closed_insert_stats P -> closed_update_stats P ->
  keeps P (app cfg env req).
Proof.
  intros Htab H1 H2 H3 H4 H5. unfold app. cbv zeta.
  repeat match goal with
         | |- keeps _ (if ?c then _ else _) => destruct c
         end.
  - apply keeps_ret.
  - apply register_keeps; assumption.
  - apply login_keeps; assumption.
  - apply forgot_password_keeps; assumption.
  - apply reset_password_keeps; assumption.
  - apply authenticateToken_keeps. intros user.
    apply stats_update_keeps; assumption.
  - apply authenticateToken_keeps. intros user.
    apply stats_me_keeps; assumption.
  - apply stats_ranking_keeps; assumption.
  - apply keeps_ret.
Qed.

Lemma serve_keeps P (cfg : Config) (steps : list (Env * request)) (w : World) :
  (forall env req, keeps P (app cfg env req)) ->
  P w -> P (serve cfg steps w).
Proof.
  intros Hstep. revert w.
  induction steps as [ | step steps IH]; intros w H; simpl.
  - exact H.
  - apply IH. apply Hstep. exact H.
Qed.

End FrameFacts.

(* ===================================================================== *)
(** * Invariants of the tables *)
(* ===================================================================== *)

Lemma NoDup_snoc {A} (l : list A) (a : A) :
  NoDup l -> ~ In a l -> NoDup (l ++ [a]).
Proof.
  induction l as [ | x l IH]; simpl; intros Hl Ha.
  - constructor; [intros [] | constructor].
  - inversion Hl as [ | ? ? Hx Hl']; subst. constructor.
    + rewrite in_app_iff. simpl. intros [H | [H | []]]; [tauto | ].
      subst. tauto.
    + apply IH; tauto.
Qed.

Lemma existsb_email_is (e : string) (us : list Users.row) :
  existsb (email_is e) us = false -> ~ In e (map Users.email us).
Proof.
  induction us as [ | u us IH]; simpl; intros H; [tauto | ].
  apply orb_false_iff in H. destruct H as [Hu Hus].
  intros [Heq | Hin]; [ | exact (IH Hus Hin)].
  unfold email_is in Hu. apply String.eqb_neq in Hu. congruence.
Qed.

Lemma map_email_set_reset (code : string) (expires uid : Z)
    (us : list Users.row) :
  map Users.email (map (set_reset code expires uid) us) = map Users.email us.
Proof.
  rewrite map_map. apply map_ext. intros r. apply set_reset_email.
Qed.

Lemma set_password_email (h : string) (uid : Z) (r : Users.row) :
  Users.email (set_password h uid r) = Users.email r.
Proof. unfold set_password. destruct (Users.id r =? uid); reflexivity. Qed.

Lemma set_password_id (h : string) (uid : Z) (r : Users.row) :
  Users.id (set_password h uid r) = Users.id r.
Proof. unfold set_password. destruct (Users.id r =? uid); reflexivity. Qed.

Lemma set_reset_id (code : string) (expires uid : Z) (r : Users.row) :
  Users.id (set_reset code expires uid r) = Users.id r.
Proof. unfold set_reset. destruct (Users.id r =? uid); reflexivity. Qed.

Lemma map_email_set_password (h : string) (uid : Z) (us : list Users.row) :
  map Users.email (map (set_password h uid) us) = map Users.email us.
Proof.
  rewrite map_map. apply map_ext. intros r. apply set_password_email.
Qed.

Lemma filter_unique_email (e : string) (us : list Users.row) :
  NoDup (map Users.email us) ->
  (List.length (filter (email_is e) us) <= 1)%nat.
Proof.
  induction us as [ | u us IH]; simpl; intros Hnd; [lia | ].
  inversion Hnd as [ | ? ? Hu Hus]; subst.
  destruct (email_is e u) eqn:He; [ | apply IH; exact Hus].
  unfold email_is in He. apply String.eqb_eq in He.
  assert (Hnone : filter (email_is e) us = []).
  { destruct (filter (email_is e) us) as [ | v l] eqn:Hf; [reflexivity | ].
    exfalso. apply Hu.
    assert (Hv : In v (filter (email_is e) us)) by (rewrite Hf; left; reflexivity).
    apply filter_In in Hv. destruct Hv as [Hin Hv].
    unfold email_is in Hv. apply String.eqb_eq in Hv.
    rewrite He, <- Hv. apply in_map. exact Hin. }
  rewrite Hnone. simpl. lia.
Qed.

Section Invariants.

Context {F : FloatOps} {B : BcryptLib} {J : JwtLib}.

Lemma emails_unique_app (cfg : Config) (env : Env) (req : request) :
  keeps emails_unique (app cfg env req).
Proof.
  apply app_keeps; unfold emails_unique.
  - intros w w' (Hu & _) H. rewrite <- Hu. exact H.
  - split; [intros w H; exact H | ].
    intros w n e h H Hex. simpl. rewrite map_app. simpl.
    apply NoDup_snoc; [exact H | apply existsb_email_is; exact Hex].
  - intros w code expires uid H. simpl. rewrite map_email_set_reset. exact H.
  - intros w h uid H. simpl. rewrite map_email_set_password. exact H.
  - intros w uid gt hours high total H. exact H.
  - intros w hours total high sid H. exact H.
Qed.

(** X2.  Whatever requests are served, with whatever faults of the store
    and of the transport, no two rows of [users] come to share an email;
    so a [SELECT ... WHERE email = $1] finds at most one row. *)
Theorem emails_stay_unique (cfg : Config) (steps : list (Env * request))
    (w : World) :
  emails_unique w ->
  emails_unique (serve cfg steps w)
  /\ forall e,
      (List.length (users_where_email e (serve cfg steps w)) <= 1)%nat.
Proof.
  intros H.
  assert (H' : emails_unique (serve cfg steps w)).
  { apply serve_keeps; [ | exact H]. intros env req. apply emails_unique_app. }
  split; [exact H' | ].
  intros [e | ]; simpl; [ | lia].
  apply filter_unique_email. exact H'.
Qed.

Lemma Forall_lt_le {A} (f : A -> Z) (n : Z) (l : list A) :
  Forall (fun r => f r < n) l -> Forall (fun r => f r < n + 1) l.
Proof. apply Forall_impl. intros r Hr. lia. Qed.

Lemma Forall_lt_not_in {A} (f : A -> Z) (n : Z) (l : list A) :
  Forall (fun r => f r < n) l -> ~ In n (map f l).
Proof.
  intros Hall Hin. apply in_map_iff in Hin. destruct Hin as (r & Hr & Hin).
  rewrite Forall_forall in Hall. specialize (Hall r Hin). lia.
Qed.

Lemma set_stats_id (hours : float) (total high sid : Z) (r : GameStats.row) :
  GameStats.id (set_stats hours total high sid r) = GameStats.id r.
Proof. unfold set_stats. destruct (GameStats.id r =? sid); reflexivity. Qed.

Lemma ids_fresh_app (cfg : Config) (env : Env) (req : request) :
  keeps ids_fresh (app cfg env req).
Proof.
  apply app_keeps; unfold ids_fresh.
  - intros w w' (Hu & Hs & Hg & Hgs) H.
    rewrite <- Hu, <- Hs, <- Hg, <- Hgs. exact H.
  - split.
    + intros w (H1 & H2 & H3 & H4). simpl.
      repeat split; try assumption. apply Forall_lt_le. exact H2.
    + intros w n e h (H1 & H2 & H3 & H4) _. simpl.
      repeat split; try assumption.
      * rewrite map_app. simpl. apply NoDup_snoc; [exact H1 | ].
        apply Forall_lt_not_in. exact H2.
      * apply Forall_app. split; [apply Forall_lt_le; exact H2 | ].
        constructor; [simpl; lia | constructor].
  - intros w code expires uid (H1 & H2 & H3 & H4). simpl.
    repeat split; try assumption.
    + rewrite map_map.
      rewrite (map_ext _ Users.id (set_reset_id code expires uid)). exact H1.
    + apply Forall_map. revert H2. apply Forall_impl.
      intros r Hr. rewrite set_reset_id. exact Hr.
  - intros w h uid (H1 & H2 & H3 & H4). simpl.
    repeat split; try assumption.
    + rewrite map_map.
      rewrite (map_ext _ Users.id (set_password_id h uid)). exact H1.
    + apply Forall_map. revert H2. apply Forall_impl.
      intros r Hr. rewrite set_password_id. exact Hr.
  - intros w uid gt hours high total (H1 & H2 & H3 & H4). simpl.
    repeat split; try assumption.
    + rewrite map_app. simpl. apply NoDup_snoc; [exact H3 | ].
      apply Forall_lt_not_in. exact H4.
    + apply Forall_app. split; [apply Forall_lt_le; exact H4 | ].
      constructor; [simpl; lia | constructor].
  - intros w hours total high sid (H1 & H2 & H3 & H4). simpl.
    repeat split; try assumption.
    + rewrite map_map.
      rewrite (map_ext _ GameStats.id (set_stats_id hours total high sid)).
      exact H3.
    + apply Forall_map. revert H4. apply Forall_impl.
      intros r Hr. rewrite set_stats_id. exact Hr.
Qed.

Lemma filter_unique_id {A} (f : A -> Z) (k : Z) (l : list A) :
  NoDup (map f l) ->
  (List.length (filter (fun r => (f r =? k)%Z) l) <= 1)%nat.
Proof.
  induction l as [ | x l IH]; simpl; intros Hnd; [lia | ].
  inversion Hnd as [ | ? ? Hx Hl]; subst.
  destruct (f x =? k) eqn:E; [ | apply IH; exact Hl].
  apply Z.eqb_eq in E.
  assert (Hnone : filter (fun r => f r =? k) l = []).
  { destruct (filter (fun r => f r =? k) l) as [ | y l'] eqn:Hf;
      [reflexivity | ].
    exfalso. apply Hx.
    assert (Hy : In y (filter (fun r => f r =? k) l))
      by (rewrite Hf; left; reflexivity).
    apply filter_In in Hy. destruct Hy as [Hin Hy].
    apply Z.eqb_eq in Hy. rewrite E, <- Hy. apply in_map. exact Hin. }
  rewrite Hnone. simpl. lia.
Qed.

(** X3.  Whatever requests are served, the ids of [users] and of
    [game_stats] stay pairwise distinct and below the serial counters: an
    id is never given twice, so an [UPDATE ... WHERE id = $n] of either
    table changes at most one row. *)
Theorem ids_stay_fresh (cfg : Config) (steps : list (Env * request))
    (w : World) :
  ids_fresh w ->
  ids_fresh (serve cfg steps w)
  /\ forall n,
      (List.length (filter (fun r => (Users.id r =? n)%Z)
                           (users (serve cfg steps w))) <= 1)%nat
      /\ (List.length (filter (fun r => (GameStats.id r =? n)%Z)
                              (game_stats (serve cfg steps w))) <= 1)%nat.
Proof.
  intros H.
  assert (H' : ids_fresh (serve cfg steps w)).
  { apply serve_keeps; [ | exact H]. intros env req. apply ids_fresh_app. }
  split; [exact H' | ].
  destruct H' as (H1 & _ & H3 & _).
  intros n. split; apply filter_unique_id; assumption.
Qed.

End Invariants.

(* ===================================================================== *)
(** * What each route leaves alone *)
(* ===================================================================== *)

Lemma without_reset_set_reset (code : string) (expires uid : Z)
    (r : Users.row) :
  without_reset (set_reset code expires uid r) = without_reset r.
Proof. unfold set_reset. destruct (Users.id r =? uid); reflexivity. Qed.

Lemma identity_set_password (h : string) (uid : Z) (r : Users.row) :
  identity (set_password h uid r) = identity r.
Proof. unfold set_password. destruct (Users.id r =? uid); reflexivity. Qed.

Section Frame.

Context {F : FloatOps} {B : BcryptLib} {J : JwtLib}.

Lemma same_tables_on_tables (w0 : World) : on_tables (same_tables w0).
Proof.
  intros w w' (H1 & H2 & H3 & H4) (G1 & G2 & G3 & G4).
  repeat split; congruence.
Qed.

(** X4.  Login, the profile and the ranking never write: whatever the
    request and the faults, they leave both tables and both serial counters
    as they were. *)
Theorem reading_routes_write_nothing (cfg : Config) (env : Env)
    (req : request) (user : Claims.t) (w : World) :
  same_tables w (snd (login cfg env req w))
  /\ same_tables w (snd (stats_me req user w))
  /\ same_tables w (snd (stats_ranking req w)).
Proof.
  pose proof (same_tables_on_tables w) as Htab.
  split; [ | split].
  - apply (login_keeps _ cfg env req Htab). apply same_tables_refl.
  - apply (stats_me_keeps _ req user Htab). apply same_tables_refl.
  - apply (stats_ranking_keeps _ req Htab). apply same_tables_refl.
Qed.

(** X5.  The account routes never touch [game_stats], and a statistics
    update never touches [users]: whatever the request and the faults, the
    other table and its serial counter are as they were. *)
Theorem routes_keep_the_other_table (cfg : Config) (env : Env)
    (req : request) (user : Claims.t) (w : World) :
  (forall m,
      In m [register env req; forgot_password cfg env req;
            reset_password env req] ->
      game_stats (snd (m w)) = game_stats w
      /\ game_stats_seq (snd (m w)) = game_stats_seq w)
  /\ users (snd (stats_update req user w)) = users w
  /\ users_seq (snd (stats_update req user w)) = users_seq w.
Proof.
  split.
  - set (P := fun w' : World =>
                game_stats w' = game_stats w
                /\ game_stats_seq w' = game_stats_seq w).
    assert (Htab : on_tables P).
    { intros w1 w2 (_ & _ & H3 & H4) (G1 & G2). split; congruence. }
    assert (Hins : closed_insert_user P).
    { split; [intros w1 H; exact H | intros w1 n e h H _; exact H]. }
    assert (Hreset : closed_set_reset P) by (intros w1 c x u H; exact H).
    assert (Hpass : closed_set_password P) by (intros w1 h u H; exact H).
    assert (H0 : P w) by (split; reflexivity).
    intros m [<- | [<- | [<- | []]]].
    + exact (register_keeps P env req Htab Hins w H0).
    + exact (forgot_password_keeps P cfg env req Htab Hreset w H0).
    + exact (reset_password_keeps P env req Htab Hpass w H0).
  - set (P := fun w' : World =>
                users w' = users w /\ users_seq w' = users_seq w).
    assert (Htab : on_tables P).
    { intros w1 w2 (H1 & H2 & _) (G1 & G2). split; congruence. }
    assert (Hins : closed_insert_stats P) by (intros w1 u g h x t H; exact H).
    assert (Hupd : closed_update_stats P) by (intros w1 h t x s H; exact H).
    assert (H0 : P w) by (split; reflexivity).
    exact (stats_update_keeps P req user Htab Hins Hupd w H0).
Qed.

(** X6.  ForgotPassword changes nothing but reset columns: whatever the
    request and the faults, every row keeps its id, name, email and password
    hash, no row is added or removed, and no id is consumed. *)
Theorem forgot_password_only_reset_columns (cfg : Config) (env : Env)
    (req : request) (w : World) :
  map without_reset (users (snd (forgot_password cfg env req w)))
  = map without_reset (users w)
  /\ users_seq (snd (forgot_password cfg env req w)) = users_seq w.
Proof.
  set (P := fun w' : World =>
              map without_reset (users w') = map without_reset (users w)
              /\ users_seq w' = users_seq w).
  assert (Htab : on_tables P).
  { intros w1 w2 (H1 & H2 & _) (G1 & G2). split; congruence. }
  assert (Hreset : closed_set_reset P).
  { intros w1 c x u (G1 & G2). split; [ | exact G2]. simpl.
    rewrite map_map, <- G1. apply map_ext.
    intros r. apply without_reset_set_reset. }
  assert (H0 : P w) by (split; reflexivity).
  exact (forgot_password_keeps P cfg env req Htab Hreset w H0).
Qed.

(** X7.  ResetPassword never changes who a user is: whatever the request
    and the faults, every row keeps its id, name and email, no row is added
    or removed, and no id is consumed. *)
Theorem reset_password_keeps_identities (env : Env) (req : request)
    (w : World) :
  map identity (users (snd (reset_password env req w)))
  = map identity (users w)
  /\ users_seq (snd (reset_password env req w)) = users_seq w.
Proof.
  set (P := fun w' : World =>
              map identity (users w') = map identity (users w)
              /\ users_seq w' = users_seq w).
  assert (Htab : on_tables P).
  { intros w1 w2 (H1 & H2 & _) (G1 & G2). split; congruence. }
  assert (Hpass : closed_set_password P).
  { intros w1 h u (G1 & G2). split; [ | exact G2]. simpl.
    rewrite map_map, <- G1. apply map_ext.
    intros r. apply identity_set_password. }
  assert (H0 : P w) by (split; reflexivity).
  exact (reset_password_keeps P env req Htab Hpass w H0).
Qed.

End Frame.

(* ===================================================================== *)
(** * Registration *)
(* ===================================================================== *)

Lemma truthy_pg_text (v : prim) :
  truthy v = true -> exists s, pg_text v = Some s.
Proof.
  destruct v as [ | | [ | ] | z | s | x]; simpl; intros H; try discriminate;
    eexists; reflexivity.
Qed.

Section Registration.

Context {F : FloatOps} {B : BcryptLib} {J : JwtLib}.

Lemma register_cases (env : Env) (req : request) (w : World) :
  (exists m,
      fst (register env req w) = Return (json_response 400 (msg m))
      /\ users (snd (register env req w)) = users w
      /\ users_seq (snd (register env req w)) = users_seq w)
  \/ (fst (register env req w) = Return server_error
      /\ users (snd (register env req w)) = users w)
  \/ (exists n e p,
         pg_text (req_body req "name") = Some n
         /\ pg_text (req_body req "email") = Some e
         /\ req_body req "password" = JStr p
         /\ users_where_email (Some e) w = []
         /\ let row :=
              Users.mk (users_seq w) n e (bcrypt_hash p 10 (salt env))
                       None None in
            fst (register env req w)
            = Return (json_response 201
                        (JObject [("msg", JV (JStr "Conta criada com sucesso."));
                                  ("user", public_user row)]))
            /\ users (snd (register env req w)) = (users w ++ [row])%list
            /\ users_seq (snd (register env req w)) = users_seq w + 1).
Proof.
  unfold register. cbv zeta.
  destruct (negb (truthy (req_body req "name"))
            || negb (truthy (req_body req "email"))
            || negb (truthy (req_body req "password"))) eqn:Hv.
  { left. eexists. repeat split. }
  apply orb_false_iff in Hv. destruct Hv as [Hv Hp].
  apply orb_false_iff in Hv. destruct Hv as [Hn He].
  apply negb_false_iff in Hn. apply negb_false_iff in He.
  apply negb_false_iff in Hp.
  destruct (truthy_pg_text _ Hn) as [n Hn'].
  destruct (truthy_pg_text _ He) as [e He'].
  rewrite Hn', He'.
  destruct w as [us useq gs gseq dbf mf lg].
  unfold try_catch, bind, select_users_by_email, insert_user, pool_query, ret.
  cbn [db_faults users users_seq set_db_faults users_where_email logged
       set_users set_users_seq fst snd tl].
  destruct dbf as [ | [ | ] dbf]; cbn.
  2: { right. left. split; reflexivity. }
  all: destruct (filter (email_is e) us) as [ | u rest] eqn:Hsel; cbn.
  all: try (left; eexists; repeat split; fail).
  all: destruct (req_body req "password") as [ | | b | z | p | x] eqn:Hpw; cbn.
  all: try (right; left; split; reflexivity).
  all: rewrite (filter_nil_existsb _ _ Hsel).
  all: try destruct dbf as [ | [ | ] dbf]; cbn.
  all: try (right; left; split; reflexivity).
  all: right; right; exists n, e, p; repeat split; assumption.
Qed.

End Registration.

Section RegistrationFacts.

Context {F : FloatOps} {B : BcryptLib} {J : JwtLib}.

(** X8.  Register with an email that a row already has: when the store
    answers the lookup, the answer is 400 "Email já cadastrado.", whatever
    the name and the password, and nothing is written: the lookup is the
    only statement sent, the password is not even hashed. *)
Theorem register_duplicate_email (env : Env) (req : request) (w : World)
    (e : string) :
  truthy (req_body req "name") = true ->
  truthy (req_body req "email") = true ->
  truthy (req_body req "password") = true ->
  pg_text (req_body req "email") = Some e ->
  users_where_email (Some e) w <> [] ->
  hd false (db_faults w) = false ->
  register env req w
  = (Return (json_response 400 (msg "Email já cadastrado.")),
     logged (SelectUsersByEmail (Some e)) true
            (set_db_faults (tl (db_faults w)) w)).
Proof.
  intros Hn He Hp Hpg Hsel Hf.
  unfold register. cbv zeta. rewrite Hn, He, Hp, Hpg. cbn [negb orb].
  unfold try_catch, bind, select_users_by_email, pool_query, ret.
  destruct (db_faults w) as [ | [ | ] dbf] eqn:Hdb; try discriminate Hf;
    cbn [tl]; cbn [users_where_email] in *.
  - replace (users (set_db_faults [] w)) with (users w) by reflexivity.
    destruct (filter (email_is e) (users w)); [congruence | reflexivity].
  - replace (users (set_db_faults dbf w)) with (users w) by reflexivity.
    destruct (filter (email_is e) (users w)); [congruence | reflexivity].
Qed.

(** X9.  Register writes one row or nothing, whatever the request and the
    faults.  It always answers; with 201 exactly one row has been appended:
    it has the id the serial counter had, the name and the email of the
    request, the hash of the password, which was a string, and no reset
    code, and the answer shows the id, the name and the email of that row
    and nothing more; with any other status the rows are as they were. *)
Theorem register_one_row_or_nothing (env : Env) (req : request) (w : World) :
  exists resp,
    fst (register env req w) = Return resp
    /\ (status resp = 201 ->
        exists n e p,
          pg_text (req_body req "name") = Some n
          /\ pg_text (req_body req "email") = Some e
          /\ req_body req "password" = JStr p
          /\ users_where_email (Some e) w = []
          /\ body resp
             = JObject [("msg", JV (JStr "Conta criada com sucesso."));
                        ("user",
                         JObject [("id", JV (JNum (users_seq w)));
                                  ("name", JV (JStr n));
                                  ("email", JV (JStr e))])]
          /\ users (snd (register env req w))
             = (users w
                ++ [Users.mk (users_seq w) n e
                             (bcrypt_hash p 10 (salt env)) None None])%list)
    /\ (status resp <> 201 ->
        users (snd (register env req w)) = users w).
Proof.
  destruct (register_cases env req w)
    as [(m & Hr & Hu & _) | [(Hr & Hu) | (n & e & p & Hn & He & Hp & Hsel & H)]].
  - eexists. split; [exact Hr | ]. split; [discriminate | intros _; exact Hu].
  - eexists. split; [exact Hr | ]. split; [discriminate | intros _; exact Hu].
  - cbv zeta in H. destruct H as (Hr & Hu & _).
    eexists. split; [exact Hr | ]. split.
    + intros _. exists n, e, p. repeat split; assumption.
    + intros Hst. exfalso. apply Hst. reflexivity.
Qed.

End RegistrationFacts.

Lemma register_duplicate_email_witness :
  let req :=
    Run.post "/auth/register" None
             [("name", JStr "Ana Two"); ("email", JStr "ana@x.com");
              ("password", JStr "another")] in
  let w := Run.with_users [Run.ana] in
  fst (register (B := Run.B) Run.env req w)
  = Return (json_response 400 (msg "Email já cadastrado."))
  /\ users (snd (register (B := Run.B) Run.env req w)) = [Run.ana].
Proof.
  intros req w.
  assert (H : register (B := Run.B) Run.env req w
              = (Return (json_response 400 (msg "Email já cadastrado.")),
                 logged (SelectUsersByEmail (Some "ana@x.com")) true
                        (set_db_faults (tl (db_faults w)) w))).
  { refine (register_duplicate_email
              (B := Run.B) Run.env req w "ana@x.com"
              eq_refl eq_refl eq_refl eq_refl _ eq_refl).
    discriminate. }
  rewrite H. split; reflexivity.
Defined.

(* ===================================================================== *)
(** * The life of a reset code *)
(* ===================================================================== *)

Lemma filter_map_set_password (h : string) (uid : Z) (e : string)
    (l : list Users.row) :
  filter (email_is e) (map (set_password h uid) l)
  = map (set_password h uid) (filter (email_is e) l).
Proof.
  induction l as [ | r l IH]; simpl; [reflexivity | ].
  replace (email_is e (set_password h uid r)) with (email_is e r)
    by (unfold email_is; rewrite set_password_email; reflexivity).
  destruct (email_is e r); simpl; rewrite IH; reflexivity.
Qed.

Lemma toString_nonempty (z : Z) : toString z <> "".
Proof.
  unfold toString. destruct (z <? 0); [discriminate | apply digits_nonempty].
Qed.

Lemma generateResetCode_nonempty (r : Double.t) : generateResetCode r <> "".
Proof. apply toString_nonempty. Qed.

Section ResetCycle.

Context {F : FloatOps} {B : BcryptLib} {J : JwtLib}.

(** What a successful reset leaves behind, when the store answers. *)
Lemma reset_password_up (env : Env) (req : request) (w : World)
    (e c p : string) (u : Users.row) (rest : list Users.row) :
  req_body req "email" = JStr e ->
  req_body req "token" = JStr c ->
  req_body req "newPassword" = JStr p ->
  e <> "" -> c <> "" -> p <> "" ->
  (6 <= String.length p)%nat ->
  db_faults w = [] ->
  users_where_email (Some e) w = u :: rest ->
  Users.reset_token u = Some c ->
  now env <= date_of (Users.reset_expires u) ->
  let h := bcrypt_hash p 10 (salt env) in
  fst (reset_password env req w)
  = Return (json_response 200 (msg "Senha alterada com sucesso."))
  /\ db_faults (snd (reset_password env req w)) = []
  /\ users (snd (reset_password env req w))
     = map (set_password h (Users.id u)) (users w)
  /\ users_where_email (Some e) (snd (reset_password env req w))
     = map (set_password h (Users.id u)) (u :: rest).
Proof.
  intros He Hc Hp Hne Hnc Hnp Hlen Hdb Hsel Htok Hexp h.
  rewrite (reset_password_valid env req w e c p) by assumption.
  cbv zeta. rewrite Hsel, Htok.
  replace (opt_string_eq (Some c) (Some c)) with true
    by (symmetry; apply opt_string_eq_true; reflexivity).
  cbn [negb].
  destruct (Z.ltb_spec (date_of (Users.reset_expires u)) (now env))
    as [Hlt | _]; [lia | ].
  cbn [fst snd]. split; [reflexivity | ]. split; [exact Hdb | ].
  split; [reflexivity | ].
  unfold users_where_email in *. cbn [users logged set_users].
  rewrite filter_map_set_password, Hsel. reflexivity.
Qed.

(** X10.  A reset code works once.  After a reset that succeeded, the same
    request, at any later time, is answered 400 "Código inválido." and
    leaves the rows as the first reset left them. *)
Theorem reset_password_single_use (env env' : Env) (req : request)
    (w : World) (e c p : string) (u : Users.row) (rest : list Users.row) :
  req_body req "email" = JStr e ->
  req_body req "token" = JStr c ->
  req_body req "newPassword" = JStr p ->
  e <> "" -> c <> "" -> p <> "" ->
  (6 <= String.length p)%nat ->
  db_faults w = [] ->
  users_where_email (Some e) w = u :: rest ->
  Users.reset_token u = Some c ->
  now env <= date_of (Users.reset_expires u) ->
  let w1 := snd (reset_password env req w) in
  fst (reset_password env req w)
  = Return (json_response 200 (msg "Senha alterada com sucesso."))
  /\ fst (reset_password env' req w1)
     = Return (json_response 400 (msg "Código inválido."))
  /\ users (snd (reset_password env' req w1)) = users w1.
Proof.
  intros He Hc Hp Hne Hnc Hnp Hlen Hdb Hsel Htok Hexp w1.
  destruct (reset_password_up env req w e c p u rest
              He Hc Hp Hne Hnc Hnp Hlen Hdb Hsel Htok Hexp)
    as (Hresp & Hdb1 & _ & Hsel1).
  split; [exact Hresp | ].
  fold w1 in Hdb1, Hsel1. cbn [map] in Hsel1.
  assert (Hnone :
            Users.reset_token
              (set_password (bcrypt_hash p 10 (salt env)) (Users.id u) u)
            <> Some c).
  { unfold set_password. rewrite Z.eqb_refl. discriminate. }
  rewrite (reset_password_mismatch env' req w1 e c p _ _
             He Hc Hp Hne Hnc Hnp Hlen Hdb1 Hsel1 Hnone).
  split; reflexivity.
Qed.

(** X11.  After a successful reset the new password opens the account:
    with the contract of bcrypt and a configured secret, a login with the
    email and the new password is answered 200, with a token signed for the
    id and the email of the user and with the public fields of the row. *)
Theorem reset_password_then_login (cfg : Config) (env env' : Env)
    (req req' : request) (w : World) (e c p secret : string)
    (u : Users.row) (rest : list Users.row) :
  req_body req "email" = JStr e ->
  req_body req "token" = JStr c ->
  req_body req "newPassword" = JStr p ->
  req_body req' "email" = JStr e ->
  req_body req' "password" = JStr p ->
  e <> "" -> c <> "" -> p <> "" ->
  (6 <= String.length p)%nat ->
  db_faults w = [] ->
  users_where_email (Some e) w = u :: rest ->
  Users.reset_token u = Some c ->
  now env <= date_of (Users.reset_expires u) ->
  JWT_SECRET cfg = Some secret -> secret <> "" ->
  bcrypt_contract B ->
  fst (login cfg env' req' (snd (reset_password env req w)))
  = Return (json_response 200
              (JObject
                 [("token",
                   JV (JStr (jwt_sign (Users.id u) (Users.email u) secret
                                      (seconds (now env')) one_day)));
                  ("user",
                   JObject [("id", JV (JNum (Users.id u)));
                            ("name", JV (JStr (Users.name u)));
                            ("email", JV (JStr (Users.email u)))])])).
Proof.
  intros He Hc Hp He' Hp' Hne Hnc Hnp Hlen Hdb Hsel Htok Hexp Hsec Hns Hb.
  destruct (reset_password_up env req w e c p u rest
              He Hc Hp Hne Hnc Hnp Hlen Hdb Hsel Htok Hexp)
    as (_ & Hdb1 & _ & Hsel1).
  rewrite (login_response cfg env' req' _ e p He' Hp' Hne Hnp).
  rewrite Hdb1, Hsel1. cbn [hd map].
  unfold set_password at 1. rewrite Z.eqb_refl. cbn [Users.password_hash].
  rewrite Hb. unfold configured. rewrite Hsec.
  apply String.eqb_neq in Hns. rewrite Hns.
  unfold set_password, public_user. rewrite Z.eqb_refl. reflexivity.
Qed.

End ResetCycle.

Section ForgotThenReset.

Context {F : FloatOps} {B : BcryptLib} {J : JwtLib}.

(** What ForgotPassword leaves behind when the store and the transport
    answer. *)
Lemma forgot_password_up (cfg : Config) (env : Env) (req : request)
    (w : World) (e : string) (u : Users.row) (rest : list Users.row) :
  req_body req "email" = JStr e ->
  e <> "" ->
  users_where_email (Some e) w = u :: rest ->
  db_faults w = [] ->
  mail_faults w = [] ->
  let code := generateResetCode (random env) in
  let expires := now env + 15 * 60 * 1000 in
  fst (forgot_password cfg env req w) = Return code_sent
  /\ db_faults (snd (forgot_password cfg env req w)) = []
  /\ users (snd (forgot_password cfg env req w))
     = map (set_reset code expires (Users.id u)) (users w)
  /\ log (snd (forgot_password cfg env req w))
     = (log w
        ++ [(SelectUsersByEmail (Some e), true);
            (UpdateUserReset code expires (Users.id u), true);
            (SendMail (reset_mail cfg (JStr e) u code), true)])%list.
Proof.
  intros He Hne Hsel Hdb Hmf code expires.
  unfold forgot_password. rewrite He.
  rewrite (proj2 (truthy_JStr e) Hne). cbn [negb pg_text].
  destruct w as [us useq gs gseq dbf mf lg].
  simpl in Hsel, Hdb, Hmf. subst dbf mf.
  unfold try_catch, bind, select_users_by_email, update_user_reset,
    pool_query, sendMail, ret, throw.
  cbn. rewrite Hsel. cbn. rewrite <- !app_assoc.
  repeat split.
Qed.

(** X12.  The code that ForgotPassword mails is the code that
    ResetPassword accepts, until its expiry included.  When the store and
    the transport answer, the message sent to the address of the request
    carries a code with which a reset of that account succeeds at any time
    up to 900000 ms after the request, and is answered 400
    "Código expirado.", the rows unchanged, at any later time. *)
Theorem forgot_then_reset (cfg : Config) (env1 env2 : Env)
    (req1 req2 : request) (w : World) (e p : string)
    (u : Users.row) (rest : list Users.row) :
  req_body req1 "email" = JStr e ->
  req_body req2 "email" = JStr e ->
  req_body req2 "token" = JStr (generateResetCode (random env1)) ->
  req_body req2 "newPassword" = JStr p ->
  e <> "" ->
  (6 <= String.length p)%nat ->
  users_where_email (Some e) w = u :: rest ->
  db_faults w = [] ->
  mail_faults w = [] ->
  let code := generateResetCode (random env1) in
  let w1 := snd (forgot_password cfg env1 req1 w) in
  In (SendMail (reset_mail cfg (JStr e) u code), true) (log w1)
  /\ (now env2 <= now env1 + 900000 ->
      fst (reset_password env2 req2 w1)
      = Return (json_response 200 (msg "Senha alterada com sucesso.")))
  /\ (now env1 + 900000 < now env2 ->
      fst (reset_password env2 req2 w1)
      = Return (json_response 400 (msg "Código expirado."))
      /\ users (snd (reset_password env2 req2 w1)) = users w1).
Proof.
  intros He1 He2 Hc Hp Hne Hlen Hsel Hdb Hmf code w1.
  destruct (forgot_password_up cfg env1 req1 w e u rest
              He1 Hne Hsel Hdb Hmf) as (_ & Hdb1 & Hus1 & Hlog1).
  fold w1 in Hdb1, Hus1, Hlog1. fold code in Hus1, Hlog1.
  assert (Hnp : p <> "").
  { intros ->. simpl in Hlen. lia. }
  pose proof (generateResetCode_nonempty (random env1)) as Hnc.
  fold code in Hnc, Hc.
  assert (Hsel1 :
            users_where_email (Some e) w1
            = map (set_reset code (now env1 + 15 * 60 * 1000) (Users.id u))
                  (u :: rest)).
  { unfold users_where_email in *.
    rewrite Hus1, filter_map_set_reset, Hsel. reflexivity. }
  split.
  { rewrite Hlog1. apply in_or_app. right. right. right. left. reflexivity. }
  rewrite (reset_password_valid env2 req2 w1 e code p) by assumption.
  cbv zeta. rewrite Hsel1. cbn [map].
  assert (Hrow :
            set_reset code (now env1 + 15 * 60 * 1000) (Users.id u) u
            = Users.mk (Users.id u) (Users.name u) (Users.email u)
                       (Users.password_hash u) (Some code)
                       (Some (now env1 + 15 * 60 * 1000))).
  { unfold set_reset. rewrite Z.eqb_refl. reflexivity. }
  rewrite Hrow. cbn [Users.reset_token Users.reset_expires date_of].
  replace (opt_string_eq (Some code) (Some code)) with true
    by (symmetry; apply opt_string_eq_true; reflexivity).
  cbn [negb]. split.
  - intros Hle.
    destruct (Z.ltb_spec (now env1 + 15 * 60 * 1000) (now env2))
      as [Hlt | _]; [lia | reflexivity].
  - intros Hgt.
    destruct (Z.ltb_spec (now env1 + 15 * 60 * 1000) (now env2))
      as [_ | Hge]; [split; reflexivity | lia].
Qed.

(** X13.  ForgotPassword tells whether an email is registered.  For a
    request with an email, when the store answers the lookup, the answer is
    400 "Email não encontrado." exactly when no row has the email; and then
    the lookup is all that happened: nothing is written and no message is
    sent. *)
Theorem forgot_password_reveals_registration (cfg : Config) (env : Env)
    (req : request) (w : World) :
  truthy (req_body req "email") = true ->
  hd false (db_faults w) = false ->
  (fst (forgot_password cfg env req w)
   = Return (json_response 400 (msg "Email não encontrado."))
   <-> users_where_email (pg_text (req_body req "email")) w = [])
  /\ (users_where_email (pg_text (req_body req "email")) w = [] ->
      snd (forgot_password cfg env req w)
      = logged (SelectUsersByEmail (pg_text (req_body req "email"))) true
               (set_db_faults (tl (db_faults w)) w)).
Proof.
  intros He Hf. unfold forgot_password. cbv zeta. rewrite He. cbn [negb].
  destruct (truthy_pg_text _ He) as [e Hpg]. rewrite Hpg.
  destruct w as [us useq gs gseq dbf mf lg].
  unfold try_catch, bind, select_users_by_email, update_user_reset,
    pool_query, sendMail, ret, throw.
  cbn [db_faults users users_where_email] in *.
  destruct dbf as [ | [ | ] dbf]; try discriminate Hf; cbn.
  all: destruct (filter (email_is e) us) as [ | u rest] eqn:Hsel; cbn.
  all: try (split; [split; reflexivity | reflexivity]).
  all: split; [ | discriminate].
  all: split; [ | discriminate].
  all: try destruct dbf as [ | [ | ] dbf]; cbn; try discriminate.
  all: destruct mf as [ | [ | ] mf]; cbn; discriminate.
Qed.

End ForgotThenReset.

(* ===================================================================== *)
(** * Fields that are not strings, and a missing secret *)
(* ===================================================================== *)

Section OddRequests.

Context {F : FloatOps} {B : BcryptLib} {J : JwtLib}.

(** X14.  Register with a password that is present but is not a string (a
    JSON number or [true]) and an email that no row has: the presence check
    lets it pass, [bcrypt.hash] rejects it, and the answer is 500
    "Erro no servidor." with no row written. *)
Theorem register_non_string_password (env : Env) (req : request) (w : World)
    (e : string) :
  truthy (req_body req "name") = true ->
  truthy (req_body req "email") = true ->
  truthy (req_body req "password") = true ->
  (forall p, req_body req "password" <> JStr p) ->
  pg_text (req_body req "email") = Some e ->
  users_where_email (Some e) w = [] ->
  hd false (db_faults w) = false ->
  fst (register env req w) = Return server_error
  /\ users (snd (register env req w)) = users w
  /\ users_seq (snd (register env req w)) = users_seq w.
Proof.
  intros Hn He Hp Hns Hpg Hsel Hf.
  unfold register. cbv zeta. rewrite Hn, He, Hp, Hpg. cbn [negb orb].
  destruct w as [us useq gs gseq dbf mf lg].
  unfold try_catch, bind, select_users_by_email, pool_query, ret.
  cbn [db_faults users users_where_email] in *.
  destruct (req_body req "password") as [ | | b | z | p | x];
    try (exfalso; apply (Hns p); reflexivity).
  all: destruct dbf as [ | [ | ] dbf]; try discriminate Hf; cbn.
  all: rewrite Hsel; cbn; repeat split.
Qed.

(** X15.  ResetPassword with fields that are not strings.  A code sent as
    a JSON number is answered 400 "Código inválido." whatever code the row
    holds, since [!==] compares it with a string.  A new password that is
    not a string has no length to fall short of, so it passes the length
    check; with the right code [bcrypt.hash] then rejects it, and the answer
    is 500 "Erro no servidor." with the row, its code included, as it
    was. *)
Theorem reset_password_non_string_fields (env : Env) (req : request)
    (w : World) (e : string) (u : Users.row) (rest : list Users.row) :
  req_body req "email" = JStr e ->
  e <> "" ->
  truthy (req_body req "token") = true ->
  truthy (req_body req "newPassword") = true ->
  users_where_email (Some e) w = u :: rest ->
  hd false (db_faults w) = false ->
  ((forall c, req_body req "token" <> JStr c) ->
   js_lt_num (length_of (req_body req "newPassword")) 6 = false ->
   fst (reset_password env req w)
   = Return (json_response 400 (msg "Código inválido.")))
  /\
  ((forall p, req_body req "newPassword" <> JStr p) ->
   forall c,
     req_body req "token" = JStr c ->
     Users.reset_token u = Some c ->
     now env <= date_of (Users.reset_expires u) ->
     fst (reset_password env req w) = Return server_error
     /\ users (snd (reset_password env req w)) = users w).
Proof.
  intros He Hne Ht Hp Hsel Hf.
  unfold reset_password. cbv zeta. rewrite He, Ht, Hp.
  rewrite (proj2 (truthy_JStr e) Hne). cbn [negb orb pg_text].
  destruct w as [us useq gs gseq dbf mf lg].
  unfold try_catch, bind, select_users_by_email, update_user_password,
    pool_query, ret.
  cbn [db_faults users users_where_email] in *.
  split.
  - intros Hns Hlen. rewrite Hlen.
    destruct (req_body req "token") as [ | | b | z | c | x];
      try discriminate Ht;
      try (exfalso; apply (Hns c); reflexivity).
    all: destruct dbf as [ | [ | ] dbf]; try discriminate Hf; cbn.
    all: rewrite Hsel; cbn; reflexivity.
  - intros Hns c Hc Htok Hexp. rewrite Hc.
    assert (Hltb : (date_of (Users.reset_expires u) <? now env) = false)
      by (apply Z.ltb_ge; exact Hexp).
    destruct (req_body req "newPassword") as [ | | b | z | p | x];
      try discriminate Hp;
      try (exfalso; apply (Hns p); reflexivity).
    all: destruct dbf as [ | [ | ] dbf]; try discriminate Hf; cbn.
    all: rewrite Hsel; cbn; rewrite Htok; cbn.
    all: rewrite String.eqb_refl, Hltb; cbn; split; reflexivity.
Qed.

(** X16.  A login cannot succeed while [JWT_SECRET] is unset or empty:
    with the right email and password the signing raises and the answer is
    500 "Erro no servidor."; no login is answered 200. *)
Theorem login_without_secret (cfg : Config) (env : Env) (req : request)
    (w : World) (e p : string) :
  req_body req "email" = JStr e ->
  req_body req "password" = JStr p ->
  e <> "" -> p <> "" ->
  configured (JWT_SECRET cfg) = None ->
  (forall resp,
      fst (login cfg env req w) = Return resp -> status resp <> 200)
  /\ (forall u rest,
         hd false (db_faults w) = false ->
         users_where_email (Some e) w = u :: rest ->
         bcrypt_compare p (Users.password_hash u) = true ->
         fst (login cfg env req w) = Return server_error).
Proof.
  intros He Hp Hne Hnp Hcfg.
  rewrite (login_response cfg env req w e p He Hp Hne Hnp). rewrite Hcfg.
  split.
  - intros resp.
    destruct (hd false (db_faults w)).
    + intros H. injection H as <-. discriminate.
    + destruct (users_where_email (Some e) w) as [ | u rest].
      * intros H. injection H as <-. discriminate.
      * destruct (bcrypt_compare p (Users.password_hash u));
          intros H; injection H as <-; discriminate.
  - intros u rest Hf Hsel Hok. rewrite Hf, Hsel, Hok. reflexivity.
Qed.

End OddRequests.

(* ===================================================================== *)
(** * The header of a protected request *)
(* ===================================================================== *)

Lemma bearer_token_second_word (scheme token : string) :
  no_space scheme = true -> no_space token = true ->
  bearer_token (Some (scheme ++ " " ++ token)) = Some token
  /\ forall tail,
      bearer_token (Some (scheme ++ " " ++ token ++ " " ++ tail)) = Some token.
Proof.
  intros Hs Ht. unfold bearer_token. split.
  - change (scheme ++ " " ++ token) with (scheme ++ String " " token).
    rewrite (split_app_sep _ _ Hs), (split_no_space _ Ht).
    destruct scheme; reflexivity.
  - intros tail.
    change (scheme ++ " " ++ token ++ " " ++ tail)
      with (scheme ++ String " " (token ++ String " " tail)).
    rewrite (split_app_sep _ _ Hs), (split_app_sep _ _ Ht).
    destruct scheme; reflexivity.
Qed.

Lemma bearer_token_one_word (h : string) :
  no_space h = true -> h <> "" -> bearer_token (Some h) = None.
Proof.
  intros Hs Hne. unfold bearer_token.
  apply String.eqb_neq in Hne. rewrite Hne, (split_no_space _ Hs).
  reflexivity.
Qed.

Section Header.

Context {F : FloatOps} {B : BcryptLib} {J : JwtLib}.

(** X17.  The middleware reads the second word of the header and nothing
    else.  The scheme is not checked: a header [<scheme> <token>], with any
    word as scheme and with or without further words after the token, is
    treated as [Bearer <token>] is; and a header of one word, such as a
    bare token, is answered 401. *)
Theorem authenticateToken_second_word (cfg : Config) (env : Env)
    (req req' : request) (next : Claims.t -> M response) (w : World)
    (scheme token : string) :
  no_space scheme = true ->
  no_space token = true ->
  authorization req' = Some ("Bearer " ++ token) ->
  (authorization req = Some (scheme ++ " " ++ token) ->
   authenticateToken cfg env req next w
   = authenticateToken cfg env req' next w)
  /\
  (forall tail,
      authorization req = Some (scheme ++ " " ++ token ++ " " ++ tail) ->
      authenticateToken cfg env req next w
      = authenticateToken cfg env req' next w)
  /\
  (authorization req = Some token -> token <> "" ->
   authenticateToken cfg env req next w = (Return denied, w)).
Proof.
  intros Hs Ht Hb.
  destruct (bearer_token_second_word scheme token Hs Ht) as [H1 H2].
  unfold authenticateToken. rewrite Hb, (bearer_token_scheme _ Ht).
  split; [ | split].
  - intros ->. rewrite H1. reflexivity.
  - intros tail ->. rewrite H2. reflexivity.
  - intros -> Hne. rewrite (bearer_token_one_word _ Ht Hne). reflexivity.
Qed.

(** X18.  The token of a login opens the protected routes for a day.
    With the contracts of the libraries and a configured secret, the token
    that a successful login returns, sent as [Bearer <token>] less than
    86400 seconds after the login, passes the middleware on any world, and
    the profile route runs with the id and the email of the user who logged
    in. *)
Theorem login_token_opens_profile (cfg : Config) (env1 env2 : Env)
    (req1 req2 : request) (w w2 : World) (e p secret : string)
    (u : Users.row) (rest : list Users.row) :
  req_body req1 "email" = JStr e ->
  req_body req1 "password" = JStr p ->
  e <> "" -> p <> "" ->
  hd false (db_faults w) = false ->
  users_where_email (Some e) w = u :: rest ->
  bcrypt_compare p (Users.password_hash u) = true ->
  JWT_SECRET cfg = Some secret -> secret <> "" ->
  jwt_contract J ->
  let token :=
    jwt_sign (Users.id u) (Users.email u) secret (seconds (now env1)) one_day in
  no_space token = true -> token <> "" ->
  method req2 = "GET" -> path req2 = "/stats/me" ->
  authorization req2 = Some ("Bearer " ++ token) ->
  seconds (now env2) < seconds (now env1) + one_day ->
  fst (login cfg env1 req1 w)
  = Return (json_response 200
              (JObject [("token", JV (JStr token)); ("user", public_user u)]))
  /\ app cfg env2 req2 w2
     = stats_me req2
                (Claims.mk (Users.id u) (Users.email u) (seconds (now env1))
                           (seconds (now env1) + one_day))
                w2.
Proof.
  intros He Hp Hne Hnp Hf Hsel Hok Hsec Hns Hjwt token Hsp Hnt Hm Hpath
    Hauth Hlt.
  split.
  - rewrite (login_response cfg env1 req1 w e p He Hp Hne Hnp).
    rewrite Hf, Hsel, Hok. unfold configured. rewrite Hsec.
    apply String.eqb_neq in Hns. rewrite Hns. reflexivity.
  - unfold app. cbv zeta. rewrite Hm, Hpath. cbn.
    unfold authenticateToken.
    rewrite Hauth, (bearer_token_scheme _ Hsp).
    apply String.eqb_neq in Hnt. rewrite Hnt.
    rewrite Hsec. unfold token.
    rewrite (Hjwt _ _ _ _ _ _ Hns Hlt). reflexivity.
Qed.

End Header.

(* ===================================================================== *)
(** * Statistics: submissions *)
(* ===================================================================== *)

Section Submissions.

Context {F : FloatOps} {B : BcryptLib} {J : JwtLib}.

(** What an update of an existing row leaves behind when the store
    answers. *)
Lemma stats_update_up (req : request) (user : Claims.t) (w : World)
    (cur : GameStats.row) (rest : list GameStats.row) :
  db_faults w = [] ->
  filter (stats_of (Claims.id user) (pg_text (req_body req "gameType")))
         (game_stats w) = cur :: rest ->
  let upd :=
    set_stats (float_add (parseFloat_column (GameStats.total_hours cur))
                         (numDuration req))
              (GameStats.total_score cur + numScore req)
              (Z.max (GameStats.high_score cur) (numScore req))
              (GameStats.id cur) in
  fst (stats_update req user w)
  = Return (json_response 200 (msg "Stats updated"))
  /\ db_faults (snd (stats_update req user w)) = []
  /\ game_stats (snd (stats_update req user w)) = map upd (game_stats w).
Proof.
  intros Hdb Hsel upd. unfold stats_update. cbv zeta.
  destruct w as [us useq gs gseq dbf mf lg]. simpl in Hdb, Hsel. subst dbf.
  unfold try_catch, bind, select_game_stats, update_game_stats, pool_query,
    ret.
  cbn. rewrite Hsel. cbn. rewrite newHighScore_max. repeat split.
Qed.


(** X20.  Submissions add up.  After any series of updates of one user
    for one game, on a row that exists and with the store answering, where
    the numbers are safe integers and stay so (the magnitudes of the old
    total and of the submitted scores add up to less than 2^53), the row of
    that id holds as total score the old total plus the sum of the
    submitted scores, as high score the maximum of the old high score and of
    the submitted scores, and as hours the old hours with the durations
    added one by one. *)
Theorem stats_updates_add_up (user : Claims.t) (reqs : list request)
    (gt : option string) (w : World)
    (cur : GameStats.row) (rest : list GameStats.row) :
  Forall (fun req => pg_text (req_body req "gameType") = gt) reqs ->
  db_faults w = [] ->
  filter (stats_of (Claims.id user) gt) (game_stats w) = cur :: rest ->
  safe_integer (GameStats.high_score cur) ->
  Z.abs (GameStats.total_score cur)
  + fold_right Z.add 0 (map (fun req => Z.abs (numScore req)) reqs) < 2 ^ 53 ->
  exists cur' rest',
    filter (stats_of (Claims.id user) gt)
           (game_stats (stats_updates user reqs w)) = cur' :: rest'
    /\ GameStats.id cur' = GameStats.id cur
    /\ GameStats.total_score cur'
       = GameStats.total_score cur + fold_right Z.add 0 (map numScore reqs)
    /\ GameStats.high_score cur'
       = fold_left Z.max (map numScore reqs) (GameStats.high_score cur)
    /\ GameStats.total_hours cur'
       = hours_after reqs (GameStats.total_hours cur)
    /\ safe_integer (GameStats.total_score cur')
    /\ safe_integer (GameStats.high_score cur').
Proof.
  intros Hgt. revert w cur rest.
  induction Hgt as [ | req reqs Hreq Hgt IH];
    intros w cur rest Hdb Hsel Hhigh Hsum.
  - exists cur, rest. simpl in *.
    repeat split; try exact Hsel; try (unfold safe_integer in *; lia).
  - rewrite <- Hreq in Hsel.
    destruct (stats_update_up req user w cur rest Hdb Hsel)
      as (_ & Hdb1 & Hgs1). cbv zeta in Hgs1.
    assert (Hsel1 :
              filter (stats_of (Claims.id user) gt)
                     (game_stats (snd (stats_update req user w)))
              = map (set_stats
                       (float_add (parseFloat_column (GameStats.total_hours cur))
                                  (numDuration req))
                       (GameStats.total_score cur + numScore req)
                       (Z.max (GameStats.high_score cur) (numScore req))
                       (GameStats.id cur))
                    (cur :: rest)).
    { rewrite Hgs1, filter_map_set_stats. rewrite <- Hreq, Hsel.
      reflexivity. }
    cbn [map] in Hsel1. unfold set_stats at 1 in Hsel1.
    rewrite Z.eqb_refl in Hsel1.
    cbn [map fold_right] in Hsum.
    assert (Hrest :
              0 <= fold_right Z.add 0
                     (map (fun req => Z.abs (numScore req)) reqs)).
    { clear. induction reqs as [ | r l IHl]; simpl; lia. }
    destruct (IH _ _ _ Hdb1 Hsel1)
      as (cur' & rest' & Hsel' & Hid & Htot & Hhigh' & Hhours & Hst & Hsh).
    + cbn [GameStats.high_score]. unfold safe_integer in *. lia.
    + cbn [GameStats.total_score]. lia.
    + exists cur', rest'. cbn in Hid, Htot, Hhigh', Hhours.
      unfold stats_updates in *. cbn [fold_left map fold_right].
      split; [exact Hsel' | ]. split; [exact Hid | ].
      split; [rewrite Htot; lia | ]. split; [exact Hhigh' | ].
      split; [exact Hhours | ]. split; assumption.
Qed.

(** X21.  A statistics update that fails changes nothing.  The handler
    always answers, 200 "Stats updated" or 500 "Erro ao salvar stats.";
    it answers 200 exactly when neither of its two statements fails; and
    with 500 both tables and both counters are as they were. *)
Theorem stats_update_all_or_nothing (req : request) (user : Claims.t)
    (w : World) :
  (hd false (db_faults w) = false /\ hd false (tl (db_faults w)) = false ->
   fst (stats_update req user w)
   = Return (json_response 200 (msg "Stats updated")))
  /\
  (hd false (db_faults w) = true \/ hd false (tl (db_faults w)) = true ->
   fst (stats_update req user w)
   = Return (json_response 500 (msg "Erro ao salvar stats."))
   /\ same_tables w (snd (stats_update req user w))).
Proof.
  unfold stats_update. cbv zeta.
  destruct w as [us useq gs gseq dbf mf lg].
  unfold try_catch, bind, select_game_stats, insert_game_stats,
    update_game_stats, pool_query, ret, same_tables.
  cbn [db_faults game_stats].
  destruct dbf as [ | [ | ] dbf]; cbn.
  2: { split; [intros [H _]; discriminate | intros _; repeat split]. }
  all: destruct (filter _ gs) as [ | cur rest]; cbn.
  all: try destruct dbf as [ | [ | ] dbf]; cbn.
  all: split;
    [ intros [H1 H2]; try discriminate; reflexivity
    | intros [H | H]; try discriminate; repeat split ].
Qed.

End Submissions.

(* ===================================================================== *)
(** * Statistics: the profile *)
(* ===================================================================== *)

Lemma latest_cons {A} (a : A) (l : list A) :
  latest (a :: l)
  = match latest l with
    | Some r => Some r
    | None => Some a
    end.
Proof.
  unfold latest. destruct l as [ | b l]; [reflexivity | ].
  change (last (map Some (a :: b :: l)) None)
    with (last (map Some (b :: l)) None).
  assert (H : forall (d : option A) (m : list A),
             last (map Some (b :: m)) d <> None).
  { intros d m. revert b. induction m as [ | c m IH]; intros b.
    - discriminate.
    - change (last (map Some (b :: c :: m)) d)
        with (last (map Some (c :: m)) d). apply IH. }
  destruct (last (map Some (b :: l)) None) eqn:E; [reflexivity | ].
  exfalso. exact (H None l E).
Qed.

Lemma has_own_keys (a b : list (string * json)) (k : string) :
  map fst a = map fst b -> has_own a k = has_own b k.
Proof.
  unfold has_own. revert b.
  induction a as [ | x a IH]; intros [ | y b] H; try discriminate H;
    [reflexivity | ].
  simpl in *. injection H as Hxy Hab. rewrite Hxy, (IH b Hab). reflexivity.
Qed.

Lemma keys_assign (obj : list (string * json)) (k : string) (v : json) :
  map fst (assign obj k v)
  = if has_own obj k then map fst obj
    else if String.eqb k "__proto__" then map fst obj
         else (map fst obj ++ [k])%list.
Proof.
  unfold assign. destruct (has_own obj k).
  - rewrite map_map. apply map_ext.
    intros kv. destruct (String.eqb (fst kv) k); reflexivity.
  - destruct (String.eqb k "__proto__"); [reflexivity | ].
    rewrite map_app. reflexivity.
Qed.

Lemma has_own_assign (obj : list (string * json)) (k g : string) (v : json) :
  has_own obj g = true -> has_own (assign obj k v) g = true.
Proof.
  intros H. unfold has_own in *. rewrite existsb_exists in *.
  destruct H as (kv & Hin & Hkv).
  assert (Hkeys : In g (map fst (assign obj k v))).
  { rewrite keys_assign. apply String.eqb_eq in Hkv. subst g.
    destruct (has_own obj k); [apply in_map; exact Hin | ].
    destruct (String.eqb k "__proto__"); [apply in_map; exact Hin | ].
    apply in_or_app. left. apply in_map. exact Hin. }
  apply in_map_iff in Hkeys. destruct Hkeys as (kv' & Hfst & Hin').
  exists kv'. split; [exact Hin' | ]. rewrite Hfst. apply String.eqb_refl.
Qed.

Lemma own_property_assign_same (obj : list (string * json)) (g : string)
    (v : json) :
  g <> "__proto__" -> own_property (assign obj g v) g = Some v.
Proof.
  intros Hg. unfold assign, own_property.
  destruct (has_own obj g) eqn:Hown.
  - unfold has_own in Hown.
    induction obj as [ | kv obj IH]; simpl in *; [discriminate | ].
    destruct (String.eqb (fst kv) g) eqn:E; simpl.
    + rewrite E. reflexivity.
    + rewrite E. apply IH. exact Hown.
  - apply String.eqb_neq in Hg. rewrite Hg.
    unfold has_own in Hown.
    induction obj as [ | kv obj IH]; simpl in *.
    + rewrite String.eqb_refl. reflexivity.
    + apply orb_false_iff in Hown. destruct Hown as [E Hown].
      rewrite E. apply IH. exact Hown.
Qed.

Lemma own_property_assign_other (obj : list (string * json)) (k g : string)
    (v : json) :
  k <> g -> own_property (assign obj k v) g = own_property obj g.
Proof.
  intros Hk. unfold assign, own_property.
  destruct (has_own obj k).
  - induction obj as [ | kv obj IH]; simpl; [reflexivity | ].
    destruct (String.eqb (fst kv) k) eqn:E; simpl.
    + apply String.eqb_eq in E. rewrite E.
      apply String.eqb_neq in Hk. rewrite Hk. exact IH.
    + destruct (String.eqb (fst kv) g); [reflexivity | exact IH].
  - destruct (String.eqb k "__proto__"); [reflexivity | ].
    induction obj as [ | kv obj IH]; simpl.
    + apply String.eqb_neq in Hk. rewrite Hk. reflexivity.
    + destruct (String.eqb (fst kv) g); [reflexivity | exact IH].
Qed.

Lemma filter_filter_andb {A} (p q : A -> bool) (l : list A) :
  filter p (filter q l) = filter (fun x => q x && p x) l.
Proof.
  induction l as [ | x l IH]; simpl; [reflexivity | ].
  destruct (q x); simpl; [ | exact IH].
  destruct (p x); rewrite IH; reflexivity.
Qed.

Lemma games_not_special (g : string) :
  In g games -> g <> "__proto__" /\ g <> "null".
Proof.
  intros [<- | [<- | [<- | [<- | []]]]]; split; discriminate.
Qed.

Lemma has_own_zeros (g : string) :
  In g games ->
  has_own zeros g = true /\ own_property zeros g = Some (JV (JNum 0)).
Proof.
  intros [<- | [<- | [<- | [<- | []]]]]; split; reflexivity.
Qed.

Section Profile.

Context {F : FloatOps} {B : BcryptLib} {J : JwtLib}.

Lemma stats_row_same (st : stats) (row : GameStats.row) (g : string) :
  g <> "__proto__" ->
  has_own (scores st) g = true ->
  type_of row = g ->
  entry_of (stats_row st row) g
  = (Some (fst (fst (shown row))), Some (snd (fst (shown row))),
     Some (snd (shown row))).
Proof.
  intros Hg Hown Ht. unfold stats_row, entry_of. cbv zeta.
  change (match GameStats.game_type row with
          | Some s => s
          | None => "null"
          end) with (type_of row).
  rewrite Ht. unfold is_defined. rewrite Hown. cbn [orb scores highScores hours].
  rewrite !own_property_assign_same by exact Hg. reflexivity.
Qed.

Lemma stats_row_other (st : stats) (row : GameStats.row) (g : string) :
  type_of row <> g ->
  entry_of (stats_row st row) g = entry_of st g.
Proof.
  intros Ht. unfold stats_row, entry_of. cbv zeta.
  change (match GameStats.game_type row with
          | Some s => s
          | None => "null"
          end) with (type_of row).
  destruct (is_defined (scores st) (type_of row)); [ | reflexivity].
  cbn [scores highScores hours].
  rewrite !own_property_assign_other by exact Ht. reflexivity.
Qed.

Lemma stats_row_has_own (st : stats) (row : GameStats.row) (g : string) :
  has_own (scores st) g = true ->
  has_own (scores (stats_row st row)) g = true.
Proof.
  intros Hown. unfold stats_row. cbv zeta.
  destruct (is_defined (scores st) _); [ | exact Hown].
  cbn [scores]. apply has_own_assign. exact Hown.
Qed.

Lemma fold_stats_row (rows : list GameStats.row) (st : stats) (g : string) :
  g <> "__proto__" ->
  has_own (scores st) g = true ->
  entry_of (fold_left stats_row rows st) g
  = match latest (filter (fun r => String.eqb (type_of r) g) rows) with
    | Some r =>
        (Some (fst (fst (shown r))), Some (snd (fst (shown r))),
         Some (snd (shown r)))
    | None => entry_of st g
    end.
Proof.
  intros Hg. revert st.
  induction rows as [ | row rows IH]; intros st Hown; [reflexivity | ].
  cbn [fold_left filter].
  rewrite (IH _ (stats_row_has_own st row g Hown)).
  destruct (String.eqb (type_of row) g) eqn:E.
  - rewrite latest_cons.
    destruct (latest (filter _ rows)); [reflexivity | ].
    apply String.eqb_eq in E. apply stats_row_same; assumption.
  - destruct (latest (filter _ rows)); [reflexivity | ].
    apply String.eqb_neq in E. apply stats_row_other. exact E.
Qed.

Lemma type_of_game (r : GameStats.row) (g : string) :
  g <> "null" ->
  String.eqb (type_of r) g = sql_text_eq (GameStats.game_type r) (Some g).
Proof.
  intros Hg. unfold type_of, sql_text_eq.
  destruct (GameStats.game_type r) as [s | ]; [reflexivity | ].
  apply String.eqb_neq. congruence.
Qed.

(** X22.  The profile of a user.  When the store answers, [/stats/me]
    answers 200 with three objects, and for each of the four games each
    object has an entry: the total score, the high score and the hours of
    the last row that the store returned for the user with that game type,
    or 0 in all three when the user has no such row.  When the store fails,
    the answer is 500 "Erro ao buscar perfil.". *)
Theorem stats_me_profile (req : request) (user : Claims.t) (w : World) :
  (hd false (db_faults w) = true ->
   fst (stats_me req user w)
   = Return (json_response 500 (msg "Erro ao buscar perfil.")))
  /\
  (hd false (db_faults w) = false ->
   exists st,
     fst (stats_me req user w)
     = Return (json_response 200
                 (JObject [("scores", JObject (scores st));
                           ("highScores", JObject (highScores st));
                           ("hours", JObject (hours st))]))
     /\ forall g,
         In g games ->
         match latest (filter (stats_of (Claims.id user) (Some g))
                              (game_stats w)) with
         | Some r =>
             own_property (scores st) g
             = Some (JV (JNum (GameStats.total_score r)))
             /\ own_property (highScores st) g
                = Some (JV (JNum (GameStats.high_score r)))
             /\ own_property (hours st) g
                = Some (float_json (parseFloat_column (GameStats.total_hours r)))
         | None =>
             own_property (scores st) g = Some (JV (JNum 0))
             /\ own_property (highScores st) g = Some (JV (JNum 0))
             /\ own_property (hours st) g = Some (JV (JNum 0))
         end).
Proof.
  unfold stats_me. cbv zeta.
  destruct w as [us useq gs gseq dbf mf lg].
  unfold try_catch, bind, select_game_stats_of_user, pool_query, ret.
  cbn [db_faults game_stats].
  split.
  - intros Hf. destruct dbf as [ | [ | ] dbf]; try discriminate Hf.
    reflexivity.
  - intros Hf.
    set (rows := filter (fun r => GameStats.user_id r =? Claims.id user) gs).
    exists (fold_left stats_row rows
                      {| scores := zeros; highScores := zeros; hours := zeros |}).
    split.
    { destruct dbf as [ | [ | ] dbf]; try discriminate Hf; reflexivity. }
    intros g Hg.
    destruct (games_not_special g Hg) as [Hproto Hnull].
    destruct (has_own_zeros g Hg) as [Hown Hzero].
    pose proof (fold_stats_row rows
                  {| scores := zeros; highScores := zeros; hours := zeros |}
                  g Hproto Hown) as Hfold.
    assert (Hrows :
              filter (fun r => String.eqb (type_of r) g) rows
              = filter (stats_of (Claims.id user) (Some g)) gs).
    { unfold rows. rewrite filter_filter_andb. apply filter_ext.
      intros r. unfold stats_of. rewrite (type_of_game r g Hnull).
      reflexivity. }
    rewrite Hrows in Hfold. unfold entry_of in Hfold.
    destruct (latest (filter (stats_of (Claims.id user) (Some g)) gs))
      as [r | ].
    + injection Hfold as H1 H2 H3. repeat split; assumption.
    + cbn [scores highScores hours] in Hfold. rewrite Hzero in Hfold.
      injection Hfold as H1 H2 H3. repeat split; assumption.
Qed.

Lemma stats_row_keys (st : stats) (row : GameStats.row) (l : list string) :
  map fst (scores st) = l ->
  map fst (highScores st) = l ->
  map fst (hours st) = l ->
  exists l',
    map fst (scores (stats_row st row)) = l'
    /\ map fst (highScores (stats_row st row)) = l'
    /\ map fst (hours (stats_row st row)) = l'
    /\ (l' = l
        \/ (l' = (l ++ [type_of row])%list
            /\ In (type_of row) object_prototype_names
            /\ type_of row <> "__proto__")).
Proof.
  intros H1 H2 H3. unfold stats_row. cbv zeta.
  change (match GameStats.game_type row with
          | Some s => s
          | None => "null"
          end) with (type_of row).
  destruct (is_defined (scores st) (type_of row)) eqn:Hdef.
  - cbn [scores highScores hours]. rewrite !keys_assign.
    rewrite (has_own_keys (highScores st) (scores st))
      by (rewrite H1, H2; reflexivity).
    rewrite (has_own_keys (hours st) (scores st))
      by (rewrite H1, H3; reflexivity).
    rewrite H1, H2, H3.
    unfold is_defined in Hdef.
    destruct (has_own (scores st) (type_of row)).
    + exists l. repeat split. left. reflexivity.
    + destruct (String.eqb (type_of row) "__proto__") eqn:Hp.
      * exists l. repeat split. left. reflexivity.
      * exists (l ++ [type_of row])%list. repeat split. right.
        split; [reflexivity | ]. split.
        -- cbn [orb] in Hdef. apply existsb_exists in Hdef.
           destruct Hdef as (x & Hin & Hx). apply String.eqb_eq in Hx.
           rewrite Hx. exact Hin.
        -- apply String.eqb_neq. exact Hp.
  - exists l. repeat split; try assumption. left. reflexivity.
Qed.

Lemma fold_stats_row_keys (rows : list GameStats.row) (st : stats)
    (l : list string) :
  map fst (scores st) = l ->
  map fst (highScores st) = l ->
  map fst (hours st) = l ->
  exists extra,
    map fst (scores (fold_left stats_row rows st)) = (l ++ extra)%list
    /\ map fst (highScores (fold_left stats_row rows st)) = (l ++ extra)%list
    /\ map fst (hours (fold_left stats_row rows st)) = (l ++ extra)%list
    /\ Forall (fun k =>
                 In k object_prototype_names
                 /\ exists r, In r rows /\ GameStats.game_type r = Some k)
              extra.
Proof.
  revert st l. induction rows as [ | row rows IH]; intros st l H1 H2 H3.
  - exists []. rewrite app_nil_r. repeat split; try assumption. constructor.
  - cbn [fold_left].
    destruct (stats_row_keys st row l H1 H2 H3)
      as (l' & G1 & G2 & G3 & Hl').
    destruct (IH _ l' G1 G2 G3) as (extra & K1 & K2 & K3 & Hall).
    assert (Hall' :
              Forall (fun k =>
                        In k object_prototype_names
                        /\ exists r, In r (row :: rows)
                                     /\ GameStats.game_type r = Some k)
                     extra).
    { revert Hall. apply Forall_impl. intros k (Hk & r & Hin & Hr).
      split; [exact Hk | ]. exists r. split; [right; exact Hin | exact Hr]. }
    destruct Hl' as [-> | (-> & Hproto & Hne)].
    + exists extra. repeat split; assumption.
    + exists (type_of row :: extra).
      rewrite <- app_assoc in K1, K2, K3. cbn [app] in K1, K2, K3.
      repeat split; try assumption.
      constructor; [ | exact Hall'].
      split; [exact Hproto | ]. exists row. split; [left; reflexivity | ].
      unfold type_of in *.
      destruct (GameStats.game_type row) as [s | ]; [reflexivity | ].
      exfalso. simpl in Hproto.
      repeat (destruct Hproto as [Hproto | Hproto]; [discriminate Hproto | ]).
      exact Hproto.
Qed.

(** X23.  The keys of the profile.  Whenever [/stats/me] answers 200,
    its three objects have the same keys in the same order: the four games,
    followed only by game types of rows of the user that are names of
    [Object.prototype] (such as [toString]); a row with any other unknown
    game type, or with none, adds no key. *)
Theorem stats_me_keys (req : request) (user : Claims.t) (w : World)
    (resp : response) :
  fst (stats_me req user w) = Return resp ->
  status resp = 200 ->
  exists st extra,
    body resp = JObject [("scores", JObject (scores st));
                         ("highScores", JObject (highScores st));
                         ("hours", JObject (hours st))]
    /\ map fst (scores st) = (games ++ extra)%list
    /\ map fst (highScores st) = (games ++ extra)%list
    /\ map fst (hours st) = (games ++ extra)%list
    /\ Forall (fun k =>
                 In k object_prototype_names
                 /\ exists r,
                     In r (game_stats w)
                     /\ GameStats.user_id r = Claims.id user
                     /\ GameStats.game_type r = Some k)
              extra.
Proof.
  unfold stats_me. cbv zeta.
  destruct w as [us useq gs gseq dbf mf lg].
  unfold try_catch, bind, select_game_stats_of_user, pool_query, ret.
  cbn [db_faults game_stats].
  set (rows := filter (fun r => GameStats.user_id r =? Claims.id user) gs).
  set (st0 := {| scores := zeros; highScores := zeros; hours := zeros |}).
  intros Hresp Hst.
  assert (Hbody :
            body resp
            = JObject [("scores", JObject (scores (fold_left stats_row rows st0)));
                       ("highScores",
                        JObject (highScores (fold_left stats_row rows st0)));
                       ("hours", JObject (hours (fold_left stats_row rows st0)))]).
  { destruct dbf as [ | [ | ] dbf]; cbn in Hresp; injection Hresp as <-;
      try reflexivity.
    discriminate Hst. }
  destruct (fold_stats_row_keys rows st0 games eq_refl eq_refl eq_refl)
    as (extra & K1 & K2 & K3 & Hall).
  exists (fold_left stats_row rows st0), extra.
  repeat split; try assumption.
  revert Hall. apply Forall_impl. intros k (Hk & r & Hin & Hr).
  split; [exact Hk | ]. exists r.
  unfold rows in Hin. apply filter_In in Hin. destruct Hin as [Hin Hu].
  apply Z.eqb_eq in Hu. repeat split; assumption.
Qed.

End Profile.

(* ===================================================================== *)
(** * The ranking under faults, and a second code *)
(* ===================================================================== *)

Section RankingFaults.

Context {F : FloatOps} {B : BcryptLib} {J : JwtLib}.

Lemma ranking_loop_outcome (gs : list string) (ranking : list (string * json))
    (w : World) :
  fst (ranking_loop gs ranking w)
  = if existsb (fun b => b) (firstn (List.length gs) (db_faults w)) then Throw
    else Return (ranking ++ map (fun g => (g, ranking_of g w)) gs)%list.
Proof.
  revert ranking w.
  induction gs as [ | game gs IH]; intros ranking w.
  - simpl. rewrite app_nil_r. reflexivity.
  - cbn [ranking_loop List.length firstn map].
    unfold bind, select_ranking, pool_query.
    destruct w as [us useq gst gseq dbf mf lg]. cbn [db_faults].
    destruct dbf as [ | [ | ] dbf]; cbn [tl firstn existsb orb fst].
    + rewrite IH. cbn [db_faults set_db_faults logged].
      rewrite firstn_nil, <- app_assoc. reflexivity.
    + reflexivity.
    + rewrite IH. cbn [db_faults set_db_faults logged].
      rewrite <- app_assoc. reflexivity.
Qed.

(** X24.  The ranking is all or nothing.  [/stats/ranking] sends one
    query per game; it answers 200, with the entry of each of the four
    games in order, exactly when none of the four fails; as soon as one
    fails the answer is 500 "Erro no ranking." and no part of the ranking is
    sent. *)
Theorem stats_ranking_all_or_nothing (req : request) (w : World) :
  fst (stats_ranking req w)
  = if existsb (fun b => b) (firstn 4 (db_faults w))
    then Return (json_response 500 (msg "Erro no ranking."))
    else Return (json_response 200
                   (JObject (map (fun g => (g, ranking_of g w)) games))).
Proof.
  unfold stats_ranking, try_catch, bind.
  pose proof (ranking_loop_outcome games [] w) as H.
  destruct (ranking_loop games [] w) as [[ranking | ] w'];
    cbn [fst] in H; change (List.length games) with 4%nat in H;
    destruct (existsb (fun b => b) (firstn 4 (db_faults w)));
    try discriminate H.
  - injection H as ->. reflexivity.
  - reflexivity.
Qed.

(** X25.  A second ForgotPassword replaces the code of the first.  When
    both requests succeed and the two codes differ, the row holds the second
    code with the second expiry, and a reset with the first code is answered
    400 "Código inválido.". *)
Theorem forgot_password_replaces_code (cfg : Config) (env1 env2 env3 : Env)
    (req req3 : request) (w : World) (e p : string)
    (u : Users.row) (rest : list Users.row) :
  req_body req "email" = JStr e ->
  req_body req3 "email" = JStr e ->
  req_body req3 "token" = JStr (generateResetCode (random env1)) ->
  req_body req3 "newPassword" = JStr p ->
  e <> "" ->
  (6 <= String.length p)%nat ->
  users_where_email (Some e) w = u :: rest ->
  db_faults w = [] ->
  mail_faults w = [] ->
  generateResetCode (random env1) <> generateResetCode (random env2) ->
  let w2 :=
    snd (forgot_password cfg env2 req
           (snd (forgot_password cfg env1 req w))) in
  (exists u2 rest2,
      users_where_email (Some e) w2 = u2 :: rest2
      /\ Users.id u2 = Users.id u
      /\ Users.reset_token u2 = Some (generateResetCode (random env2))
      /\ Users.reset_expires u2 = Some (now env2 + 900000))
  /\ fst (reset_password env3 req3 w2)
     = Return (json_response 400 (msg "Código inválido.")).
Proof.
  intros He He3 Hc Hp Hne Hlen Hsel Hdb Hmf Hdiff w2.
  set (c1 := generateResetCode (random env1)) in *.
  set (c2 := generateResetCode (random env2)) in *.
  set (w1 := snd (forgot_password cfg env1 req w)) in *.
  destruct (forgot_password_up cfg env1 req w e u rest He Hne Hsel Hdb Hmf)
    as (_ & Hdb1 & Hus1 & Hlog1).
  fold w1 c1 in Hdb1, Hus1, Hlog1.
  assert (Hmf1 : mail_faults w1 = []).
  { unfold w1, forgot_password. rewrite He.
    rewrite (proj2 (truthy_JStr e) Hne). cbn [negb pg_text].
    destruct w as [us useq gs gseq dbf mf lg].
    simpl in Hsel, Hdb, Hmf. subst dbf mf.
    unfold try_catch, bind, select_users_by_email, update_user_reset,
      pool_query, sendMail, ret, throw.
    cbn. rewrite Hsel. reflexivity. }
  assert (Hsel1 :
            users_where_email (Some e) w1
            = set_reset c1 (now env1 + 15 * 60 * 1000) (Users.id u) u
              :: map (set_reset c1 (now env1 + 15 * 60 * 1000) (Users.id u))
                     rest).
  { unfold users_where_email in *.
    rewrite Hus1, filter_map_set_reset, Hsel. reflexivity. }
  destruct (forgot_password_up cfg env2 req w1 e _ _ He Hne Hsel1 Hdb1 Hmf1)
    as (_ & Hdb2 & Hus2 & _).
  fold w2 c2 in Hdb2, Hus2. rewrite set_reset_id in Hus2.
  assert (Hsel2 :
            users_where_email (Some e) w2
            = map (set_reset c2 (now env2 + 15 * 60 * 1000) (Users.id u))
                  (set_reset c1 (now env1 + 15 * 60 * 1000) (Users.id u) u
                   :: map (set_reset c1 (now env1 + 15 * 60 * 1000)
                                     (Users.id u)) rest)).
  { unfold users_where_email in *.
    rewrite Hus2, filter_map_set_reset, Hsel1. reflexivity. }
  cbn [map] in Hsel2.
  assert (Hrow :
            set_reset c2 (now env2 + 15 * 60 * 1000) (Users.id u)
                      (set_reset c1 (now env1 + 15 * 60 * 1000) (Users.id u) u)
            = Users.mk (Users.id u) (Users.name u) (Users.email u)
                       (Users.password_hash u) (Some c2)
                       (Some (now env2 + 15 * 60 * 1000))).
  { unfold set_reset. rewrite Z.eqb_refl. cbn [Users.id].
    rewrite Z.eqb_refl. reflexivity. }
  rewrite Hrow in Hsel2.
  split.
  - eexists. eexists. split; [exact Hsel2 | ]. repeat split.
  - assert (Hnp : p <> "") by (intros ->; simpl in Hlen; lia).
    apply (reset_password_mismatch env3 req3 w2 e c1 p _ _
             He3 Hc Hp Hne (generateResetCode_nonempty (random env1))
             Hnp Hlen Hdb2) in Hsel2.
    + rewrite Hsel2. reflexivity.
    + cbn [Users.reset_token]. congruence.
Qed.

End RankingFaults.

(* ===================================================================== *)
(** * Every handler answers, and a login is earned *)
(* ===================================================================== *)

Section AlwaysAnswers.

Context {F : FloatOps} {B : BcryptLib} {J : JwtLib}.

Lemma returns_ret {A} (Q : A -> Prop) (a : A) : Q a -> returns Q (ret a).
Proof. intros H w a' E. injection E as <-. exact H. Qed.

Lemma returns_bind {A C} (Q : C -> Prop) (m : M A) (k : A -> M C) :
  (forall a, returns Q (k a)) -> returns Q (bind m k).
Proof.
  intros Hk w c. unfold bind.
  destruct (m w) as [[a | ] w'] eqn:E; [apply Hk | discriminate].
Qed.

Lemma answers_ret (r : response) : In (status r) statuses -> answers (ret r).
Proof. intros H w. exists r. split; [reflexivity | exact H]. Qed.

Lemma answers_try_catch (m : M response) (r : response) :
  returns (fun resp => In (status resp) statuses) m ->
  In (status r) statuses ->
  answers (try_catch m (ret r)).
Proof.
  intros Hm Hr w. unfold try_catch.
  destruct (m w) as [[a | ] w'] eqn:E.
  - exists a. split; [reflexivity | ]. apply (Hm w). rewrite E. reflexivity.
  - exists r. split; [reflexivity | exact Hr].
Qed.

Ltac status_step :=
  match goal with
  | |- returns _ (ret _) => apply returns_ret; simpl; tauto
  | |- returns _ (bind _ _) => apply returns_bind; intros ?
  | |- returns _ (if ?c then _ else _) => destruct c
  | |- returns _ (match ?l with [] => _ | _ :: _ => _ end) => destruct l
  | |- answers (ret _) => apply answers_ret; simpl; tauto
  | |- answers (try_catch _ (ret _)) =>
      apply answers_try_catch; [ | simpl; tauto]
  | |- answers (if ?c then _ else _) => destruct c
  end.

Lemma authenticateToken_answers (cfg : Config) (env : Env) (req : request)
    (next : Claims.t -> M response) :
  (forall user, answers (next user)) ->
  answers (authenticateToken cfg env req next).
Proof.
  intros Hnext. unfold authenticateToken.
  destruct (bearer_token (authorization req)) as [token | ];
    [ | status_step].
  destruct (String.eqb token ""); [status_step | ].
  destruct (jwt_verify token (JWT_SECRET cfg) (seconds (now env)));
    [apply Hnext | status_step].
Qed.

(** X26.  No exception leaves a handler.  Whatever the request and
    whatever faults the store and the transport have, each of the seven
    handlers of the source, the two protected ones behind the middleware,
    returns a response, and its status is one of 200, 201, 400, 401, 403
    and 500. *)
Theorem handlers_always_answer (cfg : Config) (env : Env) (req : request) :
  answers (register env req)
  /\ answers (login cfg env req)
  /\ answers (forgot_password cfg env req)
  /\ answers (reset_password env req)
  /\ answers (authenticateToken cfg env req (stats_update req))
  /\ answers (authenticateToken cfg env req (stats_me req))
  /\ answers (stats_ranking req).
Proof.
  repeat split.
  - unfold register. cbv zeta. repeat status_step.
  - unfold login. cbv zeta. repeat status_step.
  - unfold forgot_password. cbv zeta. repeat status_step.
  - unfold reset_password. cbv zeta. repeat status_step.
  - apply authenticateToken_answers. intros user.
    unfold stats_update. cbv zeta. repeat status_step.
  - apply authenticateToken_answers. intros user.
    unfold stats_me. cbv zeta. repeat status_step.
  - unfold stats_ranking. repeat status_step.
Qed.

(** X27.  A login is earned.  Whatever the request and the faults, a
    login is answered 200 only if the password of the request is a string
    that [bcrypt.compare] accepts against the hash of the first row the
    store returned for the email; and the answer then carries a token signed
    for the id and the email of that row, with its id, name and email and
    nothing else of it. *)
Theorem login_is_earned (cfg : Config) (env : Env) (req : request)
    (w : World) (resp : response) :
  fst (login cfg env req w) = Return resp ->
  status resp = 200 ->
  exists p u rest secret,
    req_body req "password" = JStr p
    /\ users_where_email (pg_text (req_body req "email")) w = u :: rest
    /\ bcrypt_compare p (Users.password_hash u) = true
    /\ configured (JWT_SECRET cfg) = Some secret
    /\ body resp
       = JObject
           [("token",
             JV (JStr (jwt_sign (Users.id u) (Users.email u) secret
                                (seconds (now env)) one_day)));
            ("user",
             JObject [("id", JV (JNum (Users.id u)));
                      ("name", JV (JStr (Users.name u)));
                      ("email", JV (JStr (Users.email u)))])].
Proof.
  unfold login. cbv zeta.
  destruct (negb (truthy (req_body req "email"))
            || negb (truthy (req_body req "password"))).
  { intros H. injection H as <-. discriminate. }
  destruct w as [us useq gs gseq dbf mf lg].
  unfold try_catch, bind, select_users_by_email, pool_query,
    bcrypt_compare_js, generateToken, ret, throw.
  cbn [db_faults users].
  destruct dbf as [ | [ | ] dbf]; cbn [tl set_db_faults logged fst snd].
  2: { intros H. injection H as <-. discriminate. }
  all: cbn [users].
  all: destruct (users_where_email (pg_text (req_body req "email")) _)
         as [ | u rest] eqn:Hsel; cbn in Hsel; cbn.
  all: try (intros H; injection H as <-; discriminate).
  all: destruct (req_body req "password") as [ | | b | z | p | x]; cbn.
  all: try (intros H; injection H as <-; discriminate).
  all: destruct (bcrypt_compare p (Users.password_hash u)) eqn:Hok; cbn.
  all: try (intros H; injection H as <-; discriminate).
  all: destruct (configured (JWT_SECRET cfg)) as [secret | ] eqn:Hcfg; cbn.
  all: try (intros H; injection H as <-; discriminate).
  all: intros H _; injection H as <-.
  all: exists p, u, rest, secret; repeat split; assumption.
Qed.

End AlwaysAnswers.

(* ===================================================================== *)
(** * Runs of the further properties *)
(* ===================================================================== *)

Lemma emails_stay_unique_witness :
  let reg :=
    Run.post "/auth/register" None
             [("name", JStr "Ana"); ("email", JStr "ana@x.com");
              ("password", JStr "secret1")] in
  let steps := [(Run.env, reg); (Run.env_late, reg)] in
  let w := serve (B := Run.B) (J := Run.J) Run.cfg steps Run.empty in
  emails_unique Run.empty
  /\ users w = [Run.ana]
  /\ emails_unique w
  /\ (List.length (users_where_email (Some "ana@x.com") w) <= 1)%nat.
Proof.
  intros reg steps w.
  assert (H0 : emails_unique Run.empty) by constructor.
  pose proof (emails_stay_unique (B := Run.B) (J := Run.J)
                Run.cfg steps Run.empty H0) as [H1 H2].
  split; [exact H0 | ]. split; [reflexivity | ].
  split; [exact H1 | exact (H2 (Some "ana@x.com"))].
Defined.

Lemma ids_stay_fresh_witness :
  let reg :=
    Run.post "/auth/register" None
             [("name", JStr "Ana"); ("email", JStr "ana@x.com");
              ("password", JStr "secret1")] in
  let steps := [(Run.env, reg); (Run.env_late, reg)] in
  let w := serve (B := Run.B) (J := Run.J) Run.cfg steps Run.empty in
  ids_fresh Run.empty
  /\ users w = [Run.ana]
  /\ users_seq w = 2
  /\ ids_fresh w.
Proof.
  intros reg steps w.
  assert (H0 : ids_fresh Run.empty) by (repeat split; constructor).
  split; [exact H0 | ]. split; [reflexivity | ]. split; [reflexivity | ].
  exact (proj1 (ids_stay_fresh (B := Run.B) (J := Run.J)
                  Run.cfg steps Run.empty H0)).
Defined.

Lemma reset_password_single_use_witness :
  let req :=
    Run.post "/auth/reset-password" None
             [("email", JStr "ana@x.com"); ("token", JStr "550000");
              ("newPassword", JStr "newpass")] in
  let w := Run.with_users [Run.ana_pending] in
  let w1 := snd (reset_password (B := Run.B) Run.env req w) in
  now Run.env <= date_of (Users.reset_expires Run.ana_pending)
  /\ fst (reset_password (B := Run.B) Run.env req w)
     = Return (json_response 200 (msg "Senha alterada com sucesso."))
  /\ fst (reset_password (B := Run.B) Run.env_late req w1)
     = Return (json_response 400 (msg "Código inválido."))
  /\ users (snd (reset_password (B := Run.B) Run.env_late req w1)) = users w1.
Proof.
  intros req w w1.
  assert (Hexp : now Run.env <= date_of (Users.reset_expires Run.ana_pending))
    by (simpl; lia).
  split; [exact Hexp | ].
  refine (reset_password_single_use
            (B := Run.B) Run.env Run.env_late req w
            "ana@x.com" "550000" "newpass" Run.ana_pending []
            eq_refl eq_refl eq_refl _ _ _ _ eq_refl eq_refl eq_refl Hexp);
    try discriminate.
  simpl. lia.
Defined.

Lemma reset_password_then_login_witness :
  let req :=
    Run.post "/auth/reset-password" None
             [("email", JStr "ana@x.com"); ("token", JStr "550000");
              ("newPassword", JStr "newpass")] in
  let req' :=
    Run.post "/auth/login" None
             [("email", JStr "ana@x.com"); ("password", JStr "newpass")] in
  let w := Run.with_users [Run.ana_pending] in
  now Run.env <= date_of (Users.reset_expires Run.ana_pending)
  /\ fst (login (B := Run.B) (J := Run.J) Run.cfg Run.env_late req'
                (snd (reset_password (B := Run.B) Run.env req w)))
     = Return (json_response 200
                 (JObject
                    [("token",
                      JV (JStr (Reference.sign 1 "ana@x.com" "s3cr3t" 961
                                               86400)));
                     ("user",
                      JObject [("id", JV (JNum 1));
                               ("name", JV (JStr "Ana"));
                               ("email", JV (JStr "ana@x.com"))])])).
Proof.
  intros req req' w.
  assert (Hexp : now Run.env <= date_of (Users.reset_expires Run.ana_pending))
    by (simpl; lia).
  split; [exact Hexp | ].
  refine (reset_password_then_login
            (B := Run.B) (J := Run.J) Run.cfg Run.env Run.env_late req req' w
            "ana@x.com" "550000" "newpass" "s3cr3t" Run.ana_pending []
            eq_refl eq_refl eq_refl eq_refl eq_refl _ _ _ _
            eq_refl eq_refl eq_refl Hexp eq_refl _
            reference_bcrypt_contract);
    try discriminate.
  simpl. lia.
Defined.

Lemma forgot_then_reset_witness :
  let req1 :=
    Run.post "/auth/forgot-password" None [("email", JStr "ana@x.com")] in
  let req2 :=
    Run.post "/auth/reset-password" None
             [("email", JStr "ana@x.com"); ("token", JStr "550000");
              ("newPassword", JStr "newpass")] in
  let w := Run.with_users [Run.ana] in
  let w1 := snd (forgot_password (F := Run.F) Run.cfg Run.env req1 w) in
  let at_expiry := {| now := 901000; random := Double.mk 1 (-2); salt := "KCl" |} in
  fst (reset_password (B := Run.B) at_expiry req2 w1)
  = Return (json_response 200 (msg "Senha alterada com sucesso."))
  /\ fst (reset_password (B := Run.B) Run.env_late req2 w1)
     = Return (json_response 400 (msg "Código expirado.")).
Proof.
  intros req1 req2 w w1 at_expiry. split.
  - refine (proj1 (proj2 (forgot_then_reset
                            (B := Run.B) Run.cfg Run.env at_expiry req1 req2 w
                            "ana@x.com" "newpass" Run.ana []
                            eq_refl eq_refl eq_refl eq_refl _ _
                            eq_refl eq_refl eq_refl)) _);
      [discriminate | simpl; lia | simpl; lia].
  - refine (proj1 (proj2 (proj2 (forgot_then_reset
                            (B := Run.B) Run.cfg Run.env Run.env_late
                            req1 req2 w
                            "ana@x.com" "newpass" Run.ana []
                            eq_refl eq_refl eq_refl eq_refl _ _
                            eq_refl eq_refl eq_refl)) _));
      [discriminate | simpl; lia | simpl; lia].
Defined.

Lemma forgot_password_reveals_registration_witness :
  let req :=
    Run.post "/auth/forgot-password" None [("email", JStr "bob@x.com")] in
  let w := Run.with_users [Run.ana] in
  fst (forgot_password (F := Run.F) Run.cfg Run.env req w)
  = Return (json_response 400 (msg "Email não encontrado."))
  /\ users (snd (forgot_password (F := Run.F) Run.cfg Run.env req w))
     = [Run.ana]
  /\ log (snd (forgot_password (F := Run.F) Run.cfg Run.env req w))
     = [(SelectUsersByEmail (Some "bob@x.com"), true)].
Proof.
  intros req w.
  pose proof (forgot_password_reveals_registration
                (F := Run.F) Run.cfg Run.env req w eq_refl eq_refl)
    as [Hiff Hsnd].
  split; [apply Hiff; reflexivity | ].
  rewrite (Hsnd eq_refl). split; reflexivity.
Defined.

Lemma register_non_string_password_witness :
  let req :=
    Run.post "/auth/register" None
             [("name", JStr "Bob"); ("email", JStr "bob@x.com");
              ("password", JNum 12345678)] in
  let w := Run.with_users [Run.ana] in
  fst (register (B := Run.B) Run.env req w) = Return server_error
  /\ users (snd (register (B := Run.B) Run.env req w)) = [Run.ana]
  /\ users_seq (snd (register (B := Run.B) Run.env req w)) = 2.
Proof.
  intros req w.
  refine (register_non_string_password
            (B := Run.B) Run.env req w "bob@x.com"
            eq_refl eq_refl eq_refl _ eq_refl eq_refl eq_refl).
  discriminate.
Defined.

Lemma reset_password_non_string_fields_witness :
  let w := Run.with_users [Run.ana_pending] in
  let req1 :=
    Run.post "/auth/reset-password" None
             [("email", JStr "ana@x.com"); ("token", JNum 550000);
              ("newPassword", JStr "newpass")] in
  let req2 :=
    Run.post "/auth/reset-password" None
             [("email", JStr "ana@x.com"); ("token", JStr "550000");
              ("newPassword", JNum 12345678)] in
  fst (reset_password (B := Run.B) Run.env req1 w)
  = Return (json_response 400 (msg "Código inválido."))
  /\ fst (reset_password (B := Run.B) Run.env req2 w) = Return server_error
  /\ users (snd (reset_password (B := Run.B) Run.env req2 w))
     = [Run.ana_pending].
Proof.
  intros w req1 req2. split.
  - refine (proj1 (reset_password_non_string_fields
                     (B := Run.B) Run.env req1 w "ana@x.com"
                     Run.ana_pending []
                     eq_refl _ eq_refl eq_refl eq_refl eq_refl) _ eq_refl);
      discriminate.
  - refine (proj2 (reset_password_non_string_fields
                     (B := Run.B) Run.env req2 w "ana@x.com"
                     Run.ana_pending []
                     eq_refl _ eq_refl eq_refl eq_refl eq_refl)
                  _ "550000" eq_refl eq_refl _);
      [discriminate | discriminate | simpl; lia].
Defined.

Lemma login_without_secret_witness :
  let cfg := {| JWT_SECRET := None; MAIL_FROM := None |} in
  let req :=
    Run.post "/auth/login" None
             [("email", JStr "ana@x.com"); ("password", JStr "secret1")] in
  let w := Run.with_users [Run.ana] in
  fst (login (B := Run.B) (J := Run.J) cfg Run.env req w)
  = Return server_error.
Proof.
  intros cfg req w.
  refine (proj2 (login_without_secret
                   (B := Run.B) (J := Run.J) cfg Run.env req w
                   "ana@x.com" "secret1" eq_refl eq_refl _ _ eq_refl)
                Run.ana [] eq_refl eq_refl eq_refl);
    discriminate.
Defined.

Lemma authenticateToken_second_word_witness :
  let token := Reference.sign 1 "ana@x.com" "s3cr3t" 1 86400 in
  let req := Run.get "/stats/me" (Some ("Basic " ++ token)) in
  let req' := Run.get "/stats/me" (Some ("Bearer " ++ token)) in
  let bare := Run.get "/stats/me" (Some token) in
  let w := Run.with_users [Run.ana] in
  authenticateToken (J := Run.J) Run.cfg Run.env req (stats_me req) w
  = authenticateToken (J := Run.J) Run.cfg Run.env req' (stats_me req) w
  /\ authenticateToken (J := Run.J) Run.cfg Run.env bare (stats_me req) w
     = (Return denied, w).
Proof.
  intros token req req' bare w. split.
  - exact (proj1 (authenticateToken_second_word
                    (J := Run.J) Run.cfg Run.env req req' (stats_me req) w
                    "Basic" token eq_refl eq_refl eq_refl) eq_refl).
  - refine (proj2 (proj2 (authenticateToken_second_word
                            (J := Run.J) Run.cfg Run.env bare req'
                            (stats_me req) w
                            "Basic" token eq_refl eq_refl eq_refl))
                  eq_refl _).
    discriminate.
Defined.

Lemma login_token_opens_profile_witness :
  let w := Run.with_users [Run.ana] in
  let req1 :=
    Run.post "/auth/login" None
             [("email", JStr "ana@x.com"); ("password", JStr "secret1")] in
  let token := Reference.sign 1 "ana@x.com" "s3cr3t" 1 86400 in
  let req2 := Run.get "/stats/me" (Some ("Bearer " ++ token)) in
  fst (login (B := Run.B) (J := Run.J) Run.cfg Run.env req1 w)
  = Return (json_response 200
              (JObject [("token", JV (JStr token));
                        ("user", public_user Run.ana)]))
  /\ app (B := Run.B) (J := Run.J) Run.cfg Run.env_late req2 w
     = stats_me (F := Run.F) req2 (Claims.mk 1 "ana@x.com" 1 86401) w.
Proof.
  intros w req1 token req2.
  refine (login_token_opens_profile
            (B := Run.B) (J := Run.J) Run.cfg Run.env Run.env_late
            req1 req2 w w "ana@x.com" "secret1" "s3cr3t" Run.ana []
            eq_refl eq_refl _ _ eq_refl eq_refl eq_refl eq_refl _
            reference_jwt_contract eq_refl _ eq_refl eq_refl eq_refl _);
    try discriminate.
  reflexivity.
Defined.


Lemma stats_updates_add_up_witness :
  let row : @GameStats.row Run.F :=
    GameStats.mk (H := Run.F) 7 1 (Some "matematica") 3 40 90 in
  let w := Run.with_stats [Run.ana] [row] in
  let submit score duration :=
    Run.post "/stats/update" None
             [("gameType", JStr "matematica"); ("score", JNum score);
              ("duration", JNum duration)] in
  let reqs := [submit 55 2; submit 10 1] in
  let user := Claims.mk 1 "ana@x.com" 1 86401 in
  game_stats (stats_updates user reqs w)
  = [GameStats.mk (H := Run.F) 7 1 (Some "matematica") 6 55 155]
  /\ exists cur' rest',
      filter (stats_of 1 (Some "matematica"))
             (game_stats (stats_updates user reqs w)) = cur' :: rest'
      /\ GameStats.id cur' = 7
      /\ GameStats.total_score cur' = 90 + (55 + (10 + 0))
      /\ GameStats.high_score cur' = Z.max (Z.max 40 55) 10
      /\ GameStats.total_hours cur' = hours_after (F := Run.F) reqs 3
      /\ safe_integer (GameStats.total_score cur')
      /\ safe_integer (GameStats.high_score cur').
Proof.
  intros row w submit reqs user. split; [reflexivity | ].
  refine (stats_updates_add_up (F := Run.F) user reqs (Some "matematica") w
            row [] _ eq_refl eq_refl _ _).
  - repeat constructor.
  - split; reflexivity.
  - reflexivity.
Defined.

Lemma stats_me_keys_witness :
  let rows : list (@GameStats.row Run.F) :=
    [GameStats.mk (H := Run.F) 7 1 (Some "matematica") 3 40 90;
     GameStats.mk (H := Run.F) 8 1 (Some "toString") 1 5 5;
     GameStats.mk (H := Run.F) 9 1 (Some "xadrez") 1 6 6;
     GameStats.mk (H := Run.F) 10 2 (Some "historia") 1 70 70;
     GameStats.mk (H := Run.F) 11 1 None 1 8 8;
     GameStats.mk (H := Run.F) 12 1 (Some "matematica") 4 50 120] in
  let w := Run.with_stats [Run.ana] rows in
  let req := Run.get "/stats/me" None in
  let user := Claims.mk 1 "ana@x.com" 1 86401 in
  let shown a b c d e :=
    JObject [("matematica", JV (JNum a)); ("computacao", JV (JNum b));
             ("portugues", JV (JNum c)); ("historia", JV (JNum d));
             ("toString", JV (JNum e))] in
  let resp :=
    json_response 200
      (JObject [("scores", shown 120 0 0 0 5);
                ("highScores", shown 50 0 0 0 5);
                ("hours", shown 4 0 0 0 1)]) in
  fst (stats_me req user w) = Return resp
  /\ exists st extra,
      body resp = JObject [("scores", JObject (scores st));
                           ("highScores", JObject (highScores st));
                           ("hours", JObject (hours st))]
      /\ map fst (scores st) = (games ++ extra)%list
      /\ map fst (highScores st) = (games ++ extra)%list
      /\ map fst (hours st) = (games ++ extra)%list
      /\ Forall (fun k =>
                   In k object_prototype_names
                   /\ exists r,
                       In r (game_stats w)
                       /\ GameStats.user_id r = Claims.id user
                       /\ GameStats.game_type r = Some k)
                extra.
Proof.
  intros rows w req user shown resp. split; [reflexivity | ].
  exact (stats_me_keys (F := Run.F) req user w resp eq_refl eq_refl).
Defined.

Lemma forgot_password_replaces_code_witness :
  let req :=
    Run.post "/auth/forgot-password" None [("email", JStr "ana@x.com")] in
  let req3 :=
    Run.post "/auth/reset-password" None
             [("email", JStr "ana@x.com"); ("token", JStr "550000");
              ("newPassword", JStr "newpass")] in
  let w := Run.with_users [Run.ana] in
  let w2 :=
    snd (forgot_password (F := Run.F) Run.cfg Run.env_late req
           (snd (forgot_password (F := Run.F) Run.cfg Run.env req w))) in
  generateResetCode (random Run.env) = "550000"
  /\ generateResetCode (random Run.env_late) = "325000"
  /\ users w2
     = [Users.mk 1 "Ana" "ana@x.com" (Reference.hash "secret1" 10 "NaCl")
                 (Some "325000") (Some 1861000)]
  /\ fst (reset_password (B := Run.B) Run.env_late req3 w2)
     = Return (json_response 400 (msg "Código inválido.")).
Proof.
  intros req req3 w w2.
  split; [reflexivity | ]. split; [reflexivity | ]. split; [reflexivity | ].
  refine (proj2 (forgot_password_replaces_code
                   (B := Run.B) Run.cfg Run.env Run.env_late Run.env_late
                   req req3 w "ana@x.com" "newpass" Run.ana []
                   eq_refl eq_refl eq_refl eq_refl _ _
                   eq_refl eq_refl eq_refl _)).
  - discriminate.
  - simpl. lia.
  - vm_compute. discriminate.
Defined.

Lemma login_is_earned_witness :
  let w := Run.with_users [Run.ana] in
  let req :=
    Run.post "/auth/login" None
             [("email", JStr "ana@x.com"); ("password", JStr "secret1")] in
  let resp :=
    json_response 200
      (JObject [("token",
                 JV (JStr (Reference.sign 1 "ana@x.com" "s3cr3t" 1 86400)));
                ("user", public_user Run.ana)]) in
  fst (login (B := Run.B) (J := Run.J) Run.cfg Run.env req w) = Return resp
  /\ exists p u rest secret,
      req_body req "password" = JStr p
      /\ users_where_email (pg_text (req_body req "email")) w = u :: rest
      /\ bcrypt_compare (BcryptLib := Run.B) p (Users.password_hash u) = true
      /\ configured (JWT_SECRET Run.cfg) = Some secret
      /\ body resp
         = JObject
             [("token",
               JV (JStr (jwt_sign (JwtLib := Run.J)
                                  (Users.id u) (Users.email u) secret
                                  (seconds (now Run.env)) one_day)));
              ("user",
               JObject [("id", JV (JNum (Users.id u)));
                        ("name", JV (JStr (Users.name u)));
                        ("email", JV (JStr (Users.email u)))])].
Proof.
  intros w req resp. split; [reflexivity | ].
  exact (login_is_earned (B := Run.B) (J := Run.J) Run.cfg Run.env req w resp
           eq_refl eq_refl).
Defined.
